(** * POSIX metadata sidecars of the rclone VFS

    A shallow embedding of the sidecar metadata stores of package [vfs]
    ([posixmeta_sidecar.go], [metadata_sidecar.go]) and of the two overlay
    adapters that use them ([cmd/mount/file.go], [cmd/serve/nfs/filesystem.go]),
    with the properties the specification states about them.

    Layout. Definitions: Go helpers ([strings], [strconv], integer
    conversions, errors); programs as trees of calls and their runs; package
    [vfs]; a model of the file contract of the VFS; a runnable JSON and time
    library; the adapters of packages [mount] and [nfs] and their model; sample
    data; the rest of the sidecar code (the operations of the generic store,
    the share's operations on names) and more readings of the log of a run.
    Properties: strings and runs; the
    codec; the naming rule; the specialized store, on any VFS and on the
    model; the adapters; further properties of the design; the theorems at
    work on sample data; further properties of naming, of the codecs, of the
    two stores and of the adapters, and of a change made through one adapter
    as both show it. *)

From Stdlib Require Import ZArith Ascii String List Bool Lia.
From stdpp Require Import base option gmap strings list fin_maps.

Local Open Scope string_scope.
Local Open Scope Z_scope.

(** ** Go's [strings] and [strconv], as far as the sources use them *)

Module strings.

(** [strings.HasSuffix(s, suffix)]:
    [len(s) >= len(suffix) && s[len(s)-len(suffix):] == suffix]. *)
Definition HasSuffix (s suffix : string) : bool :=
  (String.length suffix <=? String.length s)%nat &&
  String.eqb (substring (String.length s - String.length suffix)
                        (String.length suffix) s) suffix.

(** [strings.TrimSuffix(s, suffix)]: [s] without the trailing [suffix], once. *)
Definition TrimSuffix (s suffix : string) : string :=
  if HasSuffix s suffix
  then substring 0 (String.length s - String.length suffix) s
  else s.

End strings.

Module strconv.

Definition digitChar (d : Z) : ascii :=
  ascii_of_nat (Z.to_nat (if d <? 10 then 48 + d else 87 + d)).

Fixpoint formatBits (fuel : nat) (n base : Z) (acc : string) : string :=
  match fuel with
  | O => acc
  | S fuel' =>
      let acc' := String (digitChar (n mod base)) acc in
      if n / base =? 0 then acc' else formatBits fuel' (n / base) base acc'
  end.

(** [strconv.FormatUint(i, base)] for [0 <= i < 2^64] and [2 <= base <= 36]:
    the digits of [i], most significant first, no leading zero. Sixty-four
    digits are enough for every such [i]. *)
Definition FormatUint (i : Z) (base : Z) : string :=
  formatBits 64 i base "".

Definition digitVal (c : ascii) : option Z :=
  let n := Z.of_nat (nat_of_ascii c) in
  if (48 <=? n) && (n <=? 57) then Some (n - 48)
  else if (97 <=? n) && (n <=? 122) then Some (n - 97 + 10)
  else if (65 <=? n) && (n <=? 90) then Some (n - 65 + 10)
  else None.

Fixpoint parseDigits (s : string) (base : Z) (acc : Z) : option Z :=
  match s with
  | EmptyString => Some acc
  | String c rest =>
      match digitVal c with
      | Some d => if d <? base then parseDigits rest base (acc * base + d) else None
      | None => None
      end
  end.

(** [strconv.ParseUint(s, base, bitSize)] for an explicit [base]: [None]
    stands for the error result (empty input, a character that is not a digit
    of the base, or a value that does not fit [bitSize] bits). *)
Definition ParseUint (s : string) (base : Z) (bitSize : Z) : option Z :=
  match s with
  | EmptyString => None
  | _ =>
      match parseDigits s base 0 with
      | Some n => if n <? 2 ^ bitSize then Some n else None
      | None => None
      end
  end.

End strconv.

(** Conversions between Go's integer types wrap around. *)
Definition uint32 (z : Z) : Z := z mod 2 ^ 32.
Definition uint64 (z : Z) : Z := z mod 2 ^ 64.
Definition int64 (z : Z) : Z := (z + 2 ^ 63) mod 2 ^ 64 - 2 ^ 63.

(** ** Errors and results

    Go's [error] values that the sources name or can receive. [None] in an
    [option error] is Go's [nil]. *)
Inductive error : Type :=
| ErrorObjectNotFound          (* fs.ErrorObjectNotFound *)
| ENOENT                       (* vfs.ENOENT: no such file or directory *)
| ENOSYS                       (* vfs.ENOSYS: not implemented *)
| ErrInvalid                   (* os.ErrInvalid *)
| JSONError (msg : string)     (* an error of encoding/json *)
| IOError (code : Z).          (* any other failure of a VFS primitive *)

#[global] Instance error_eq_dec : EqDecision error.
Proof. solve_decision. Defined.

Definition isNil (e : option error) : bool :=
  match e with None => true | Some _ => false end.

(** [p != nil] for a pointer [p]. *)
Definition notNil {A} (p : option A) : bool :=
  match p with Some _ => true | None => false end.

(** [[]byte] *)
Abbreviation bytes := (list Byte.byte).

Definition bytes_of_string (s : string) : bytes := list_byte_of_string s.

(** The errors that say "there is no record": [fs.ErrorObjectNotFound],
    which the store returns itself, and the "no such file" error with which
    the VFS answers for a name it does not hold. Together they are the
    NotFound outcome of the spec's error taxonomy. *)
Definition isNotFound (e : option error) : bool :=
  match e with
  | Some ErrorObjectNotFound | Some ENOENT => true
  | _ => false
  end.

(** [time.Time], as the number of seconds since the Unix epoch (an instant;
    [UTC()] does not change it). The zero [time.Time] is 1 January of year 1. *)
Definition Time := Z.
Definition zeroTime : Time := -62135596800.
Definition IsZero (t : Time) : bool := t =? zeroTime.

(** ** Programs

    The stores and the adapters are sequential code whose only effects are
    calls into the VFS (and, for the adapters, into a store). A program is the
    tree of the calls it issues: [Ret a] returns [a] without any further call,
    [Vis e k] issues the call [e] and continues as [k] of its result. *)
Inductive Prog (E : Type -> Type) (A : Type) : Type :=
| Ret (a : A)
| Vis (X : Type) (e : E X) (k : X -> Prog E A).

Arguments Ret {E A} a.
Arguments Vis {E A X} e k.

Fixpoint bind {E A B} (p : Prog E A) (f : A -> Prog E B) : Prog E B :=
  match p with
  | Ret a => f a
  | Vis e k => Vis e (fun x => bind (k x) f)
  end.

Definition call {E X} (e : E X) : Prog E X := Vis e Ret.

(** With these instances a program is written in stdpp's monad notation:
    [x ← p; q] runs [p], names its result [x] and continues as [q]. *)
#[global] Instance Prog_ret {E} : MRet (Prog E) := fun A a => Ret a.
#[global] Instance Prog_bind {E} : MBind (Prog E) := fun A B f p => bind p f.

(** What the world answers to one call, and how it changes. *)
Definition handler (E : Type -> Type) (St : Type) : Type :=
  forall X, E X -> St -> X * St.

(** One call of a run: the call, its result and the state right after it. *)
Inductive entry (E : Type -> Type) (St : Type) : Type :=
| Entry (X : Type) (e : E X) (x : X) (after : St).

Arguments Entry {E St X} e x after.

(** [exec h p st] runs [p] from [st]: the value returned, the final state and
    the calls issued, in order. *)
Fixpoint exec {E St A} (h : handler E St) (p : Prog E A) (st : St)
  : A * St * list (entry E St) :=
  match p with
  | Ret a => (a, st, [])
  | Vis e k =>
      let '(x, st1) := h _ e st in
      let '(a, st2, log) := exec h (k x) st1 in
      (a, st2, Entry e x st1 :: log)
  end.

Definition afterOf {E St} (en : entry E St) : St :=
  match en with Entry _ _ st => st end.

(** ** Package [vfs]: the sidecar stores *)

Module vfs.

(** [PosixMeta]: persisted POSIX metadata as strings; a [nil] pointer is
    [None]. *)
Record PosixMeta : Type := {
  Mode : option string;
  UID : option string;
  GID : option string;
  Mtime : option string;
  Atime : option string;
  Btime : option string
}.

(** [PosixMeta{}] *)
Definition emptyMeta : PosixMeta :=
  {| Mode := None; UID := None; GID := None;
     Mtime := None; Atime := None; Btime := None |}.

#[global] Instance PosixMeta_eq_dec : EqDecision PosixMeta.
Proof. solve_decision. Defined.

(** What the stores take from Go's standard library: [json.Marshal] and
    [json.Unmarshal] at type [PosixMeta] (the latter into a zero value),
    [time.Parse] with the layout [time.RFC3339], and [t.UTC().Format] with
    the same layout. *)
Class GoLib : Type := {
  jsonMarshal : PosixMeta -> bytes * option error;
  jsonUnmarshal : bytes -> PosixMeta * option error;
  timeParseRFC3339 : string -> Time * option error;
  timeFormatRFC3339 : Time -> string
}.

(** A [vfs.Handle], known by the name of the file it was opened on. *)
Record Handle : Type := { hname : string }.

(** The methods of [*VFS] and of the handles it returns that the stores
    call. Each answers with Go's result tuple; of [Stat]'s the stores read
    the error only. *)
Inductive VfsE : Type -> Type :=
| VfsReadFile (name : string) : VfsE (bytes * option error)
| VfsCreate (name : string) : VfsE (Handle * option error)
| HandleWrite (w : Handle) (b : bytes) : VfsE (Z * option error)
| HandleClose (w : Handle) : VfsE (option error)
| VfsRemove (name : string) : VfsE (option error)
| VfsRename (oldName newName : string) : VfsE (option error)
| VfsStat (name : string) : VfsE (option error).

(** [PosixMetaStore]: a minimal sidecar-based metadata store bound to a VFS.
    The field [Vfs] of the Go struct is the VFS the calls of a program are
    issued to; [Ext] is the configured suffix. *)
Record PosixMetaStore : Type := { Ext : string }.

(** [IsSidecarPath] reports whether [p] is a sidecar object path. *)
Definition IsSidecarPath (s : PosixMetaStore) (p : string) : bool :=
  if String.eqb (Ext s) "" then false
  else strings.HasSuffix p (Ext s).

(** [metaPath] returns the sidecar path for [p]. *)
Definition metaPath (s : PosixMetaStore) (p : string) : string :=
  let e := Ext s in
  let e := if String.eqb e "" then ".posixmeta" else e in
  p +:+ e.

Section Store.
Context `{GoLib}.

(** [Load] reads meta from sidecar JSON. *)
Definition Load (s : PosixMetaStore) (path : string)
  : Prog VfsE (PosixMeta * option error) :=
  if IsSidecarPath s path then mret (emptyMeta, Some ErrorObjectNotFound)
  else
    '(b, err) ← call (VfsReadFile (metaPath s path));
    if negb (isNil err) then mret (emptyMeta, err)
    else if (length b =? 0)%nat then mret (emptyMeta, Some ErrorObjectNotFound)
    else
      let '(m, err) := jsonUnmarshal b in
      if negb (isNil err) then mret (emptyMeta, err)
      else mret (m, None).

(** The six assignments [if m.F != nil { cur.F = m.F }] of [Save]. *)
Definition merge (cur m : PosixMeta) : PosixMeta :=
  let cur := if Mode m is Some _ then {| Mode := Mode m; UID := UID cur; GID := GID cur;
       Mtime := Mtime cur; Atime := Atime cur; Btime := Btime cur |} else cur in
  let cur := if UID m is Some _ then {| Mode := Mode cur; UID := UID m; GID := GID cur;
       Mtime := Mtime cur; Atime := Atime cur; Btime := Btime cur |} else cur in
  let cur := if GID m is Some _ then {| Mode := Mode cur; UID := UID cur; GID := GID m;
       Mtime := Mtime cur; Atime := Atime cur; Btime := Btime cur |} else cur in
  let cur := if Mtime m is Some _ then {| Mode := Mode cur; UID := UID cur; GID := GID cur;
       Mtime := Mtime m; Atime := Atime cur; Btime := Btime cur |} else cur in
  let cur := if Atime m is Some _ then {| Mode := Mode cur; UID := UID cur; GID := GID cur;
       Mtime := Mtime cur; Atime := Atime m; Btime := Btime cur |} else cur in
  let cur := if Btime m is Some _ then {| Mode := Mode cur; UID := UID cur; GID := GID cur;
       Mtime := Mtime cur; Atime := Atime cur; Btime := Btime m |} else cur in
  cur.

(** [Save] writes meta to a temporary file then renames over the sidecar. *)
Definition Save (s : PosixMetaStore) (path : string) (m : PosixMeta)
  : Prog VfsE (option error) :=
  if IsSidecarPath s path then mret None
  else
    '(cur, _) ← Load s path;
    let cur := merge cur m in
    let p := metaPath s path in
    let tmp := p +:+ ".tmp" in
    '(w, err) ← call (VfsCreate tmp);
    if negb (isNil err) then mret err
    else
      let '(enc, err) := jsonMarshal cur in
      if negb (isNil err) then
        _ ← call (HandleClose w); _ ← call (VfsRemove tmp); mret err
      else
        '(_, err) ← call (HandleWrite w enc);
        if negb (isNil err) then
          _ ← call (HandleClose w); _ ← call (VfsRemove tmp); mret err
        else
          err ← call (HandleClose w);
          if negb (isNil err) then _ ← call (VfsRemove tmp); mret err
          else
            err ← call (VfsRename tmp p);
            if negb (isNil err) then _ ← call (VfsRemove tmp); mret err
            else mret None.

(** The steps of [Save] that follow the merge, for the merged record [cur]:
    [Save] on a path that is not a sidecar path is [Load], [merge], then
    these (lemma [Save_steps]). *)
Definition commit (s : PosixMetaStore) (path : string) (cur : PosixMeta)
  : Prog VfsE (option error) :=
  let p := metaPath s path in
  let tmp := p +:+ ".tmp" in
  '(w, err) ← call (VfsCreate tmp);
  if negb (isNil err) then mret err
  else
    let '(enc, err) := jsonMarshal cur in
    if negb (isNil err) then
      _ ← call (HandleClose w); _ ← call (VfsRemove tmp); mret err
    else
      '(_, err) ← call (HandleWrite w enc);
      if negb (isNil err) then
        _ ← call (HandleClose w); _ ← call (VfsRemove tmp); mret err
      else
        err ← call (HandleClose w);
        if negb (isNil err) then _ ← call (VfsRemove tmp); mret err
        else
          err ← call (VfsRename tmp p);
          if negb (isNil err) then _ ← call (VfsRemove tmp); mret err
          else mret None.

(** [Delete] removes sidecar if present. *)
Definition Delete (s : PosixMetaStore) (path : string)
  : Prog VfsE (option error) :=
  if IsSidecarPath s path then mret None
  else call (VfsRemove (metaPath s path)).

(** [Rename] moves the sidecar along with the object if exists. *)
Definition Rename (s : PosixMetaStore) (oldPath newPath : string)
  : Prog VfsE (option error) :=
  if IsSidecarPath s oldPath || IsSidecarPath s newPath then mret None
  else
    let oldM := metaPath s oldPath in
    let newM := metaPath s newPath in
    err ← call (VfsStat oldM);
    if negb (isNil err) then mret None
    else call (VfsRename oldM newM).

(** [FormatPosixMode] returns a string like 100644/040755 including type
    bits. [os.FileMode] is a [uint32]. *)
Definition FormatPosixMode (m : Z) (isDir : bool) : string :=
  let mode := uint32 m in
  let mode :=
    if isDir
    then Z.lor (Z.ldiff mode 0xF000) 0x4000   (* S_IFDIR *)
    else Z.lor (Z.ldiff mode 0xF000) 0x8000   (* S_IFREG *)
  in
  strconv.FormatUint (uint64 mode) 8.

(** [ParsePosixMode] parses an octal string with type bits to [FileMode]. *)
Definition ParsePosixMode (s : string) : Z :=
  match strconv.ParseUint s 8 32 with
  | None => 0
  | Some u => uint32 u
  end.

(** [ParsePosixTime] parses RFC3339 in UTC. *)
Definition ParsePosixTime (s : string) : Time :=
  if String.eqb s "" then zeroTime
  else
    let '(t, err) := timeParseRFC3339 s in
    if negb (isNil err) then zeroTime else t.

(** [PosixAnyFieldSet] returns true if any field is set. *)
Definition PosixAnyFieldSet (m : PosixMeta) : bool :=
  notNil (Mode m) || notNil (UID m) || notNil (GID m) ||
  notNil (Mtime m) || notNil (Atime m) || notNil (Btime m).

End Store.

(** The generic store of [metadata_sidecar.go]: [ext] is the suffix its
    constructor was given. *)
Record sidecarStore : Type := { ext : string }.

Definition newSidecarStore (e : string) : sidecarStore := {| ext := e |}.

(** [sidecarStore.name]: [strings.TrimSuffix(p, "/") + s.ext]. *)
Definition name (s : sidecarStore) (p : string) : string :=
  strings.TrimSuffix p "/" +:+ ext s.

End vfs.

(** ** The file contract of the VFS *)

Module vfsmodel.
Import vfs.

(** An injected failure of one primitive call: the error it returns and, for
    a write, how many bytes reached the file before it failed. *)
Record fault : Type := { ferr : error; fdone : nat }.

(** Modelled from the spec: the VFS itself (its [ReadFile], [Create],
    [Remove], [Rename], [Stat] and the handles' [Write] and [Close]) is not
    among the sources; the spec names it as the narrow file-access contract
    the stores consume, with an atomic rename and a "does not exist" error
    from remove and rename. The state is the content of every file by name,
    and a plan of injected failures: each primitive call takes the next entry
    of the plan, fails with it when it is a fault, and behaves normally
    otherwise (also once the plan is used up). *)
Record state : Type := {
  files : gmap string bytes;
  plan : list (option fault)
}.

Definition next (st : state) : option fault * state :=
  match plan st with
  | [] => (None, st)
  | f :: rest => (f, {| files := files st; plan := rest |})
  end.

Definition setFiles (st : state) (fs : gmap string bytes) : state :=
  {| files := fs; plan := plan st |}.

Definition nilHandle : Handle := {| hname := "" |}.

Definition run : handler VfsE state := fun X e st0 =>
  let '(f, st) := next st0 in
  match e in VfsE X return X * state with
  | VfsReadFile name =>
      match f with
      | Some ft => (([], Some (ferr ft)), st)
      | None =>
          match files st !! name with
          | Some b => ((b, None), st)
          | None => (([], Some ENOENT), st)
          end
      end
  | VfsCreate name =>
      match f with
      | Some ft => ((nilHandle, Some (ferr ft)), st)
      | None => (({| hname := name |}, None), setFiles st (<[name := []]> (files st)))
      end
  | HandleWrite w b =>
      let old : bytes := default [] (files st !! hname w) in
      match f with
      | Some ft =>
          let part := take (fdone ft) b in
          ((Z.of_nat (length part), Some (ferr ft)),
           setFiles st (<[hname w := (old ++ part)%list]> (files st)))
      | None =>
          ((Z.of_nat (length b), None),
           setFiles st (<[hname w := (old ++ b)%list]> (files st)))
      end
  | HandleClose w =>
      match f with
      | Some ft => (Some (ferr ft), st)
      | None => (None, st)
      end
  | VfsRemove name =>
      match f with
      | Some ft => (Some (ferr ft), st)
      | None =>
          match files st !! name with
          | Some _ => (None, setFiles st (delete name (files st)))
          | None => (Some ENOENT, st)
          end
      end
  | VfsRename oldName newName =>
      match f with
      | Some ft => (Some (ferr ft), st)
      | None =>
          match files st !! oldName with
          | Some b => (None, setFiles st (<[newName := b]> (delete oldName (files st))))
          | None => (Some ENOENT, st)
          end
      end
  | VfsStat name =>
      match f with
      | Some ft => (Some (ferr ft), st)
      | None =>
          match files st !! name with
          | Some _ => (None, st)
          | None => (Some ENOENT, st)
          end
      end
  end.

(** Readings of the log of a run. *)
Definition createdOk (en : entry VfsE state) : bool :=
  match en with
  | Entry e x _ =>
      match e in VfsE X return X -> bool with
      | VfsCreate _ => fun r => isNil r.2
      | _ => fun _ => false
      end x
  end.

(** Some call of the log created a file successfully. *)
Definition createdTemp (log : list (entry VfsE state)) : bool :=
  existsb createdOk log.


(** A VFS holding the given files, on which no failure is injected. *)
Definition healthy (fs : gmap string bytes) : state :=
  {| files := fs; plan := [] |}.

End vfsmodel.

(** ** A runnable [GoLib]

    The part of [encoding/json] and [time] that the stores exercise, written
    out so that programs can be run on concrete files: [PosixMeta] marshals to
    one JSON object whose members are the fields that are set, in declaration
    order, with Go's escaping of ASCII text; unmarshalling reads an object of
    string or [null] members (any white space, any order, unknown names
    skipped) and rejects everything else; times are RFC 3339 in UTC with whole
    seconds. *)

Module golib.
Import vfs.

Definition dquote : ascii := "034"%char.
Definition bslash : ascii := "092"%char.

Definition hexChar (n : nat) : ascii :=
  ascii_of_nat (if (n <? 10)%nat then 48 + n else 87 + n).

Definition escapeChar (c : ascii) : string :=
  let n := nat_of_ascii c in
  if (n =? 34)%nat then String bslash (String dquote "")
  else if (n =? 92)%nat then String bslash (String bslash "")
  else if (n =? 10)%nat then String bslash "n"
  else if (n =? 13)%nat then String bslash "r"
  else if (n =? 9)%nat then String bslash "t"
  else if (n <? 32)%nat || (n =? 60)%nat || (n =? 62)%nat || (n =? 38)%nat then
    String bslash ("u00" +:+ String (hexChar (n / 16)) (String (hexChar (n mod 16)) ""))
  else String c "".

Fixpoint escape (s : string) : string :=
  match s with
  | EmptyString => ""
  | String c rest => escapeChar c +:+ escape rest
  end.

Definition quoted (s : string) : string :=
  String dquote (escape s +:+ String dquote "").

Definition member (key : string) (v : option string) : list string :=
  match v with
  | Some s => [quoted key +:+ ":" +:+ quoted s]
  | None => []
  end.

Definition marshalString (m : PosixMeta) : string :=
  "{" +:+ String.concat ","
    (member "mode" (Mode m) ++ member "uid" (UID m) ++ member "gid" (GID m) ++
     member "mtime" (Mtime m) ++ member "atime" (Atime m) ++
     member "btime" (Btime m))%list +:+ "}".

Definition Marshal (m : PosixMeta) : bytes * option error :=
  (bytes_of_string (marshalString m), None).

Definition isSpace (c : ascii) : bool :=
  let n := nat_of_ascii c in
  (n =? 32)%nat || (n =? 9)%nat || (n =? 10)%nat || (n =? 13)%nat.

Fixpoint skipSpace (s : string) : string :=
  match s with
  | String c rest => if isSpace c then skipSpace rest else s
  | EmptyString => s
  end.

Definition hexVal (c : ascii) : option nat :=
  match strconv.digitVal c with
  | Some d => if d <? 16 then Some (Z.to_nat d) else None
  | None => None
  end.

(** The text of a string literal, read from just after its opening quote:
    the decoded text and what follows the closing quote. *)
Fixpoint stringBody (s : string) (acc : string) : option (string * string) :=
  match s with
  | EmptyString => None
  | String c rest =>
      if Ascii.eqb c dquote then Some (acc, rest)
      else if Ascii.eqb c bslash then
        match rest with
        | String e rest1 =>
            let plain (d : ascii) := stringBody rest1 (acc +:+ String d "") in
            if Ascii.eqb e dquote then plain dquote
            else if Ascii.eqb e bslash then plain bslash
            else if Ascii.eqb e "/" then plain "/"%char
            else if Ascii.eqb e "n" then plain "010"%char
            else if Ascii.eqb e "r" then plain "013"%char
            else if Ascii.eqb e "t" then plain "009"%char
            else if Ascii.eqb e "b" then plain "008"%char
            else if Ascii.eqb e "f" then plain "012"%char
            else if Ascii.eqb e "u" then
              match rest1 with
              | String h1 (String h2 (String h3 (String h4 rest2))) =>
                  match hexVal h1, hexVal h2, hexVal h3, hexVal h4 with
                  | Some 0%nat, Some 0%nat, Some a, Some b =>
                      if (a <? 8)%nat
                      then stringBody rest2 (acc +:+ String (ascii_of_nat (16 * a + b)) "")
                      else None
                  | _, _, _, _ => None
                  end
              | _ => None
              end
            else None
        | EmptyString => None
        end
      else if (nat_of_ascii c <? 32)%nat then None
      else stringBody rest (acc +:+ String c "")
  end.

(** A member's value: a string, or [null] (which leaves a [nil] pointer). *)
Definition value (s : string) : option (option string * string) :=
  match s with
  | String c rest =>
      if Ascii.eqb c dquote then
        match stringBody rest "" with
        | Some (v, rest1) => Some (Some v, rest1)
        | None => None
        end
      else
        match s with
        | String "n" (String "u" (String "l" (String "l" rest1))) => Some (None, rest1)
        | _ => None
        end
  | EmptyString => None
  end.

Definition setField (key : string) (v : option string) (m : PosixMeta) : PosixMeta :=
  if String.eqb key "mode" then {| Mode := v; UID := UID m; GID := GID m;
       Mtime := Mtime m; Atime := Atime m; Btime := Btime m |}
  else if String.eqb key "uid" then {| Mode := Mode m; UID := v; GID := GID m;
       Mtime := Mtime m; Atime := Atime m; Btime := Btime m |}
  else if String.eqb key "gid" then {| Mode := Mode m; UID := UID m; GID := v;
       Mtime := Mtime m; Atime := Atime m; Btime := Btime m |}
  else if String.eqb key "mtime" then {| Mode := Mode m; UID := UID m; GID := GID m;
       Mtime := v; Atime := Atime m; Btime := Btime m |}
  else if String.eqb key "atime" then {| Mode := Mode m; UID := UID m; GID := GID m;
       Mtime := Mtime m; Atime := v; Btime := Btime m |}
  else if String.eqb key "btime" then {| Mode := Mode m; UID := UID m; GID := GID m;
       Mtime := Mtime m; Atime := Atime m; Btime := v |}
  else m.

(** The members of an object, read from its first member's name on. *)
Fixpoint members (fuel : nat) (s : string) (m : PosixMeta) : option PosixMeta :=
  match fuel with
  | O => None
  | S fuel' =>
      match skipSpace s with
      | String q rest =>
          if negb (Ascii.eqb q dquote) then None
          else
            match stringBody rest "" with
            | Some (key, rest1) =>
                match skipSpace rest1 with
                | String ":" rest2 =>
                    match value (skipSpace rest2) with
                    | Some (v, rest3) =>
                        let m' := setField key v m in
                        match skipSpace rest3 with
                        | String "," rest4 => members fuel' rest4 m'
                        | String "}" rest4 =>
                            match skipSpace rest4 with
                            | EmptyString => Some m'
                            | _ => None
                            end
                        | _ => None
                        end
                    | None => None
                    end
                | _ => None
                end
            | None => None
            end
      | EmptyString => None
      end
  end.

Definition unmarshalString (s : string) : option PosixMeta :=
  match skipSpace s with
  | String "{" rest =>
      match skipSpace rest with
      | String "}" rest1 =>
          match skipSpace rest1 with
          | EmptyString => Some emptyMeta
          | _ => None
          end
      | _ => members (String.length rest) rest emptyMeta
      end
  | String "n" (String "u" (String "l" (String "l" rest))) =>
      match skipSpace rest with
      | EmptyString => Some emptyMeta
      | _ => None
      end
  | _ => None
  end.

Definition Unmarshal (b : bytes) : PosixMeta * option error :=
  match unmarshalString (string_of_list_byte b) with
  | Some m => (m, None)
  | None => (emptyMeta, Some (JSONError "invalid character"))
  end.

(** Days since 1970-01-01 of a date of the proleptic Gregorian calendar, and
    back. *)
Definition daysFromCivil (y m d : Z) : Z :=
  let y := if m <=? 2 then y - 1 else y in
  let era := y / 400 in
  let yoe := y - era * 400 in
  let doy := (153 * (if m >? 2 then m - 3 else m + 9) + 2) / 5 + d - 1 in
  let doe := yoe * 365 + yoe / 4 - yoe / 100 + doy in
  era * 146097 + doe - 719468.

Definition civilFromDays (z : Z) : Z * Z * Z :=
  let z := z + 719468 in
  let era := z / 146097 in
  let doe := z - era * 146097 in
  let yoe := (doe - doe / 1460 + doe / 36524 - doe / 146096) / 365 in
  let y := yoe + era * 400 in
  let doy := doe - (365 * yoe + yoe / 4 - yoe / 100) in
  let mp := (5 * doy + 2) / 153 in
  let d := doy - (153 * mp + 2) / 5 + 1 in
  let m := if mp <? 10 then mp + 3 else mp - 9 in
  (if m <=? 2 then y + 1 else y, m, d).

Fixpoint padded (width : nat) (n : Z) (acc : string) : string :=
  match width with
  | O => acc
  | S w => padded w (n / 10) (String (strconv.digitChar (n mod 10)) acc)
  end.

Definition Format (t : Time) : string :=
  let '(y, m, d) := civilFromDays (t / 86400) in
  let s := t mod 86400 in
  padded 4 y "" +:+ "-" +:+ padded 2 m "" +:+ "-" +:+ padded 2 d "" +:+ "T" +:+
  padded 2 (s / 3600) "" +:+ ":" +:+ padded 2 (s mod 3600 / 60) "" +:+ ":" +:+
  padded 2 (s mod 60) "" +:+ "Z".

Definition number (s : string) : option Z :=
  match s with
  | EmptyString => None
  | _ => strconv.parseDigits s 10 0
  end.

Definition Parse (s : string) : Time * option error :=
  let bad : Time * option error := (zeroTime, Some ErrInvalid) in
  if negb (String.length s =? 20)%nat then bad
  else if negb (String.eqb (substring 4 1 s) "-" && String.eqb (substring 7 1 s) "-" &&
                String.eqb (substring 10 1 s) "T" && String.eqb (substring 13 1 s) ":" &&
                String.eqb (substring 16 1 s) ":" && String.eqb (substring 19 1 s) "Z")
  then bad
  else
    match number (substring 0 4 s), number (substring 5 2 s), number (substring 8 2 s),
          number (substring 11 2 s), number (substring 14 2 s), number (substring 17 2 s) with
    | Some y, Some m, Some d, Some hh, Some mm, Some ss =>
        let t := daysFromCivil y m d * 86400 + hh * 3600 + mm * 60 + ss in
        if (hh <? 24) && (mm <? 60) && (ss <? 60) && String.eqb (Format t) s
        then (t, None) else bad
    | _, _, _, _, _, _ => bad
    end.

#[global] Instance lib : GoLib := {|
  jsonMarshal := Marshal;
  jsonUnmarshal := Unmarshal;
  timeParseRFC3339 := Parse;
  timeFormatRFC3339 := Format
|}.

(** A JSON text written with ['] for the quotation mark. *)
Fixpoint json (s : string) : string :=
  match s with
  | EmptyString => ""
  | String c rest => String (if Ascii.eqb c "'" then dquote else c) (json rest)
  end.

End golib.

(** ** The overlay adapters *)

(** The options of a VFS ([vfscommon.Options]) that the adapters read. *)
Module vfscommon.

Record Options : Type := {
  UID : Z;
  GID : Z;
  PersistMetadata : bool;
  PosixMetadataExtension : string;
  NoModTime : bool
}.

End vfscommon.

Module overlay.
Import vfs.

(** A [vfs.Node] as [os.FileInfo] shows it, with what [SetSys] stored in it
    ([file.FileInfo] of go-nfs). [nodeOpt] is [node.VFS().Opt]. *)
Record SysInfo : Type := {
  Nlink : Z;
  sysUID : Z;
  sysGID : Z;
  Fileid : Z
}.

Record FileInfo : Type := {
  nodePath : string;
  nodeSize : Z;
  nodeMode : Z;
  nodeModTime : Time;
  nodeInode : Z;
  nodeOpt : vfscommon.Options;
  nodeSys : option SysInfo
}.

(** What the adapters call: the methods of a [PosixMetaStore] they build,
    the live operations of the VFS and of its files, the clock, the
    attribute cache of the mount and the log. *)
Inductive AdE : Type -> Type :=
| StoreLoad (s : PosixMetaStore) (path : string) : AdE (PosixMeta * option error)
| StoreSave (s : PosixMetaStore) (path : string) (m : PosixMeta) : AdE (option error)
| LiveTruncate (path : string) (size : Z) : AdE (option error)
| LiveSetModTime (path : string) (t : Time) : AdE (option error)
| LiveStat (name : string) : AdE (FileInfo + error)
| LiveOpen (name : string) : AdE (Handle * option error)
| LiveChmod (file : Handle) (mode : Z) : AdE (option error)
| LiveChown (file : Handle) (uid gid : Z) : AdE (option error)
| LiveClose (file : Handle) : AdE (option error)
| LiveChtimes (name : string) (atime mtime : Time) : AdE (option error)
| TimeNow : AdE Time
| InvalidateNodeAttr (path : string) : AdE (option error)
| Logf (msg : string) (e : error) : AdE unit.

(** The store an adapter builds from the options of its VFS. *)
Definition storeOf (opt : vfscommon.Options) : PosixMetaStore :=
  {| Ext := vfscommon.PosixMetadataExtension opt |}.

Definition when {E : Type -> Type} (b : bool) (p : Prog E unit) : Prog E unit :=
  if b then p else mret tt.

(** [if e != nil { log(msg, e) }] *)
Definition logIfError (msg : string) (e : option error) : Prog AdE unit :=
  match e with
  | Some e => call (Logf msg e)
  | None => mret tt
  end.

Definition setMode (m : PosixMeta) (v : string) : PosixMeta :=
  {| Mode := Some v; UID := UID m; GID := GID m;
     Mtime := Mtime m; Atime := Atime m; Btime := Btime m |}.
Definition setUID (m : PosixMeta) (v : string) : PosixMeta :=
  {| Mode := Mode m; UID := Some v; GID := GID m;
     Mtime := Mtime m; Atime := Atime m; Btime := Btime m |}.
Definition setGID (m : PosixMeta) (v : string) : PosixMeta :=
  {| Mode := Mode m; UID := UID m; GID := Some v;
     Mtime := Mtime m; Atime := Atime m; Btime := Btime m |}.
Definition setMtime (m : PosixMeta) (v : string) : PosixMeta :=
  {| Mode := Mode m; UID := UID m; GID := GID m;
     Mtime := Some v; Atime := Atime m; Btime := Btime m |}.
Definition setAtime (m : PosixMeta) (v : string) : PosixMeta :=
  {| Mode := Mode m; UID := UID m; GID := GID m;
     Mtime := Mtime m; Atime := Some v; Btime := Btime m |}.

(** The arguments of a call that is a [Save]: store, path and record. *)
Definition savedBy {X} (e : AdE X) : option (PosixMetaStore * string * PosixMeta) :=
  match e with
  | StoreSave s p m => Some (s, p, m)
  | _ => None
  end.

(** Readings of a program, whatever the VFS answers. [Quiet Q p]: [p] never
    calls [Save] and returns only values that satisfy [Q]. [Saves P n p]:
    [p] calls [Save] exactly [n] times, each time with arguments that satisfy
    [P]. *)
Inductive Quiet {A} (Q : A -> Prop) : Prog AdE A -> Prop :=
| Quiet_ret (a : A) : Q a -> Quiet Q (Ret a)
| Quiet_vis (X : Type) (e : AdE X) (k : X -> Prog AdE A) :
    savedBy e = None -> (forall x, Quiet Q (k x)) -> Quiet Q (Vis e k).

Inductive Saves {A} (P : PosixMetaStore * string * PosixMeta -> Prop)
  : nat -> Prog AdE A -> Prop :=
| Saves_ret (a : A) : Saves P 0 (Ret a)
| Saves_vis (X : Type) (e : AdE X) (k : X -> Prog AdE A) (n : nat) :
    savedBy e = None -> (forall x, Saves P n (k x)) -> Saves P n (Vis e k)
| Saves_save s path m (k : option error -> Prog AdE A) (n : nat) :
    P (s, path, m) -> (forall x, Saves P n (k x)) ->
    Saves P (S n) (Vis (StoreSave s path m) k).

(** Readings of the log of an adapter's run, on any state type. *)
Section Logs.
Context {St : Type}.

(** The [Save] calls of a run, in order. *)
Definition saveOf (en : entry AdE St) : option (PosixMetaStore * string * PosixMeta) :=
  match en with
  | Entry e _ _ => savedBy e
  end.

Definition saves (log : list (entry AdE St)) : list (PosixMetaStore * string * PosixMeta) :=
  omap saveOf log.

(** The entry is not a [Load] that returned a record: every [Load] of a log
    of such entries returned an error. *)
Definition notLoaded (en : entry AdE St) : bool :=
  match en with
  | Entry e x _ =>
      match e in AdE X return X -> bool with
      | StoreLoad _ _ => fun r => negb (isNil r.2)
      | _ => fun _ => true
      end x
  end.

Definition loadsFailed (log : list (entry AdE St)) : bool := forallb notLoaded log.

(** The entry is a live operation on the object that returned an error
    ([ENOSYS] from [Chmod] is the one error its caller takes as success). *)
Definition liveFailure (en : entry AdE St) : bool :=
  match en with
  | Entry e x _ =>
      match e in AdE X return X -> bool with
      | LiveTruncate _ _ => fun r => negb (isNil r)
      | LiveSetModTime _ _ => fun r => negb (isNil r)
      | LiveOpen _ => fun r => negb (isNil r.2)
      | LiveChmod _ _ => fun r => if decide (r = Some ENOSYS) then false else negb (isNil r)
      | LiveChown _ _ _ => fun r => negb (isNil r)
      | LiveChtimes _ _ _ => fun r => negb (isNil r)
      | _ => fun _ => false
      end x
  end.

Definition liveFailed (log : list (entry AdE St)) : bool := existsb liveFailure log.

End Logs.

End overlay.

(** *** Package [mount] ([cmd/mount/file.go]) *)

Module mount.
Import vfs overlay.

(** A [mount.File]: the live [vfs.File] as its getters show it ([Path],
    [ModTime], [Size], [Mode]), the options of its VFS and the attribute
    timeout of the mount. *)
Record File : Type := {
  Path : string;
  ModTime : Time;
  Size : Z;
  FileMode : Z;
  Opt : vfscommon.Options;
  AttrTimeout : Z
}.

(** The fields of [fuse.Attr] that [Attr] fills. *)
Record FuseAttr : Type := {
  Valid : Z;
  aSize : Z;
  aBlocks : Z;
  aAtime : Time;
  aMtime : Time;
  aCtime : Time;
  aMode : Z;
  aUid : Z;
  aGid : Z
}.

(** [os.ModeAppend] *)
Definition ModeAppend : Z := 2 ^ 30.

(** The overlay of a loaded record on the attributes, as [Attr] does it
    field by field. *)
Definition overlayAttr `{GoLib} (a : FuseAttr) (m : PosixMeta) : FuseAttr :=
  let mode := if Mode m is Some v then ParsePosixMode v else aMode a in
  let uid :=
    match UID m with
    | Some s => if strconv.ParseUint s 10 32 is Some v then uint32 v else aUid a
    | None => aUid a
    end in
  let gid :=
    match GID m with
    | Some s => if strconv.ParseUint s 10 32 is Some v then uint32 v else aGid a
    | None => aGid a
    end in
  let atime :=
    match Atime m with
    | Some s => let t := ParsePosixTime s in if negb (IsZero t) then t else aAtime a
    | None => aAtime a
    end in
  let mtime :=
    match Mtime m with
    | Some s => let t := ParsePosixTime s in if negb (IsZero t) then t else aMtime a
    | None => aMtime a
    end in
  (* Do not set Ctime from Btime; leave Ctime as-is *)
  {| Valid := Valid a; aSize := aSize a; aBlocks := aBlocks a;
     aAtime := atime; aMtime := mtime; aCtime := aCtime a;
     aMode := mode; aUid := uid; aGid := gid |}.

Section Mount.
Context `{GoLib}.
(** [translateError] of package [mount], which maps an error to the one
    FUSE is answered with. *)
Variable translateError : option error -> option error.

(** [Attr] fills out the attributes for the file: the attributes it leaves
    in [a], and its error. *)
Definition Attr (f : File) : Prog AdE (FuseAttr * option error) :=
  let modTime := ModTime f in
  let size := uint64 (Size f) in
  let blocks := uint64 (size + 511) / 512 in
  let a := {| Valid := AttrTimeout f;
              aSize := size;
              aBlocks := 0;
              aAtime := modTime; aMtime := modTime; aCtime := modTime;
              aMode := Z.ldiff (FileMode f) ModeAppend;
              aUid := vfscommon.UID (Opt f);
              aGid := vfscommon.GID (Opt f) |} in
  a ← (if vfscommon.PersistMetadata (Opt f) then
         let store := storeOf (Opt f) in
         if negb (IsSidecarPath store (Path f)) then
           '(m, err2) ← call (StoreLoad store (Path f));
           if isNil err2 then mret (overlayAttr a m) else mret a
         else mret a
       else mret a);
  mret ({| Valid := Valid a; aSize := aSize a; aBlocks := blocks;
           aAtime := aAtime a; aMtime := aMtime a; aCtime := aCtime a;
           aMode := aMode a; aUid := aUid a; aGid := aGid a |}, None).

(** [fuse.SetattrRequest]: which fields are valid, and their values. *)
Record SetattrRequest : Type := {
  validSize : bool;
  validMtime : bool;
  validMtimeNow : bool;
  validAtime : bool;
  validAtimeNow : bool;
  validMode : bool;
  validUid : bool;
  validGid : bool;
  reqSize : Z;
  reqMtime : Time;
  reqAtime : Time;
  reqMode : Z;
  reqUid : Z;
  reqGid : Z
}.

(** [if e := ...; err == nil { err = e }] *)
Definition firstError (err e : option error) : option error :=
  if isNil err then e else err.

(** [Setattr] handles attribute changes from FUSE. *)
Definition Setattr (f : File) (req : SetattrRequest) : Prog AdE (option error) :=
  let err : option error := None in
  err ← (if validSize req then
           e ← call (LiveTruncate (Path f) (int64 (reqSize req))); mret (firstError err e)
         else mret err);
  err ← (if negb (vfscommon.NoModTime (Opt f)) then
           if validMtime req then
             e ← call (LiveSetModTime (Path f) (reqMtime req)); mret (firstError err e)
           else if validMtimeNow req then
             now ← call TimeNow;
             e ← call (LiveSetModTime (Path f) now); mret (firstError err e)
           else mret err
         else mret err);
  _ ← when (vfscommon.PersistMetadata (Opt f)) (
        let store := storeOf (Opt f) in
        when (negb (IsSidecarPath store (Path f))) (
          let m := emptyMeta in
          let m := if validMode req
                   then setMode m (FormatPosixMode (reqMode req) false) else m in
          let m := if validUid req
                   then setUID m (strconv.FormatUint (uint64 (reqUid req)) 10) else m in
          let m := if validGid req
                   then setGID m (strconv.FormatUint (uint64 (reqGid req)) 10) else m in
          m ← (if validAtime req then
                 mret (setAtime m (timeFormatRFC3339 (reqAtime req)))
               else if validAtimeNow req then
                 now ← call TimeNow; mret (setAtime m (timeFormatRFC3339 now))
               else mret m);
          m ← (if validMtime req then
                 mret (setMtime m (timeFormatRFC3339 (reqMtime req)))
               else if validMtimeNow req then
                 now ← call TimeNow; mret (setMtime m (timeFormatRFC3339 now))
               else mret m);
          when (PosixAnyFieldSet m) (
            err2 ← call (StoreSave store (Path f) m);
            _ ← logIfError "persist metadata failed" err2;
            _ ← call (InvalidateNodeAttr (Path f));
            mret tt)));
  mret (translateError err).

End Mount.

End mount.

(** *** Package [nfs] ([cmd/serve/nfs/filesystem.go]) *)

Module nfs.
Import vfs overlay.

(** [FS], the wrapper around the VFS: the options of that VFS. *)
Record FS : Type := { Opt : vfscommon.Options }.

(** An [os.FileInfo] that [Stat] returns: the node itself, or an
    [overlayFileInfo] around it. *)
Inductive Info : Type :=
| Plain (fi : FileInfo)
| Overlaid (fi : FileInfo) (modeOverride : option Z) (mtimeOverride : option Time).

(** [Mode()] and [ModTime()] of the result, as [overlayFileInfo] answers. *)
Definition infoMode (i : Info) : Z :=
  match i with
  | Plain fi => nodeMode fi
  | Overlaid fi (Some mode) _ => mode
  | Overlaid fi None _ => nodeMode fi
  end.

Definition infoModTime (i : Info) : Time :=
  match i with
  | Plain fi => nodeModTime fi
  | Overlaid fi _ (Some t) => t
  | Overlaid fi _ None => nodeModTime fi
  end.

Definition infoSys (i : Info) : option SysInfo :=
  match i with
  | Plain fi => nodeSys fi
  | Overlaid fi _ _ => nodeSys fi
  end.

Definition SetSys (fi : FileInfo) (stat : SysInfo) : FileInfo :=
  {| nodePath := nodePath fi; nodeSize := nodeSize fi; nodeMode := nodeMode fi;
     nodeModTime := nodeModTime fi; nodeInode := nodeInode fi;
     nodeOpt := nodeOpt fi; nodeSys := Some stat |}.

Section Nfs.
Context `{GoLib}.

(** [setSys] sets the [Sys()] call up for the node passed in: the node with
    what [SetSys] stored. (Every [os.FileInfo] that reaches it comes from the
    VFS and is a [vfs.Node].) *)
Definition setSys (fi : FileInfo) : Prog AdE FileInfo :=
  let vv := nodeOpt fi in
  let stat := {| Nlink := 1; sysUID := vfscommon.UID vv;
                 sysGID := vfscommon.GID vv; Fileid := nodeInode fi |} in
  stat ← (if vfscommon.PersistMetadata vv then
            let store := storeOf vv in
            if negb (IsSidecarPath store (nodePath fi)) then
              '(m, err) ← call (StoreLoad store (nodePath fi));
              if isNil err then
                let stat :=
                  match UID m with
                  | Some s =>
                      if strconv.ParseUint s 10 32 is Some v
                      then {| Nlink := Nlink stat; sysUID := uint32 v;
                              sysGID := sysGID stat; Fileid := Fileid stat |}
                      else stat
                  | None => stat
                  end in
                let stat :=
                  match GID m with
                  | Some s =>
                      if strconv.ParseUint s 10 32 is Some v
                      then {| Nlink := Nlink stat; sysUID := sysUID stat;
                              sysGID := uint32 v; Fileid := Fileid stat |}
                      else stat
                  | None => stat
                  end in
                mret stat
              else mret stat
            else mret stat
          else mret stat);
  mret (SetSys fi stat).

Definition withOverlayFileInfo (fi : FileInfo) (m : PosixMeta) : Info :=
  let om := if Mode m is Some v then Some (ParsePosixMode v) else None in
  let mt :=
    match Mtime m with
    | Some s => let t := ParsePosixTime s in if negb (IsZero t) then Some t else None
    | None => None
    end in
  match om, mt with
  | None, None => Plain fi
  | _, _ => Overlaid fi om mt
  end.

(** [Stat] gets the file stat. *)
Definition Stat (f : FS) (filename : string) : Prog AdE (option Info * option error) :=
  r ← call (LiveStat filename);
  match r with
  | inr err => mret (None, Some err)
  | inl fi =>
      fi ← setSys fi;
      (* Overlay POSIX metadata on mode and times if available *)
      if vfscommon.PersistMetadata (Opt f) then
        let store := storeOf (Opt f) in
        if negb (IsSidecarPath store filename) then
          '(m, err2) ← call (StoreLoad store filename);
          if isNil err2 then mret (Some (withOverlayFileInfo fi m), None)
          else mret (Some (Plain fi), None)
        else mret (Some (Plain fi), None)
      else mret (Some (Plain fi), None)
  end.

(** [Chmod] changes the file modes. The deferred [Close] runs last. *)
Definition Chmod (f : FS) (name : string) (mode : Z) : Prog AdE (option error) :=
  '(file, err) ← call (LiveOpen name);
  if negb (isNil err) then mret err
  else
    err ← call (LiveChmod file mode);
    (* Mask Chmod not implemented *)
    let err := if decide (err = Some ENOSYS) then None else err in
    _ ← when (isNil err && vfscommon.PersistMetadata (Opt f)) (
          let store := storeOf (Opt f) in
          when (negb (IsSidecarPath store name)) (
            let v := FormatPosixMode mode false in
            let m := setMode emptyMeta v in
            _ ← call (StoreSave store name m); mret tt));
    cerr ← call (LiveClose file);
    _ ← logIfError "Error while closing file" cerr;
    mret err.

(** [Chown] changes owner of the file. *)
Definition Chown (f : FS) (name : string) (uid gid : Z) : Prog AdE (option error) :=
  '(file, err) ← call (LiveOpen name);
  if negb (isNil err) then mret err
  else
    err ← call (LiveChown file uid gid);
    _ ← when (isNil err && vfscommon.PersistMetadata (Opt f)) (
          let store := storeOf (Opt f) in
          when (negb (IsSidecarPath store name)) (
            let u := strconv.FormatUint (uint64 uid) 10 in
            let g := strconv.FormatUint (uint64 gid) 10 in
            let m := setGID (setUID emptyMeta u) g in
            _ ← call (StoreSave store name m); mret tt));
    cerr ← call (LiveClose file);
    _ ← logIfError "Error while closing file" cerr;
    mret err.

(** [Chtimes] changes the access time and modified time. *)
Definition Chtimes (f : FS) (name : string) (atime mtime : Time)
  : Prog AdE (option error) :=
  err ← call (LiveChtimes name atime mtime);
  _ ← when (isNil err && vfscommon.PersistMetadata (Opt f)) (
        let store := storeOf (Opt f) in
        when (negb (IsSidecarPath store name)) (
          let a := timeFormatRFC3339 atime in
          let m := timeFormatRFC3339 mtime in
          let meta := setMtime (setAtime emptyMeta a) m in
          _ ← call (StoreSave store name meta); mret tt));
  mret err.

End Nfs.

End nfs.

(** *** The adapters on the VFS model *)

Module overlaymodel.
Import vfs overlay.

(** Modelled from the spec: the live side of the VFS (its [Stat], [Open],
    [Chtimes], the files' [Truncate], [SetModTime], [Chmod], [Chown] and
    [Close]) is not among the sources either. The state adds a clock and the
    options of the VFS to the files of [vfsmodel]. The store methods run the
    programs of package [vfs] on those files. A live operation takes the
    next entry of the plan of failures like every primitive; of its effects
    only the truncation of the content is kept, every node reporting the mode
    0644 and the time of the clock. A handle carries out [Chmod] and [Chown]
    unless the plan fails them: a VFS whose handles do not implement them is
    one whose plan answers [ENOSYS] there. *)
Record state : Type := {
  disk : vfsmodel.state;
  clock : Time;
  options : vfscommon.Options
}.

Definition setDisk (st : state) (d : vfsmodel.state) : state :=
  {| disk := d; clock := clock st; options := options st |}.

Definition failure (f : option vfsmodel.fault) : option error :=
  match f with
  | Some ft => Some (vfsmodel.ferr ft)
  | None => None
  end.

Definition nodeOf (st : state) (name : string) (b : bytes) : FileInfo :=
  {| nodePath := name; nodeSize := Z.of_nat (length b); nodeMode := 420;
     nodeModTime := clock st; nodeInode := 1; nodeOpt := options st;
     nodeSys := None |}.

Definition run `{GoLib} : handler AdE state := fun X e st =>
  match e in AdE X return X * state with
  | StoreLoad s p =>
      let '(r, d, _) := exec vfsmodel.run (Load s p) (disk st) in (r, setDisk st d)
  | StoreSave s p m =>
      let '(r, d, _) := exec vfsmodel.run (Save s p m) (disk st) in (r, setDisk st d)
  | LiveTruncate p size =>
      let '(f, d) := vfsmodel.next (disk st) in
      match f, vfsmodel.files d !! p with
      | Some ft, _ => (Some (vfsmodel.ferr ft), setDisk st d)
      | None, None => (Some ENOENT, setDisk st d)
      | None, Some b =>
          let n := Z.to_nat size in
          (None, setDisk st (vfsmodel.setFiles d
             (<[p := (take n b ++ replicate (n - length b) Byte.x00)%list]>
                (vfsmodel.files d))))
      end
  | LiveStat name =>
      let '(f, d) := vfsmodel.next (disk st) in
      match f, vfsmodel.files d !! name with
      | Some ft, _ => (inr (vfsmodel.ferr ft), setDisk st d)
      | None, None => (inr ENOENT, setDisk st d)
      | None, Some b => (inl (nodeOf st name b), setDisk st d)
      end
  | LiveOpen name =>
      let '(f, d) := vfsmodel.next (disk st) in
      match f, vfsmodel.files d !! name with
      | Some ft, _ => ((vfsmodel.nilHandle, Some (vfsmodel.ferr ft)), setDisk st d)
      | None, None => ((vfsmodel.nilHandle, Some ENOENT), setDisk st d)
      | None, Some _ => (({| hname := name |}, None), setDisk st d)
      end
  | LiveSetModTime _ _ | LiveChmod _ _ | LiveChown _ _ _ | LiveClose _
  | LiveChtimes _ _ _ | InvalidateNodeAttr _ =>
      let '(f, d) := vfsmodel.next (disk st) in (failure f, setDisk st d)
  | TimeNow => (clock st, st)
  | Logf _ _ => (tt, st)
  end.

End overlaymodel.

(** ** Sample data for the examples *)

Module sample.
Import vfs.

(** The specialized store with its default suffix, and the generic store
    with the same one. *)
Definition store : PosixMetaStore := {| Ext := ".posixmeta" |}.

Definition mode100644 : PosixMeta :=
  {| Mode := Some "100644"; UID := None; GID := None;
     Mtime := None; Atime := None; Btime := None |}.

Definition uid1000 : PosixMeta :=
  {| Mode := None; UID := Some "1000"; GID := None;
     Mtime := None; Atime := None; Btime := None |}.

Definition mode100644_uid1000 : PosixMeta :=
  {| Mode := Some "100644"; UID := Some "1000"; GID := None;
     Mtime := None; Atime := None; Btime := None |}.

(** A VFS that holds "file" and its sidecar with the mode 100644. *)
Definition tracked : gmap string bytes :=
  {[ "file" := bytes_of_string "data";
     "file.posixmeta" := bytes_of_string (golib.json "{'mode':'100644'}") ]}.

(** The same, the sidecar holding text that is not JSON. *)
Definition corrupt : gmap string bytes :=
  {[ "file" := bytes_of_string "data";
     "file.posixmeta" := bytes_of_string "not json" ]}.

(** A VFS that holds "file" alone. *)
Definition untracked : gmap string bytes :=
  {[ "file" := bytes_of_string "data" ]}.

Definition ioError : vfsmodel.fault := {| vfsmodel.ferr := IOError 5; vfsmodel.fdone := 0 |}.

Definition options : vfscommon.Options :=
  {| vfscommon.UID := 1000; vfscommon.GID := 1000;
     vfscommon.PersistMetadata := true;
     vfscommon.PosixMetadataExtension := ".posixmeta";
     vfscommon.NoModTime := false |}.

Definition world (fs : gmap string bytes) (plan : list (option vfsmodel.fault))
  : overlaymodel.state :=
  {| overlaymodel.disk := {| vfsmodel.files := fs; vfsmodel.plan := plan |};
     overlaymodel.clock := 1709294400;
     overlaymodel.options := options |}.

Definition file : mount.File :=
  {| mount.Path := "file"; mount.ModTime := 1700000000; mount.Size := 4;
     mount.FileMode := 420; mount.Opt := options; mount.AttrTimeout := 1 |}.

(** A request that sets the modification time and nothing else. *)
Definition setMtime : mount.SetattrRequest :=
  {| mount.validSize := false; mount.validMtime := true;
     mount.validMtimeNow := false; mount.validAtime := false;
     mount.validAtimeNow := false; mount.validMode := false;
     mount.validUid := false; mount.validGid := false;
     mount.reqSize := 0; mount.reqMtime := 1709294400; mount.reqAtime := 0;
     mount.reqMode := 0; mount.reqUid := 0; mount.reqGid := 0 |}.

End sample.

(** ** The rest of the sidecar code

    What the files hold beside the functions above: the operations of the
    generic store, and the methods of the network share that work on names
    ([ReadDir], [Rename], [Remove], [MkdirAll], [Lstat], [Lchown]). *)

(** [strings.Split] and [strings.Join]. The share splits and joins paths at
    "/"; [Split] is written for a separator of one byte. *)
Module gostrings.

(** [strings.Split(s, sep)]: the pieces of [s] between the separators, of
    which there is always at least one. *)
Fixpoint Split (s : string) (sep : ascii) : list string :=
  match s with
  | EmptyString => [""]
  | String c rest =>
      if Ascii.eqb c sep then "" :: Split rest sep
      else
        match Split rest sep with
        | piece :: pieces => String c piece :: pieces
        | [] => [String c ""]
        end
  end.

(** [strings.Join(elems, sep)] *)
Definition Join (elems : list string) (sep : string) : string :=
  String.concat sep elems.

End gostrings.

(** *** The generic store ([metadata_sidecar.go]) *)

Module sidecar.
Import vfs.

(** The methods of [*VFS] that the generic store calls: those of [VfsE], and
    [WriteFile]. *)
Inductive SideE : Type -> Type :=
| Prim {X : Type} (e : VfsE X) : SideE X
| VfsWriteFile (name : string) (data : bytes) (perm : Z) : SideE (option error).

Section Generic.
(** [vfsmeta.Meta], the record type of the generic store, is not among the
    sources; the store only passes it to [json.Marshal] and [json.Unmarshal]
    and returns its zero value [vfsmeta.Meta{}] with every error. *)
Variable Meta : Type.
Variable zero : Meta.
Variable jsonMarshal : Meta -> bytes * option error.
Variable jsonUnmarshal : bytes -> Meta * option error.

Definition Load (s : sidecarStore) (p : string) (isDir : bool)
  : Prog SideE (Meta * option error) :=
  '(b, err) ← call (Prim (VfsReadFile (name s p)));
  if negb (isNil err) then mret (zero, err)
  else
    let '(m, err) := jsonUnmarshal b in
    if negb (isNil err) then mret (zero, err)
    else mret (m, None).

(** 384 is the permission 0600. *)
Definition Save (s : sidecarStore) (p : string) (isDir : bool) (m : Meta)
  : Prog SideE (option error) :=
  let '(b, err) := jsonMarshal m in
  if negb (isNil err) then mret err
  else call (VfsWriteFile (name s p) b 384).

Definition Rename (s : sidecarStore) (oldPath newPath : string) (isDir : bool)
  : Prog SideE (option error) :=
  call (Prim (VfsRename (name s oldPath) (name s newPath))).

Definition Delete (s : sidecarStore) (p : string) (isDir : bool)
  : Prog SideE (option error) :=
  call (Prim (VfsRemove (name s p))).

End Generic.

(** Modelled from the spec: [WriteFile] of the VFS is not among the sources;
    the spec has the generic [Save] write the sidecar file "replacing its
    entire prior content". On the files of [vfsmodel] a write that succeeds
    leaves exactly the data under the name; one that is failed by the plan
    returns the error and leaves the bytes that were written before it
    failed. The other primitives are those of [vfsmodel]. *)
Definition run : handler SideE vfsmodel.state := fun X e st0 =>
  match e in SideE X return X * vfsmodel.state with
  | Prim e => vfsmodel.run _ e st0
  | VfsWriteFile name data _ =>
      let '(f, st) := vfsmodel.next st0 in
      match f with
      | Some ft =>
          (Some (vfsmodel.ferr ft),
           vfsmodel.setFiles st
             (<[name := take (vfsmodel.fdone ft) data]> (vfsmodel.files st)))
      | None => (None, vfsmodel.setFiles st (<[name := data]> (vfsmodel.files st)))
      end
  end.

End sidecar.

(** *** Package [nfs]: the operations on names *)

Module nfsops.
Import vfs overlay.

(** What these methods call beside the calls of [AdE]: [Rename] and [Delete]
    of the store they build, and [Rename], [Remove], [ReadDir] and [Mkdir] of
    the VFS. *)
Inductive FsE : Type -> Type :=
| Ad {X : Type} (e : AdE X) : FsE X
| StoreRename (s : PosixMetaStore) (oldPath newPath : string) : FsE (option error)
| StoreDelete (s : PosixMetaStore) (path : string) : FsE (option error)
| LiveRename (oldpath newpath : string) : FsE (option error)
| LiveRemove (filename : string) : FsE (option error)
| LiveReadDir (path : string) : FsE (list FileInfo * option error)
| LiveMkdir (name : string) (perm : Z) : FsE (option error).

(** A program over [AdE], as a part of a program over [FsE]. *)
Fixpoint lift {A} (p : Prog AdE A) : Prog FsE A :=
  match p with
  | Ret a => Ret a
  | Vis e k => Vis (Ad e) (fun x => lift (k x))
  end.

(** The answers of a VFS to the calls of [AdE] alone. *)
Definition below {St} (h : handler FsE St) : handler AdE St :=
  fun X e st => h X (Ad e) st.

Definition liftEntry {St} (en : entry AdE St) : entry FsE St :=
  match en with Entry e x st => Entry (Ad e) x st end.

Section Ops.
Context `{GoLib}.

(** [for _, fi := range dir { setSys(fi) }] *)
Fixpoint setSysAll (dir : list FileInfo) : Prog AdE (list FileInfo) :=
  match dir with
  | [] => mret []
  | fi :: rest =>
      fi ← nfs.setSys fi;
      rest ← setSysAll rest;
      mret (fi :: rest)
  end.

(** [ReadDir] implements read dir. *)
Definition ReadDir (f : nfs.FS) (path : string)
  : Prog FsE (list FileInfo * option error) :=
  '(dir, err) ← call (LiveReadDir path);
  if negb (isNil err) then mret ([], err)
  else
    dir ← lift (setSysAll dir);
    mret (dir, None).

(** [Rename] renames a file. *)
Definition Rename (f : nfs.FS) (oldpath newpath : string) : Prog FsE (option error) :=
  err ← call (LiveRename oldpath newpath);
  _ ← when (isNil err && vfscommon.PersistMetadata (nfs.Opt f)) (
        let store := storeOf (nfs.Opt f) in
        when (negb (IsSidecarPath store oldpath || IsSidecarPath store newpath)) (
          _ ← call (StoreRename store oldpath newpath); mret tt));
  mret err.

(** [Remove] deletes a file. *)
Definition Remove (f : nfs.FS) (filename : string) : Prog FsE (option error) :=
  err ← call (LiveRemove filename);
  _ ← when (isNil err && vfscommon.PersistMetadata (nfs.Opt f)) (
        let store := storeOf (nfs.Opt f) in
        when (negb (IsSidecarPath store filename)) (
          _ ← call (StoreDelete store filename); mret tt));
  mret err.

(** The body of the loop of [MkdirAll], for the indices that are left. *)
Fixpoint mkdirEach (f : nfs.FS) (parts : list string) (perm : Z) (indices : list nat)
  : Prog FsE (option error) :=
  match indices with
  | [] => mret None
  | i :: rest =>
      let current := gostrings.Join (take (i + 1) parts) "/" in
      '(_, err) ← lift (nfs.Stat f current);
      if decide (err = Some ENOENT) then
        err ← call (LiveMkdir current perm);
        if negb (isNil err) then mret err
        else mkdirEach f parts perm rest
      else mkdirEach f parts perm rest
  end.

(** [MkdirAll] creates a directory and all the ones above it. *)
Definition MkdirAll (f : nfs.FS) (filename : string) (perm : Z)
  : Prog FsE (option error) :=
  let parts := gostrings.Split filename "/" in
  mkdirEach f parts perm (seq 0 (length parts)).

(** [Lstat] gets the stats for symlink. *)
Definition Lstat (f : nfs.FS) (filename : string)
  : Prog AdE (option FileInfo * option error) :=
  r ← call (LiveStat filename);
  match r with
  | inr err => mret (None, Some err)
  | inl fi =>
      fi ← nfs.setSys fi;
      mret (Some fi, None)
  end.

(** [Lchown] changes the owner of symlink. *)
Definition Lchown (f : nfs.FS) (name : string) (uid gid : Z)
  : Prog AdE (option error) :=
  nfs.Chown f name uid gid.

End Ops.

(** What [setSys] does to a node: it stores a [Sys] with one link and the
    inode of the node, and leaves the rest of the node as it is. *)
Definition sysSet (fi fi' : FileInfo) : Prop :=
  nodePath fi' = nodePath fi /\ nodeSize fi' = nodeSize fi /\
  nodeMode fi' = nodeMode fi /\ nodeModTime fi' = nodeModTime fi /\
  nodeInode fi' = nodeInode fi /\ nodeOpt fi' = nodeOpt fi /\
  exists sys, nodeSys fi' = Some sys /\ Nlink sys = 1 /\ Fileid sys = nodeInode fi.

(** Readings of the log of such a run: the calls to the store's [Rename] and
    [Delete], the paths that were looked up, and the directories that were
    made, each with its outcome. *)
Section Logs.
Context {St : Type}.

Inductive storeCall : Type :=
| RenameCall (s : PosixMetaStore) (oldPath newPath : string)
| DeleteCall (s : PosixMetaStore) (path : string).

Definition storeCallOf (en : entry FsE St) : option storeCall :=
  match en with
  | Entry e _ _ =>
      match e with
      | StoreRename s o n => Some (RenameCall s o n)
      | StoreDelete s p => Some (DeleteCall s p)
      | _ => None
      end
  end.

Definition storeCalls (log : list (entry FsE St)) : list storeCall :=
  omap storeCallOf log.

(** The live stat of a name, and whether it answered [ENOENT]. *)
Definition statOf (en : entry FsE St) : option (string * bool) :=
  match en with
  | Entry e x _ =>
      match e in FsE X return X -> option (string * bool) with
      | Ad e' =>
          match e' in AdE X return X -> option (string * bool) with
          | LiveStat n => fun r =>
              Some (n, match r with
                       | inr err => bool_decide (err = ENOENT)
                       | inl _ => false
                       end)
          | _ => fun _ => None
          end
      | _ => fun _ => None
      end x
  end.

Definition stats (log : list (entry FsE St)) : list (string * bool) :=
  omap statOf log.

Definition mkdirOf (en : entry FsE St) : option (string * Z * option error) :=
  match en with
  | Entry e x _ =>
      match e in FsE X return X -> option (string * Z * option error) with
      | LiveMkdir n perm => fun r => Some (n, perm, r)
      | _ => fun _ => None
      end x
  end.

Definition mkdirs (log : list (entry FsE St)) : list (string * Z * option error) :=
  omap mkdirOf log.

End Logs.

End nfsops.

(** *** The steps of [Save] in the log of a run *)

Module savelog.
Import vfs.

(** The steps of [Save] after the merge, in the order in which [Save] takes
    them: it creates the temporary file, encodes the merged record, writes
    the encoding, closes the file and renames it onto the sidecar path. *)
Inductive stage : Type := Creating | Encoding | Writing | Closing | Renaming.

#[global] Instance stage_eq_dec : EqDecision stage.
Proof. solve_decision. Defined.

Section Logs.
Context {St : Type}.






End Logs.

End savelog.

(** *** More readings of an adapter's run *)

Module overlaylog.
Import vfs overlay.

(** [Avoids c p]: the program [p] never issues a call that [c] selects. *)
Inductive Avoids {E : Type -> Type} {A : Type} (c : forall X, E X -> bool)
  : Prog E A -> Prop :=
| Avoids_ret (a : A) : Avoids c (Ret a)
| Avoids_vis (X : Type) (e : E X) (k : X -> Prog E A) :
    c X e = false -> (forall x, Avoids c (k x)) -> Avoids c (Vis e k).

(** The calls of a log that [c] selects. *)
Definition selected {E : Type -> Type} {St : Type} (c : forall X, E X -> bool)
    (log : list (entry E St)) : list (entry E St) :=
  List.filter (fun en : entry E St => match en with Entry e _ _ => c _ e end) log.

(** The live mutations of an object: what [Setattr], [Chmod], [Chown] and
    [Chtimes] do to it, and the opening of the file they work on. *)
Definition isLive {X} (e : AdE X) : bool :=
  match e with
  | LiveTruncate _ _ | LiveSetModTime _ _ | LiveOpen _ | LiveChmod _ _
  | LiveChown _ _ _ | LiveChtimes _ _ _ => true
  | _ => false
  end.

Definition isSave {X} (e : AdE X) : bool :=
  match e with StoreSave _ _ _ => true | _ => false end.

Definition isInvalidate {X} (e : AdE X) : bool :=
  match e with InvalidateNodeAttr _ => true | _ => false end.

Definition isLoad {X} (e : AdE X) : bool :=
  match e with StoreLoad _ _ => true | _ => false end.

(** The calls of the persistence block of [Setattr]: the [Save] of the
    store on a path, and the invalidation of the cached attributes of a
    node. *)
Inductive persistCall : Type :=
| SaveCall (s : PosixMetaStore) (path : string)
| InvalidateCall (path : string).

Definition persistCallOf {St} (en : entry AdE St) : option persistCall :=
  match en with
  | Entry e _ _ =>
      match e with
      | StoreSave s p _ => Some (SaveCall s p)
      | InvalidateNodeAttr p => Some (InvalidateCall p)
      | _ => None
      end
  end.

(** The [Save] and invalidation calls of a log, in the order of the run. *)
Definition persistCalls {St} (log : list (entry AdE St)) : list persistCall :=
  omap persistCallOf log.

Section Logs.
Context {St : Type}.

(** The error with which a live mutation failed, [ENOSYS] from [Chmod] not
    being one; [None] for every other entry. *)
Definition failureOf (en : entry AdE St) : option error :=
  match en with
  | Entry e x _ =>
      match e in AdE X return X -> option error with
      | LiveTruncate _ _ => fun r => r
      | LiveSetModTime _ _ => fun r => r
      | LiveOpen _ => fun r => r.2
      | LiveChmod _ _ => fun r => if decide (r = Some ENOSYS) then None else r
      | LiveChown _ _ _ => fun r => r
      | LiveChtimes _ _ _ => fun r => r
      | _ => fun _ => None
      end x
  end.

(** The first failure of a live mutation in a run. *)
Definition firstFailure (log : list (entry AdE St)) : option error :=
  head (omap failureOf log).

End Logs.

End overlaylog.

(** The model of the adapters' VFS without failures: the files [fs], the
    clock at [c], the options [o]. *)
Module steady.

Definition world (fs : gmap string bytes) (c : Time) (o : vfscommon.Options)
  : overlaymodel.state :=
  {| overlaymodel.disk := vfsmodel.healthy fs; overlaymodel.clock := c;
     overlaymodel.options := o |}.

End steady.

(** * Properties *)

(** ** Strings *)

Section StringFacts.

Lemma length_append (a b : string) :
  String.length (a +:+ b) = (String.length a + String.length b)%nat.
Proof. induction a as [|c a IH]; simpl; [reflexivity | now rewrite IH]. Qed.

Lemma substring_all (s : string) : substring 0 (String.length s) s = s.
Proof. induction s as [|c s IH]; simpl; [reflexivity | now rewrite IH]. Qed.

Lemma substring_skip (a b : string) (n : nat) :
  substring (String.length a) n (a +:+ b) = substring 0 n b.
Proof. induction a as [|c a IH]; simpl; [reflexivity | exact IH]. Qed.

Lemma substring_keep (a b : string) :
  substring 0 (String.length a) (a +:+ b) = a.
Proof.
  induction a as [|c a IH]; simpl.
  - destruct b; reflexivity.
  - now rewrite IH.
Qed.

(** A string with a suffix appended ends with that suffix. *)
Lemma HasSuffix_append (p e : string) : strings.HasSuffix (p +:+ e) e = true.
Proof.
  unfold strings.HasSuffix. rewrite length_append.
  replace (String.length p + String.length e - String.length e)%nat
    with (String.length p) by lia.
  rewrite substring_skip, substring_all, String.eqb_refl, andb_true_r.
  apply Nat.leb_le. lia.
Qed.

Lemma TrimSuffix_append (p e : string) : strings.TrimSuffix (p +:+ e) e = p.
Proof.
  unfold strings.TrimSuffix. rewrite HasSuffix_append, length_append.
  replace (String.length p + String.length e - String.length e)%nat
    with (String.length p) by lia.
  apply substring_keep.
Qed.

Lemma append_nonempty_neq (p e : string) : e <> "" -> p +:+ e <> p.
Proof.
  intros He Heq. apply (f_equal String.length) in Heq.
  rewrite length_append in Heq. destruct e; [congruence | simpl in Heq; lia].
Qed.

End StringFacts.

(** ** Runs of programs *)

Section Runs.
Context {E : Type -> Type} {St : Type} (h : handler E St).

Lemma exec_bind {A B} (p : Prog E A) (f : A -> Prog E B) (st : St) :
  exec h (p ≫= f) st =
  let '(a, st1, log1) := exec h p st in
  let '(b, st2, log2) := exec h (f a) st1 in
  (b, st2, (log1 ++ log2)%list).
Proof.
  revert st. induction p as [a | X e k IH]; intros st.
  - simpl. unfold mbind, Prog_bind. simpl. now destruct (exec h (f a) st) as [[b st2] log2].
  - unfold mbind, Prog_bind in *. simpl.
    destruct (h X e st) as [x st1]. rewrite IH.
    destruct (exec h (k x) st1) as [[a st2] log1].
    now destruct (exec h (f a) st2) as [[b st3] log2].
Qed.

Lemma exec_ret {A} (a : A) (st : St) : exec h (mret a) st = (a, st, []).
Proof. reflexivity. Qed.

Lemma exec_call {X} (e : E X) (st : St) :
  exec h (call e) st = (let '(x, st1) := h X e st in (x, st1, [Entry e x st1])).
Proof. unfold call. simpl. now destruct (h X e st). Qed.

End Runs.

(** ** The attribute codec *)

Section Codec.
Import vfs.

(** C9. [FormatPosixMode] renders permission bits 0644 of a regular file as
    "100644" and 0755 of a directory as "40755" (420 and 493 are 0644 and 0755
    in decimal); [ParsePosixMode] of each gives back the same permission bits
    (the low twelve bits) under the file-type nibble of a regular file
    (0x8000) or of a directory (0x4000). *)
Theorem mode_encoding_examples :
  420 = 6 * 8 ^ 2 + 4 * 8 + 4 /\ 493 = 7 * 8 ^ 2 + 5 * 8 + 5 /\
  FormatPosixMode 420 false = "100644" /\
  FormatPosixMode 493 true = "40755" /\
  ParsePosixMode (FormatPosixMode 420 false) = Z.lor 0x8000 420 /\
  ParsePosixMode (FormatPosixMode 493 true) = Z.lor 0x4000 493 /\
  Z.land (ParsePosixMode "100644") 0xFFF = 420 /\
  Z.land (ParsePosixMode "100644") 0xF000 = 0x8000 /\
  Z.land (ParsePosixMode "40755") 0xFFF = 493 /\
  Z.land (ParsePosixMode "40755") 0xF000 = 0x4000.
Proof. repeat split; reflexivity. Qed.

End Codec.

(** ** The naming rule *)

Section Naming.
Import vfs.

Lemma metaPath_configured (s : PosixMetaStore) (p : string) :
  Ext s <> "" -> metaPath s p = p +:+ Ext s.
Proof.
  intros He. unfold metaPath. destruct (String.eqb_spec (Ext s) ""); [contradiction | reflexivity].
Qed.

Lemma metaPath_default (p : string) : metaPath {| Ext := "" |} p = p +:+ ".posixmeta".
Proof. reflexivity. Qed.

(** The sidecar path of a path is a sidecar path, for a suffix that is not
    empty. *)
Lemma IsSidecarPath_metaPath (s : PosixMetaStore) (p : string) :
  Ext s <> "" -> IsSidecarPath s (metaPath s p) = true.
Proof.
  intros He. rewrite metaPath_configured by assumption. unfold IsSidecarPath.
  destruct (String.eqb_spec (Ext s) ""); [contradiction | apply HasSuffix_append].
Qed.

(** The generic store: the path without one trailing separator, then the
    suffix; a directory named with or without its trailing separator has the
    same sidecar. *)
Lemma name_spec (s : sidecarStore) (p : string) :
  name s p = strings.TrimSuffix p "/" +:+ ext s /\
  name s (p +:+ "/") = p +:+ ext s /\
  (strings.HasSuffix p "/" = false -> name s (p +:+ "/") = name s p).
Proof.
  unfold name. rewrite TrimSuffix_append. repeat split.
  intros Hn. unfold strings.TrimSuffix. now rewrite Hn.
Qed.

(** C6, at the path "dir/": the generic store gives "dir.posixmeta" for both
    "dir/" and "dir", while the specialized store appends the suffix to the
    path as it is, so "dir/" gets "dir/.posixmeta", which is neither the path
    without its separator followed by the suffix nor the sidecar of "dir". *)
Theorem metaPath_keeps_trailing_separator :
  name (newSidecarStore ".posixmeta") "dir/" = "dir.posixmeta" /\
  name (newSidecarStore ".posixmeta") "dir" = "dir.posixmeta" /\
  metaPath {| Ext := ".posixmeta" |} "dir/" = "dir/.posixmeta" /\
  metaPath {| Ext := ".posixmeta" |} "dir" = "dir.posixmeta" /\
  metaPath {| Ext := ".posixmeta" |} "dir/" <>
    strings.TrimSuffix "dir/" "/" +:+ ".posixmeta" /\
  metaPath {| Ext := ".posixmeta" |} "dir/" <> metaPath {| Ext := ".posixmeta" |} "dir".
Proof. repeat split; try reflexivity; discriminate. Qed.

End Naming.

(** ** The specialized store *)

Section PosixStore.
Import vfs.
Context `{GoLib}.

Lemma Save_steps (s : PosixMetaStore) (path : string) (m : PosixMeta) :
  IsSidecarPath s path = false ->
  Save s path m = ('(cur, _) ← Load s path; commit s path (merge cur m)).
Proof. intros Hn. unfold Save. rewrite Hn. reflexivity. Qed.

(** Field by field, [merge] takes the incoming field when it is set and keeps
    the current one otherwise. *)
Lemma merge_fields (cur m : PosixMeta) :
  Mode (merge cur m) = (if Mode m is Some _ then Mode m else Mode cur) /\
  UID (merge cur m) = (if UID m is Some _ then UID m else UID cur) /\
  GID (merge cur m) = (if GID m is Some _ then GID m else GID cur) /\
  Mtime (merge cur m) = (if Mtime m is Some _ then Mtime m else Mtime cur) /\
  Atime (merge cur m) = (if Atime m is Some _ then Atime m else Atime cur) /\
  Btime (merge cur m) = (if Btime m is Some _ then Btime m else Btime cur).
Proof.
  destruct m as [[?|] [?|] [?|] [?|] [?|] [?|]], cur; repeat split; reflexivity.
Qed.

Lemma merge_empty (m : PosixMeta) : merge emptyMeta m = m.
Proof. destruct m as [[?|] [?|] [?|] [?|] [?|] [?|]]; reflexivity. Qed.

(** C2. With a suffix that is not empty, the sidecar path of any path is a
    sidecar path, and on a sidecar path every operation returns at once,
    without a single call to the VFS: [Load] answers
    [fs.ErrorObjectNotFound], [Save], [Delete] and [Rename] (whichever of its
    two paths is the sidecar path) answer [nil]; run on any VFS whatsoever
    they leave its state as it was and issue no call. *)
Theorem sidecar_path_is_never_tracked (s : PosixMetaStore) :
  Ext s <> "" ->
  (forall P, IsSidecarPath s (metaPath s P) = true) /\
  (forall p m q, IsSidecarPath s p = true ->
     Load s p = Ret (emptyMeta, Some ErrorObjectNotFound) /\
     Save s p m = Ret None /\
     Delete s p = Ret None /\
     Rename s p q = Ret None /\
     Rename s q p = Ret None /\
     forall St (h : handler VfsE St) (st : St),
       exec h (Load s p) st = ((emptyMeta, Some ErrorObjectNotFound), st, []) /\
       exec h (Save s p m) st = (None, st, []) /\
       exec h (Delete s p) st = (None, st, []) /\
       exec h (Rename s p q) st = (None, st, [])).
Proof.
  intros He. split; [intros P; now apply IsSidecarPath_metaPath |].
  intros p m q Hp.
  assert (HL : Load s p = Ret (emptyMeta, Some ErrorObjectNotFound))
    by (unfold Load; now rewrite Hp).
  assert (HS : Save s p m = Ret None) by (unfold Save; now rewrite Hp).
  assert (HD : Delete s p = Ret None) by (unfold Delete; now rewrite Hp).
  assert (HR : Rename s p q = Ret None) by (unfold Rename; now rewrite Hp).
  assert (HR' : Rename s q p = Ret None)
    by (unfold Rename; rewrite Hp, orb_true_r; reflexivity).
  repeat split; try assumption; intros; rewrite ?HL, ?HS, ?HD, ?HR; reflexivity.
Qed.

End PosixStore.

Lemma sidecar_path_is_never_tracked_witness :
  let s := {| vfs.Ext := ".posixmeta" |} in
  vfs.Ext s <> "" /\
  vfs.IsSidecarPath s (vfs.metaPath s "dir/file") = true /\
  vfs.Load s "dir/file.posixmeta" = Ret (vfs.emptyMeta, Some ErrorObjectNotFound) /\
  vfs.Save s "dir/file.posixmeta" vfs.emptyMeta = Ret None.
Proof.
  assert (He : vfs.Ext {| vfs.Ext := ".posixmeta" |} <> "") by discriminate.
  pose proof (sidecar_path_is_never_tracked (H := golib.lib) _ He) as [H1 H2].
  split; [exact He |]. split; [exact (H1 "dir/file") |].
  destruct (H2 "dir/file.posixmeta" vfs.emptyMeta "x" eq_refl) as (HL & HS & _).
  split; [exact HL | exact HS].
Defined.

(** ** The specialized store on the VFS model *)

Section PosixStoreOnModel.
Import vfs vfsmodel.
Context `{GoLib}.

(** [Load] on a VFS without injected failures: one read of the sidecar, whose
    outcome decides the result; the state is not changed. *)
Lemma Load_healthy (s : PosixMetaStore) (path : string) (fs : gmap string bytes) :
  IsSidecarPath s path = false ->
  exec run (Load s path) (healthy fs) =
  (match fs !! metaPath s path with
   | None => (emptyMeta, Some ENOENT)
   | Some b =>
       if (length b =? 0)%nat then (emptyMeta, Some ErrorObjectNotFound)
       else let '(m, err) := jsonUnmarshal b in
            if negb (isNil err) then (emptyMeta, err) else (m, None)
   end, healthy fs,
   [Entry (VfsReadFile (metaPath s path))
      (match fs !! metaPath s path with
       | Some b => (b, None)
       | None => ([], Some ENOENT)
       end)
      (healthy fs)]).
Proof.
  intros Hn. unfold Load. rewrite Hn. cbn.
  destruct (fs !! metaPath s path) as [b|]; cbn; [| reflexivity].
  destruct (length b =? 0)%nat; cbn; [reflexivity |].
  destruct (jsonUnmarshal b) as [m [e|]]; reflexivity.
Qed.

(** Whatever [Load] returns with an error, the record it returns is empty. *)
Lemma Load_error_empty {St} (h : handler VfsE St) (s : PosixMetaStore)
    (path : string) (st : St) :
  let r := (exec h (Load s path) st).1.1 in
  r.2 <> None -> r.1 = emptyMeta.
Proof.
  unfold Load. destruct (IsSidecarPath s path); [reflexivity |].
  cbn. destruct (h _ (VfsReadFile (metaPath s path)) st) as [[b [e|]] st1]; cbn;
    [reflexivity |].
  destruct (length b =? 0)%nat; cbn; [reflexivity |].
  destruct (jsonUnmarshal b) as [m [e|]]; cbn; [reflexivity | congruence].
Qed.

(** C7. On a path that is not a sidecar path, [Load] from a VFS whose sidecar
    file is missing returns the "no such file" error of the read, and from one
    whose sidecar file holds zero bytes returns [fs.ErrorObjectNotFound]: both
    are NotFound outcomes, with an empty record. A payload that is not empty
    and does not decode returns the decoder's error. A record is returned
    without error only from a payload that is not empty and decodes to it. *)
Theorem Load_empty_payload_is_not_found (s : PosixMetaStore) (path : string)
    (fs : gmap string bytes) :
  IsSidecarPath s path = false ->
  let r := (exec run (Load s path) (healthy fs)).1.1 in
  (fs !! metaPath s path = None ->
     r = (emptyMeta, Some ENOENT) /\ isNotFound r.2 = true) /\
  (fs !! metaPath s path = Some [] ->
     r = (emptyMeta, Some ErrorObjectNotFound) /\ isNotFound r.2 = true) /\
  (forall b m e, fs !! metaPath s path = Some b -> b <> [] ->
     jsonUnmarshal b = (m, Some e) -> r = (emptyMeta, Some e)) /\
  (forall m, r = (m, None) ->
     exists b, fs !! metaPath s path = Some b /\ b <> [] /\ jsonUnmarshal b = (m, None)).
Proof.
  intros Hn. rewrite Load_healthy by assumption. cbn.
  split; [intros Hm; now rewrite Hm |].
  split; [intros Hm; now rewrite Hm |].
  split.
  - intros b m e Hb Hne Hu. rewrite Hb. destruct b; [congruence |]. cbn.
    now rewrite Hu.
  - intros m. destruct (fs !! metaPath s path) as [b|]; [| congruence].
    destruct b as [|c b]; cbn; [congruence |].
    destruct (jsonUnmarshal (c :: b)) as [m' [e|]] eqn:Hu; cbn; [congruence |].
    intros [= ->]. exists (c :: b). repeat split; [congruence | assumption].
Qed.

(** [Delete] on a path that is not a sidecar path is the remove call of the
    VFS and nothing else: its result is that call's result. *)
Lemma Delete_is_Remove (s : PosixMetaStore) (path : string) :
  IsSidecarPath s path = false ->
  Delete s path = call (VfsRemove (metaPath s path)).
Proof. intros Hn. unfold Delete. now rewrite Hn. Qed.

Lemma Delete_missing (s : PosixMetaStore) (path : string) (fs : gmap string bytes) :
  IsSidecarPath s path = false ->
  fs !! metaPath s path = None ->
  exec run (Delete s path) (healthy fs) =
  (Some ENOENT, healthy fs,
   [Entry (VfsRemove (metaPath s path)) (Some ENOENT) (healthy fs)]).
Proof.
  intros Hn Hm. rewrite Delete_is_Remove by assumption. cbn. now rewrite Hm.
Qed.


(** *** Runs of [Save] on the model *)

Ltac map_step :=
  first [ rewrite lookup_insert_eq | rewrite lookup_delete_eq
        | rewrite lookup_insert_ne by congruence
        | rewrite lookup_delete_ne by congruence ].

Ltac run_model := cbn; repeat (progress (repeat map_step; cbn)).

(** [Load] changes no file, whatever failures are injected, and what it
    returns depends on the files only through the sidecar. *)
Lemma Load_model (s : PosixMetaStore) (path : string) (st : state) :
  let '(_, st1, log) := exec run (Load s path) st in
  files st1 = files st /\
  plan st1 = (if IsSidecarPath s path then plan st else tail (plan st)) /\
  createdTemp log = false /\
  Forall (fun en => files (afterOf en) = files st) log.
Proof.
  unfold Load. destruct (IsSidecarPath s path); [cbn; auto |].
  destruct st as [fs [|[f|] pl]]; cbn.
  2: now repeat constructor.
  all: destruct (fs !! metaPath s path) as [b|]; cbn; [| now repeat constructor].
  all: destruct (length b =? 0)%nat; cbn; [now repeat constructor |].
  all: destruct (jsonUnmarshal b) as [m [e|]]; cbn; now repeat constructor.
Qed.





(** Without injected failures the steps after the merge succeed once the
    record encodes. *)
Lemma commit_healthy (s : PosixMetaStore) (path : string) (cur : PosixMeta)
    (fs : gmap string bytes) (enc : bytes) :
  jsonMarshal cur = (enc, None) ->
  let p := metaPath s path in
  let tmp := p +:+ ".tmp" in
  (exec run (commit s path cur) (healthy fs)).1 =
  (None, healthy (<[p := enc]> (delete tmp (<[tmp := enc]> (<[tmp := []]> fs))))).
Proof.
  intros Hm p tmp. unfold commit. fold p. fold tmp. rewrite Hm.
  clearbody tmp. clearbody p. run_model. reflexivity.
Qed.


(** *** What [Save] guarantees *)

#[local] Arguments commit : simpl never.


(** C3. [Save] merges field by field: each field of the record it persists
    is the incoming field when that is set and the field of the current
    record otherwise, so the current mode "100644" and the incoming uid
    "1000" give a record with both. On a VFS without failures, once the
    merged record encodes, [Save] succeeds and leaves the encoding of the
    merged record (the current record being what [Load] returns) in the
    sidecar file, and [Load] then returns the merged record whenever that
    encoding decodes to it. *)
Theorem Save_merges_fields (s : PosixMetaStore) (path : string)
    (m : PosixMeta) (fs : gmap string bytes) (enc : bytes) :
  IsSidecarPath s path = false ->
  let cur := (exec run (Load s path) (healthy fs)).1.1.1 in
  jsonMarshal (merge cur m) = (enc, None) ->
  (Mode (merge cur m) = (if Mode m is Some _ then Mode m else Mode cur) /\
   UID (merge cur m) = (if UID m is Some _ then UID m else UID cur) /\
   GID (merge cur m) = (if GID m is Some _ then GID m else GID cur) /\
   Mtime (merge cur m) = (if Mtime m is Some _ then Mtime m else Mtime cur) /\
   Atime (merge cur m) = (if Atime m is Some _ then Atime m else Atime cur) /\
   Btime (merge cur m) = (if Btime m is Some _ then Btime m else Btime cur)) /\
  merge {| Mode := Some "100644"; UID := None; GID := None;
           Mtime := None; Atime := None; Btime := None |}
        {| Mode := None; UID := Some "1000"; GID := None;
           Mtime := None; Atime := None; Btime := None |} =
        {| Mode := Some "100644"; UID := Some "1000"; GID := None;
           Mtime := None; Atime := None; Btime := None |} /\
  let '(err, st', _) := exec run (Save s path m) (healthy fs) in
  err = None /\
  files st' !! metaPath s path = Some enc /\
  (enc <> [] -> jsonUnmarshal enc = (merge cur m, None) ->
   (exec run (Load s path) st').1.1 = (merge cur m, None)).
Proof.
  intros Hn cur Henc. split; [apply merge_fields |]. split; [reflexivity |].
  rewrite Save_steps by assumption. rewrite exec_bind.
  subst cur. rewrite Load_healthy in * by assumption. cbn in *.
  set (cur := (match fs !! metaPath s path with
               | Some b => _ | None => _ end).1) in *.
  replace (let '(cur0, _) := _ in commit s path (merge cur0 m))
    with (commit s path (merge cur m))
    by (subst cur; now destruct (match fs !! metaPath s path with
                                 | Some b => _ | None => _ end)).
  pose proof (commit_healthy s path (merge cur m) fs enc Henc) as HC. cbn in HC.
  destruct (exec run (commit s path (merge cur m)) (healthy fs)) as [[err st'] log].
  cbn in HC. injection HC as -> ->.
  assert (Hne : metaPath s path +:+ ".tmp" <> metaPath s path)
    by (apply append_nonempty_neq; discriminate).
  split; [reflexivity |]. split; [cbn; now rewrite lookup_insert_eq |].
  intros Hnil Hdec. rewrite Load_healthy by assumption. cbn.
  rewrite lookup_insert_eq. destruct enc; [congruence |]. cbn. now rewrite Hdec.
Qed.

(** C10. [Save] drops whatever error [Load] returns. On any VFS, when the
    [Load] inside [Save] returns an error of any kind, [Save] continues from
    the state [Load] left with the incoming record alone as the record to
    write. On the VFS model, with the read failing for whatever reason (the
    sidecar missing, empty or undecodable, or an injected read error [f]) and
    no failure afterwards, [Save] returns [nil] and the sidecar file holds
    the encoding of the incoming record and nothing of what was stored
    before. *)
Theorem Save_ignores_Load_errors (s : PosixMetaStore) (path : string)
    (m : PosixMeta) :
  IsSidecarPath s path = false ->
  (forall St (h : handler VfsE St) (st : St),
     (exec h (Load s path) st).1.1.2 <> None ->
     exec h (Save s path m) st =
     (let '(_, st1, log1) := exec h (Load s path) st in
      let '(err, st2, log2) := exec h (commit s path m) st1 in
      (err, st2, (log1 ++ log2)%list))) /\
  (forall (fs : gmap string bytes) (f : option fault) (enc : bytes),
     let st := {| files := fs; plan := [f] |} in
     (exec run (Load s path) st).1.1.2 <> None ->
     jsonMarshal m = (enc, None) ->
     let '(err, st', _) := exec run (Save s path m) st in
     err = None /\
     files st' !! metaPath s path = Some enc /\
     files st' !! (metaPath s path +:+ ".tmp") = None).
Proof.
  intros Hn.
  assert (Hgen : forall St (h : handler VfsE St) (st : St),
     (exec h (Load s path) st).1.1.2 <> None ->
     exec h (Save s path m) st =
     (let '(_, st1, log1) := exec h (Load s path) st in
      let '(err, st2, log2) := exec h (commit s path m) st1 in
      (err, st2, (log1 ++ log2)%list))).
  { intros St h st He. rewrite Save_steps by assumption. rewrite exec_bind.
    pose proof (Load_error_empty h s path st He) as Hempty.
    destruct (exec h (Load s path) st) as [[[cur e0] st1] log1]. cbn in *.
    subst cur. now rewrite merge_empty. }
  split; [exact Hgen |].
  intros fs f enc st He Henc. rewrite Hgen by assumption.
  pose proof (Load_model s path st) as HL.
  destruct (exec run (Load s path) st) as [[r st1] log1].
  rewrite Hn in HL. destruct HL as (Hf & Hp & _).
  assert (Hst1 : st1 = healthy fs) by (destruct st1; cbn in *; now subst).
  subst st1.
  pose proof (commit_healthy s path m fs enc Henc) as HC. cbn in HC.
  destruct (exec run (commit s path m) (healthy fs)) as [[err st'] log].
  cbn in HC. injection HC as -> ->.
  assert (Hne : metaPath s path +:+ ".tmp" <> metaPath s path)
    by (apply append_nonempty_neq; discriminate).
  cbn. split; [reflexivity |].
  split; [now rewrite lookup_insert_eq |].
  rewrite lookup_insert_ne by congruence. now rewrite lookup_delete_eq.
Qed.

End PosixStoreOnModel.

Lemma Load_empty_payload_is_not_found_witness :
  let s := {| vfs.Ext := ".posixmeta" |} in
  let fs : gmap string bytes := {[ "file.posixmeta" := [] ]} in
  vfs.IsSidecarPath s "file" = false /\
  fs !! vfs.metaPath s "file" = Some [] /\
  (exec vfsmodel.run (vfs.Load s "file") (vfsmodel.healthy fs)).1.1
    = (vfs.emptyMeta, Some ErrorObjectNotFound).
Proof.
  split; [reflexivity |]. split; [reflexivity |].
  exact (proj1 (proj1 (proj2
    (Load_empty_payload_is_not_found (H := golib.lib) {| vfs.Ext := ".posixmeta" |}
       "file" {[ "file.posixmeta" := [] ]} eq_refl)) eq_refl)).
Defined.

(** C4, at a path that has no sidecar: the store with suffix ".posixmeta",
    asked to delete the metadata of "file" on a VFS that holds no file at
    all, issues the one remove call and returns its "no such file" error
    instead of [nil]. *)
Theorem Delete_missing_sidecar_fails :
  exec vfsmodel.run (vfs.Delete {| vfs.Ext := ".posixmeta" |} "file")
       (vfsmodel.healthy ∅) =
  (Some ENOENT, vfsmodel.healthy ∅,
   [Entry (vfs.VfsRemove "file.posixmeta") (Some ENOENT) (vfsmodel.healthy ∅)]).
Proof. reflexivity. Qed.

(** ** The overlay adapters *)

Section Adapters.
Import vfs overlay.
Context `{GoLib} {St : Type} (h : handler AdE St).

(** The codecs and the integer conversions stay folded while a run is
    followed. *)
#[local] Arguments FormatPosixMode : simpl never.
#[local] Arguments ParsePosixMode : simpl never.
#[local] Arguments ParsePosixTime : simpl never.
#[local] Arguments strconv.FormatUint : simpl never.
#[local] Arguments strconv.ParseUint : simpl never.
#[local] Arguments uint32 : simpl never.
#[local] Arguments uint64 : simpl never.
#[local] Arguments int64 : simpl never.
#[local] Arguments IsSidecarPath : simpl never.
#[local] Arguments Z.ldiff : simpl never.
#[local] Arguments Z.div : simpl never.
#[local] Arguments isNil !e.
#[local] Arguments notNil {A} !p.

(** One step of a case analysis that follows a run: on the answer of the
    next call, or on the condition the program branches on. *)
Ltac run_case :=
  match goal with
  | |- context [h ?X ?e ?s] =>
      let r := fresh "r" in
      let s' := fresh "st" in
      destruct (h X e s) as [r s']; cbn
  | |- context [isNil ?o] => is_var o; destruct o; cbn
  | |- context [vfscommon.PersistMetadata ?o] =>
      destruct (vfscommon.PersistMetadata o); cbn
  | |- context [IsSidecarPath ?s ?p] => destruct (IsSidecarPath s p); cbn
  | |- context [decide (?a = ?b)] => destruct (decide (a = b)); cbn
  | |- context [exec h (match ?r with _ => _ end)] => destruct r; cbn
  | |- context [mbind _ (match ?r with _ => _ end)] => destruct r; cbn
  | |- context [bind (match ?r with _ => _ end) _] => destruct r; cbn
  end.

(** *** Counting the saves of a program *)

Lemma Quiet_bind {A B} (Q : A -> Prop) (R : B -> Prop) (p : Prog AdE A)
    (f : A -> Prog AdE B) :
  Quiet Q p -> (forall a, Q a -> Quiet R (f a)) -> Quiet R (p ≫= f).
Proof.
  intros Hp Hf. induction Hp as [a Ha | X e k He _ IH].
  - apply Hf, Ha.
  - apply (Quiet_vis R X e (fun x => bind (k x) f)); assumption.
Qed.

Lemma Quiet_Saves {A} (Q : A -> Prop) P (p : Prog AdE A) :
  Quiet Q p -> Saves P 0 p.
Proof.
  intros Hp. induction Hp as [a _ | X e k He _ IH];
    [apply Saves_ret | apply Saves_vis; assumption].
Qed.

Lemma Saves_after_quiet {A B} (Q : A -> Prop) P (n : nat) (p : Prog AdE A)
    (f : A -> Prog AdE B) :
  Quiet Q p -> (forall a, Q a -> Saves P n (f a)) -> Saves P n (p ≫= f).
Proof.
  intros Hp Hf. induction Hp as [a Ha | X e k He _ IH].
  - apply Hf, Ha.
  - apply (Saves_vis P X e (fun x => bind (k x) f)); assumption.
Qed.

Lemma Saves_then_quiet {A B} P (n : nat) (p : Prog AdE A) (f : A -> Prog AdE B) :
  Saves P n p -> (forall a, Quiet (fun _ => True) (f a)) -> Saves P n (p ≫= f).
Proof.
  intros Hp Hf. induction Hp as [a | X e k n He _ IH | s path m k n HP _ IH].
  - apply (Quiet_Saves (fun _ => True)), Hf.
  - apply (Saves_vis P X e (fun x => bind (k x) f)); assumption.
  - apply (Saves_save P s path m (fun x => bind (k x) f)); assumption.
Qed.

Lemma saves_cons {X} (e : AdE X) (x : X) (st : St) (log : list (entry AdE St)) :
  saves (Entry e x st :: log) =
  match savedBy e with
  | Some sv => sv :: saves log
  | None => saves log
  end.
Proof. unfold saves. cbn. now destruct (savedBy e). Qed.

Lemma Saves_exec {A} P (n : nat) (p : Prog AdE A) (st : St) :
  Saves P n p ->
  let '(_, _, log) := exec h p st in
  length (saves log) = n /\ Forall P (saves log).
Proof.
  intros Hp. revert st.
  induction Hp as [a | X e k n He _ IH | s path m k n HP _ IH]; intros st.
  - cbn. split; [reflexivity | constructor].
  - cbn [exec]. destruct (h X e st) as [x st1]. specialize (IH x st1).
    destruct (exec h (k x) st1) as [[a st2] log]. now rewrite saves_cons, He.
  - cbn [exec]. destruct (h _ (StoreSave s path m) st) as [x st1].
    specialize (IH x st1).
    destruct (exec h (k x) st1) as [[a st2] log].
    destruct IH as [Hlen Hall]. rewrite saves_cons. cbn.
    split; [now rewrite Hlen | now constructor].
Qed.

(** Closes the goals [Quiet Q p] of a program that is written out. *)
Ltac quiet :=
  cbn;
  repeat first [ apply Quiet_ret | apply Quiet_vis; [reflexivity | intros ?; cbn] ].

(** C8. An attribute query does not fail because of the sidecar. On any VFS:
    [Attr] of the mount always returns [nil], and when its [Load] returned an
    error (whichever) the attributes are the ones of the live file: the
    default owner and group, the mode and the size of the file, its
    modification time as all three times. [Stat] of the network share fails
    exactly when the live stat fails, with that error; otherwise it returns
    [nil], and when its [Load]s returned errors the result is the live node
    itself, with the default owner and group as its [Sys]. *)
Theorem attribute_query_survives_Load_errors (st : St) :
  (forall f : mount.File,
     let '(r, _, log) := exec h (mount.Attr f) st in
     r.2 = None /\
     (loadsFailed log = true ->
      r.1 = {| mount.Valid := mount.AttrTimeout f;
               mount.aSize := uint64 (mount.Size f);
               mount.aBlocks := uint64 (uint64 (mount.Size f) + 511) / 512;
               mount.aAtime := mount.ModTime f;
               mount.aMtime := mount.ModTime f;
               mount.aCtime := mount.ModTime f;
               mount.aMode := Z.ldiff (mount.FileMode f) mount.ModeAppend;
               mount.aUid := vfscommon.UID (mount.Opt f);
               mount.aGid := vfscommon.GID (mount.Opt f) |})) /\
  (forall (f : nfs.FS) (filename : string),
     let '(r, _, log) := exec h (nfs.Stat f filename) st in
     match (h _ (LiveStat filename) st).1 with
     | inr e => r = (None, Some e)
     | inl fi =>
         r.2 = None /\
         (loadsFailed log = true ->
          r.1 = Some (nfs.Plain (nfs.SetSys fi
                  {| Nlink := 1;
                     sysUID := vfscommon.UID (nodeOpt fi);
                     sysGID := vfscommon.GID (nodeOpt fi);
                     Fileid := nodeInode fi |})))
     end).
Proof.
  split.
  - intros f. unfold mount.Attr.
    destruct (vfscommon.PersistMetadata (mount.Opt f)); [| cbn; auto].
    destruct (IsSidecarPath (storeOf (mount.Opt f)) (mount.Path f)); cbn; [auto |].
    destruct (h _ (StoreLoad (storeOf (mount.Opt f)) (mount.Path f)) st)
      as [[m [e|]] st1]; cbn; [auto |].
    split; [reflexivity | discriminate].
  - intros f filename. unfold nfs.Stat. cbn.
    destruct (h _ (LiveStat filename) st) as [[fi|e] st1]; cbn; [| reflexivity].
    unfold nfs.setSys. cbn.
    repeat run_case.
    all: split; [reflexivity |]; intros Hl.
    all: first [discriminate Hl | reflexivity].
Qed.


(** The record the adapters pass to [Save], and when. On any VFS: [Chmod],
    [Chown] and [Chtimes] of the network share call [Save] exactly when no
    live operation of the run failed ([ENOSYS] from the live chmod counting
    as success), persistence is enabled and the path is not a sidecar path,
    once, with the record that holds the fields of the request and no other:
    the mode; the uid and the gid; the access and the modification time.
    [Setattr] of the mount calls [Save] once exactly when persistence is
    enabled, the path is not a sidecar path and the request marks one of
    mode, uid, gid, access time and modification time valid, whatever its
    live operations returned; the record it passes holds exactly the fields
    the request marks valid (never the birth time), with the request's
    values. *)
Theorem saved_record_is_the_request (st : St) :
  (forall (f : nfs.FS) (name : string) (mode : Z),
     let '(_, _, log) := exec h (nfs.Chmod f name mode) st in
     saves log =
     if negb (liveFailed log) && vfscommon.PersistMetadata (nfs.Opt f) &&
        negb (IsSidecarPath (storeOf (nfs.Opt f)) name)
     then [(storeOf (nfs.Opt f), name,
            {| Mode := Some (FormatPosixMode mode false); UID := None; GID := None;
               Mtime := None; Atime := None; Btime := None |})]
     else []) /\
  (forall (f : nfs.FS) (name : string) (uid gid : Z),
     let '(_, _, log) := exec h (nfs.Chown f name uid gid) st in
     saves log =
     if negb (liveFailed log) && vfscommon.PersistMetadata (nfs.Opt f) &&
        negb (IsSidecarPath (storeOf (nfs.Opt f)) name)
     then [(storeOf (nfs.Opt f), name,
            {| Mode := None;
               UID := Some (strconv.FormatUint (uint64 uid) 10);
               GID := Some (strconv.FormatUint (uint64 gid) 10);
               Mtime := None; Atime := None; Btime := None |})]
     else []) /\
  (forall (f : nfs.FS) (name : string) (atime mtime : Time),
     let '(_, _, log) := exec h (nfs.Chtimes f name atime mtime) st in
     saves log =
     if negb (liveFailed log) && vfscommon.PersistMetadata (nfs.Opt f) &&
        negb (IsSidecarPath (storeOf (nfs.Opt f)) name)
     then [(storeOf (nfs.Opt f), name,
            {| Mode := None; UID := None; GID := None;
               Mtime := Some (timeFormatRFC3339 mtime);
               Atime := Some (timeFormatRFC3339 atime); Btime := None |})]
     else []) /\
  (forall (tr : option error -> option error) (f : mount.File)
          (req : mount.SetattrRequest),
     let '(_, _, log) := exec h (mount.Setattr tr f req) st in
     length (saves log) =
     (if vfscommon.PersistMetadata (mount.Opt f) &&
         negb (IsSidecarPath (storeOf (mount.Opt f)) (mount.Path f)) &&
         (mount.validMode req || mount.validUid req || mount.validGid req ||
          mount.validAtime req || mount.validAtimeNow req ||
          mount.validMtime req || mount.validMtimeNow req)
      then 1%nat else 0%nat) /\
     Forall (fun sv : PosixMetaStore * string * PosixMeta =>
        sv.1 = (storeOf (mount.Opt f), mount.Path f) /\
        notNil (Mode sv.2) = mount.validMode req /\
        notNil (UID sv.2) = mount.validUid req /\
        notNil (GID sv.2) = mount.validGid req /\
        notNil (Atime sv.2) = mount.validAtime req || mount.validAtimeNow req /\
        notNil (Mtime sv.2) = mount.validMtime req || mount.validMtimeNow req /\
        Btime sv.2 = None /\
        (mount.validMode req = true ->
           Mode sv.2 = Some (FormatPosixMode (mount.reqMode req) false)) /\
        (mount.validUid req = true ->
           UID sv.2 = Some (strconv.FormatUint (uint64 (mount.reqUid req)) 10)) /\
        (mount.validGid req = true ->
           GID sv.2 = Some (strconv.FormatUint (uint64 (mount.reqGid req)) 10)) /\
        (mount.validAtime req = true ->
           Atime sv.2 = Some (timeFormatRFC3339 (mount.reqAtime req))) /\
        (mount.validMtime req = true ->
           Mtime sv.2 = Some (timeFormatRFC3339 (mount.reqMtime req))))
       (saves log)).
Proof.
  split; [| split; [| split]].
  - intros f name mode. unfold nfs.Chmod, when, logIfError. cbn.
    repeat run_case; first [reflexivity | contradiction].
  - intros f name uid gid. unfold nfs.Chown, when, logIfError. cbn.
    repeat run_case; reflexivity.
  - intros f name atime mtime. unfold nfs.Chtimes, when. cbn.
    repeat run_case; reflexivity.
  - intros tr f req.
    apply Saves_exec. unfold mount.Setattr.
    eapply Saves_after_quiet with (Q := fun _ => True).
    { destruct (mount.validSize req); quiet; exact I. }
    intros err1 _.
    eapply Saves_after_quiet with (Q := fun _ => True).
    { destruct (vfscommon.NoModTime (mount.Opt f)), (mount.validMtime req),
        (mount.validMtimeNow req); quiet; exact I. }
    intros err2 _.
    apply Saves_then_quiet; [| intros; quiet; exact I].
    unfold when.
    destruct (vfscommon.PersistMetadata (mount.Opt f)); [| apply Saves_ret].
    destruct (IsSidecarPath (storeOf (mount.Opt f)) (mount.Path f));
      cbn [negb andb]; [apply Saves_ret |].
    eapply Saves_after_quiet with (Q := fun m =>
      Mode m = (if mount.validMode req
                then Some (FormatPosixMode (mount.reqMode req) false) else None) /\
      UID m = (if mount.validUid req
               then Some (strconv.FormatUint (uint64 (mount.reqUid req)) 10) else None) /\
      GID m = (if mount.validGid req
               then Some (strconv.FormatUint (uint64 (mount.reqGid req)) 10) else None) /\
      notNil (Atime m) = mount.validAtime req || mount.validAtimeNow req /\
      (mount.validAtime req = true ->
       Atime m = Some (timeFormatRFC3339 (mount.reqAtime req))) /\
      Mtime m = None /\ Btime m = None).
    { destruct (mount.validMode req), (mount.validUid req), (mount.validGid req),
        (mount.validAtime req), (mount.validAtimeNow req); quiet;
        repeat match goal with |- _ /\ _ => split end; intros; cbn; congruence. }
    intros m1 (Hmode & Huid & Hgid & Hat & Hatv & Hmt & Hbt).
    eapply Saves_after_quiet with (Q := fun m =>
      Mode m = Mode m1 /\ UID m = UID m1 /\ GID m = GID m1 /\ Atime m = Atime m1 /\
      notNil (Mtime m) = mount.validMtime req || mount.validMtimeNow req /\
      (mount.validMtime req = true ->
       Mtime m = Some (timeFormatRFC3339 (mount.reqMtime req))) /\
      Btime m = None).
    { destruct (mount.validMtime req), (mount.validMtimeNow req); quiet;
        repeat match goal with |- _ /\ _ => split end; intros; cbn;
        rewrite ?Hmt; cbn; congruence. }
    intros m2 (Hmode2 & Huid2 & Hgid2 & Hat2 & Hmtn & Hmtv & Hbt2).
    assert (Hany : PosixAnyFieldSet m2 =
                   mount.validMode req || mount.validUid req || mount.validGid req ||
                   mount.validAtime req || mount.validAtimeNow req ||
                   mount.validMtime req || mount.validMtimeNow req).
    { unfold PosixAnyFieldSet.
      rewrite Hmtn, Hbt2, Hmode2, Huid2, Hgid2, Hat2, Hat, Hmode, Huid, Hgid.
      destruct (mount.validMode req), (mount.validUid req), (mount.validGid req),
        (mount.validAtime req), (mount.validAtimeNow req), (mount.validMtime req),
        (mount.validMtimeNow req); reflexivity. }
    rewrite Hany.
    destruct (mount.validMode req || mount.validUid req || mount.validGid req ||
              mount.validAtime req || mount.validAtimeNow req ||
              mount.validMtime req || mount.validMtimeNow req);
      [| apply Saves_ret].
    cbn. apply Saves_save.
    + cbn. rewrite Hmode2, Huid2, Hgid2, Hat2, Hmode, Huid, Hgid, Hat.
      split; [reflexivity |].
      destruct (mount.validMode req), (mount.validUid req), (mount.validGid req);
        cbn; repeat match goal with |- _ /\ _ => split end;
        first [assumption | intros; congruence].
    + intros x. apply (Quiet_Saves (fun _ => True)).
      unfold logIfError. destruct x; quiet; exact I.
Qed.

End Adapters.

(** ** More of the design, beyond the examples above *)

Section ModeRoundTrip.
Import vfs.

Lemma digitVal_digitChar (d : Z) :
  0 <= d < 8 -> strconv.digitVal (strconv.digitChar d) = Some d.
Proof.
  intros Hd.
  assert (Hc : d = 0 \/ d = 1 \/ d = 2 \/ d = 3 \/ d = 4 \/ d = 5 \/ d = 6 \/ d = 7)
    by lia.
  destruct Hc as [-> | [-> | [-> | [-> | [-> | [-> | [-> | ->]]]]]]]; reflexivity.
Qed.

(** Reading back the octal digits that [formatBits] wrote in front of [acc]
    shifts the value read so far by those digits. *)
Lemma parse_formatBits (fuel : nat) :
  forall (n : Z) (acc : string),
    0 <= n < 8 ^ Z.of_nat fuel ->
    exists k, 0 <= k /\
      forall a, strconv.parseDigits (strconv.formatBits fuel n 8 acc) 8 a =
                strconv.parseDigits acc 8 (a * 8 ^ k + n).
Proof.
  induction fuel as [|fuel IH]; intros n acc Hn.
  - exists 0. split; [lia |]. intros a. cbn in *.
    replace n with 0 by lia. f_equal. lia.
  - assert (Hstep : forall a,
        strconv.parseDigits (String (strconv.digitChar (n mod 8)) acc) 8 a =
        strconv.parseDigits acc 8 (a * 8 + n mod 8)).
    { intros a. cbn [strconv.parseDigits].
      rewrite digitVal_digitChar by (apply Z.mod_pos_bound; lia).
      destruct (Z.ltb_spec (n mod 8) 8) as [_ | Hge]; [reflexivity |].
      pose proof (Z.mod_pos_bound n 8); lia. }
    cbn [strconv.formatBits].
    pose proof (Z.div_mod n 8 ltac:(lia)) as Hdm.
    destruct (Z.eqb_spec (n / 8) 0) as [Hz | Hnz].
    + exists 1. split; [lia |]. intros a. rewrite Hstep. f_equal. lia.
    + assert (Hq : 0 <= n / 8 < 8 ^ Z.of_nat fuel).
      { split; [apply Z.div_pos; lia |].
        apply Z.div_lt_upper_bound; [lia |].
        replace (8 * 8 ^ Z.of_nat fuel) with (8 ^ Z.of_nat (S fuel)); [lia |].
        rewrite Nat2Z.inj_succ, Z.pow_succ_r by lia. reflexivity. }
      destruct (IH (n / 8) (String (strconv.digitChar (n mod 8)) acc) Hq)
        as (k & Hk & Hparse).
      exists (k + 1). split; [lia |]. intros a.
      rewrite Hparse, Hstep. f_equal.
      rewrite Z.pow_add_r by lia. lia.
Qed.

Lemma formatBits_nonempty (fuel : nat) (n : Z) (acc : string) :
  (fuel <> O \/ acc <> "") -> strconv.formatBits fuel n 8 acc <> "".
Proof.
  revert n acc. induction fuel as [|fuel IH]; intros n acc Hne.
  - cbn. destruct Hne; [congruence | assumption].
  - cbn [strconv.formatBits]. destruct (n / 8 =? 0); [discriminate |].
    apply IH. right. discriminate.
Qed.

Lemma ParseUint_FormatUint (n : Z) :
  0 <= n < 2 ^ 32 -> strconv.ParseUint (strconv.FormatUint n 8) 8 32 = Some n.
Proof.
  intros Hn. unfold strconv.ParseUint, strconv.FormatUint.
  assert (Hfuel : (64 <> 0)%nat) by discriminate.
  assert (Hbound : 0 <= n < 8 ^ Z.of_nat 64)
    by (split; [lia |]; eapply Z.lt_trans; [apply Hn | reflexivity]).
  revert Hfuel Hbound. generalize 64%nat. intros fuel Hfuel Hbound.
  pose proof (formatBits_nonempty fuel n "" (or_introl Hfuel)) as Hne.
  destruct (parse_formatBits fuel n "" Hbound) as (k & _ & Hparse).
  destruct (strconv.formatBits fuel n 8 "") as [|c rest] eqn:Hf; [congruence |].
  rewrite Hparse. cbn [strconv.parseDigits]. rewrite Z.mul_0_l, Z.add_0_l.
  destruct (Z.ltb_spec n (2 ^ 32)); [reflexivity | lia].
Qed.

Lemma typed_mode_range (m t : Z) :
  t = 0x4000 \/ t = 0x8000 ->
  0 <= Z.lor (Z.ldiff (uint32 m) 0xF000) t < 2 ^ 32.
Proof.
  intros Ht. set (x := Z.lor (Z.ldiff (uint32 m) 0xF000) t).
  assert (Hx : x = x mod 2 ^ 32).
  { rewrite <- Z.land_ones by lia. apply Z.bits_inj'. intros i Hi.
    rewrite Z.land_spec. destruct (Z.ltb_spec i 32) as [Hlo | Hhi].
    - rewrite Z.ones_spec_low by lia. now rewrite andb_true_r.
    - rewrite Z.ones_spec_high by lia. rewrite andb_false_r.
      unfold x, uint32. rewrite Z.lor_spec, Z.ldiff_spec.
      rewrite Z.mod_pow2_bits_high by lia. cbn [andb orb].
      rewrite <- (Z.mod_small t (2 ^ 32)) by (destruct Ht; subst t; lia).
      apply Z.mod_pow2_bits_high. lia. }
  rewrite Hx. apply Z.mod_pos_bound. lia.
Qed.

(** The codec round-trips on everything [FormatPosixMode] produces: decoding
    gives the mode with its file-type nibble replaced by the directory or the
    regular-file constant, whatever the mode. *)
Theorem mode_round_trip (m : Z) (isDir : bool) :
  ParsePosixMode (FormatPosixMode m isDir) =
  Z.lor (Z.ldiff (uint32 m) 0xF000) (if isDir then 0x4000 else 0x8000).
Proof.
  unfold ParsePosixMode, FormatPosixMode.
  set (t := if isDir then 0x4000 else 0x8000).
  assert (Ht : t = 0x4000 \/ t = 0x8000) by (subst t; destruct isDir; auto).
  pose proof (typed_mode_range m t Ht) as Hr.
  replace (if isDir then Z.lor (Z.ldiff (uint32 m) 0xF000) 0x4000
           else Z.lor (Z.ldiff (uint32 m) 0xF000) 0x8000)
    with (Z.lor (Z.ldiff (uint32 m) 0xF000) t) by (subst t; now destruct isDir).
  set (x := Z.lor (Z.ldiff (uint32 m) 0xF000) t) in *.
  assert (H64 : uint64 x = x).
  { unfold uint64. apply Z.mod_small. split; [lia |].
    eapply Z.lt_trans; [apply Hr | reflexivity]. }
  rewrite H64, ParseUint_FormatUint by assumption.
  unfold uint32. apply Z.mod_small. assumption.
Qed.

End ModeRoundTrip.

Section Lifecycle.
Import vfs vfsmodel.

(** With an empty suffix no path is a sidecar path. *)
Lemma IsSidecarPath_disabled (p : string) :
  IsSidecarPath {| Ext := "" |} p = false.
Proof. reflexivity. Qed.

(** [Rename] on a VFS without failures: when the old path has no sidecar
    nothing happens and [nil] is returned; when it has one, the sidecar
    moves to the sidecar path of the new path. *)
Theorem Rename_moves_the_sidecar (s : PosixMetaStore) (oldPath newPath : string)
    (fs : gmap string bytes) :
  IsSidecarPath s oldPath = false ->
  IsSidecarPath s newPath = false ->
  (exec run (Rename s oldPath newPath) (healthy fs)).1 =
  match fs !! metaPath s oldPath with
  | None => (None, healthy fs)
  | Some b =>
      (None, healthy (<[metaPath s newPath := b]> (delete (metaPath s oldPath) fs)))
  end.
Proof.
  intros Ho Hn. unfold Rename. rewrite Ho, Hn. cbn.
  destruct (fs !! metaPath s oldPath) as [b|] eqn:Hb; cbn; [| reflexivity].
  now rewrite Hb.
Qed.

End Lifecycle.

Lemma Rename_moves_the_sidecar_witness :
  vfs.IsSidecarPath sample.store "file" = false /\
  vfs.IsSidecarPath sample.store "file2" = false /\
  (exec vfsmodel.run (vfs.Rename sample.store "file" "file2")
        (vfsmodel.healthy sample.tracked)).1 =
  (None, vfsmodel.healthy
           (<["file2.posixmeta" := bytes_of_string (golib.json "{'mode':'100644'}")]>
              (delete "file.posixmeta" sample.tracked))).
Proof.
  split; [reflexivity |]. split; [reflexivity |].
  exact (Rename_moves_the_sidecar sample.store "file" "file2"
           sample.tracked eq_refl eq_refl).
Defined.

(** The life of a record, on a VFS that holds "/dir/file": [Save] of the
    mode 100600; [Load] returns it; after [Rename] to "/dir/file2", [Load] of
    the new path returns it and [Load] of the old path finds nothing; after
    [Delete], [Load] of the new path finds nothing, and no sidecar file is
    left. *)
Theorem sidecar_lifecycle_scenario :
  let m := {| vfs.Mode := Some "100600"; vfs.UID := None; vfs.GID := None;
              vfs.Mtime := None; vfs.Atime := None; vfs.Btime := None |} in
  let s := sample.store in
  let scenario : Prog vfs.VfsE _ :=
    e1 ← vfs.Save s "/dir/file" m;
    l1 ← vfs.Load s "/dir/file";
    e2 ← vfs.Rename s "/dir/file" "/dir/file2";
    l2 ← vfs.Load s "/dir/file2";
    l3 ← vfs.Load s "/dir/file";
    e3 ← vfs.Delete s "/dir/file2";
    l4 ← vfs.Load s "/dir/file2";
    mret (e1, l1, e2, l2, l3, e3, l4) in
  (exec vfsmodel.run scenario
        (vfsmodel.healthy {[ "/dir/file" := bytes_of_string "data" ]})).1 =
  ((None, (m, None), None, (m, None), (vfs.emptyMeta, Some ENOENT), None,
    (vfs.emptyMeta, Some ENOENT)),
   vfsmodel.healthy {[ "/dir/file" := bytes_of_string "data" ]}).
Proof. vm_compute. reflexivity. Qed.

(** ** The theorems at work on sample data *)

Section Samples.
Import vfs vfsmodel.



(** The spec's merge example, end to end: the sidecar holds the mode 100644,
    [Save] is given the uid 1000, and afterwards the sidecar file is the JSON
    object of both and [Load] returns both. *)
Lemma Save_merges_fields_witness :
  let enc := bytes_of_string (golib.json "{'mode':'100644','uid':'1000'}") in
  let cur := (exec run (Load sample.store "file") (healthy sample.tracked)).1.1.1 in
  IsSidecarPath sample.store "file" = false /\
  cur = sample.mode100644 /\
  jsonMarshal (merge cur sample.uid1000) = (enc, None) /\
  let '(err, st', _) :=
    exec run (Save sample.store "file" sample.uid1000) (healthy sample.tracked) in
  err = None /\
  files st' !! "file.posixmeta" = Some enc /\
  (exec run (Load sample.store "file") st').1.1 = (sample.mode100644_uid1000, None).
Proof.
  intros enc cur. split; [reflexivity |]. split; [reflexivity |].
  split; [reflexivity |].
  pose proof (Save_merges_fields sample.store "file" sample.uid1000 sample.tracked enc
                eq_refl eq_refl) as (_ & _ & Hthm).
  destruct (exec run (Save sample.store "file" sample.uid1000) (healthy sample.tracked))
    as [[err st'] log].
  destruct Hthm as (He & Hf & Hl).
  split; [exact He |]. split; [exact Hf |].
  apply Hl; [discriminate | reflexivity].
Defined.

(** A [Save] over a sidecar that does not decode: it succeeds and the file
    holds the incoming uid alone. *)
Lemma Save_ignores_Load_errors_witness :
  let enc := bytes_of_string (golib.json "{'uid':'1000'}") in
  let st := {| files := sample.corrupt; plan := [None] |} in
  IsSidecarPath sample.store "file" = false /\
  (exec run (Load sample.store "file") st).1.1 =
    (emptyMeta, Some (JSONError "invalid character")) /\
  jsonMarshal sample.uid1000 = (enc, None) /\
  let '(err, st', _) := exec run (Save sample.store "file" sample.uid1000) st in
  err = None /\
  files st' !! "file.posixmeta" = Some enc /\
  files st' !! "file.posixmeta.tmp" = None.
Proof.
  intros enc st. split; [reflexivity |]. split; [reflexivity |].
  split; [reflexivity |].
  pose proof (proj2 (Save_ignores_Load_errors sample.store "file" sample.uid1000
                       eq_refl) sample.corrupt None enc) as Hthm.
  apply Hthm; [vm_compute; discriminate | reflexivity].
Defined.

End Samples.

Section AdapterSamples.
Import vfs overlay.

(** C5, at a [Setattr] of the mount whose live mutation fails: the live
    [SetModTime] of this [Setattr] fails, [Setattr] returns its error, and
    the [Save] is performed all the same, leaving the requested modification
    time in the sidecar. *)
Theorem Setattr_saves_after_failed_mutation :
  let '(err, st', log) :=
    exec overlaymodel.run (mount.Setattr id sample.file sample.setMtime)
         (sample.world sample.untracked [Some sample.ioError]) in
  err = Some (IOError 5) /\
  liveFailed log = true /\
  saves log =
    [(sample.store, "file",
      {| Mode := None; UID := None; GID := None;
         Mtime := Some "2024-03-01T12:00:00Z"; Atime := None; Btime := None |})] /\
  vfsmodel.files (overlaymodel.disk st') !! "file.posixmeta" =
    Some (bytes_of_string (golib.json "{'mtime':'2024-03-01T12:00:00Z'}")).
Proof. vm_compute. repeat split; reflexivity. Qed.

(** The network share on the same failure: no [Save]. *)
Example Chtimes_does_not_save_after_failed_mutation :
  let '(err, st', log) :=
    exec overlaymodel.run
         (nfs.Chtimes {| nfs.Opt := sample.options |} "file" 1709294400 1709294400)
         (sample.world sample.untracked [Some sample.ioError]) in
  err = Some (IOError 5) /\ liveFailed log = true /\ saves log = [] /\
  vfsmodel.files (overlaymodel.disk st') !! "file.posixmeta" = None.
Proof. vm_compute. repeat split; reflexivity. Qed.

(** An attribute query over a sidecar that does not decode, and over none at
    all: both answer with the attributes of the live object. *)
Example Stat_over_corrupt_sidecar :
  let base := nfs.SetSys (overlaymodel.nodeOf (sample.world sample.corrupt []) "file"
                            (bytes_of_string "data"))
                {| Nlink := 1; sysUID := 1000; sysGID := 1000; Fileid := 1 |} in
  (exec overlaymodel.run (nfs.Stat {| nfs.Opt := sample.options |} "file")
        (sample.world sample.corrupt [])).1.1 = (Some (nfs.Plain base), None) /\
  (exec overlaymodel.run (nfs.Stat {| nfs.Opt := sample.options |} "file")
        (sample.world sample.untracked [])).1.1 = (Some (nfs.Plain base), None) /\
  mount.aMode (exec overlaymodel.run (mount.Attr sample.file)
        (sample.world sample.corrupt [])).1.1.1 = 420.
Proof. vm_compute. repeat split; reflexivity. Qed.

(** With a sidecar that decodes, the same queries report its mode. *)
Example Stat_over_sidecar :
  (let '(r, _, _) :=
     exec overlaymodel.run (nfs.Stat {| nfs.Opt := sample.options |} "file")
          (sample.world sample.tracked []) in
   option_map nfs.infoMode r.1 = Some 0x81A4) /\
  mount.aMode (exec overlaymodel.run (mount.Attr sample.file)
        (sample.world sample.tracked [])).1.1.1 = 0x81A4.
Proof. vm_compute. repeat split; reflexivity. Qed.

End AdapterSamples.

(** ** Further properties: naming *)

Section NamingMore.
Import vfs.

Lemma append_cons (x : ascii) (a b : string) : String x a +:+ b = String x (a +:+ b).
Proof. reflexivity. Qed.

Lemma append_assoc (a b c : string) : (a +:+ b) +:+ c = a +:+ (b +:+ c).
Proof.
  induction a as [|x a IH]; [reflexivity |]. rewrite !append_cons. now rewrite IH.
Qed.

Lemma append_empty_r (a : string) : a +:+ "" = a.
Proof.
  induction a as [|x a IH]; [reflexivity |]. rewrite append_cons. now rewrite IH.
Qed.

(** Appending the same suffix to two strings keeps them apart. *)
Lemma append_inj_l (a b e : string) : a +:+ e = b +:+ e -> a = b.
Proof.
  intros Heq.
  assert (Hlen : String.length a = String.length b).
  { apply (f_equal String.length) in Heq. rewrite !length_append in Heq. lia. }
  rewrite <- (substring_keep a e), <- (substring_keep b e), Heq, Hlen.
  reflexivity.
Qed.

Lemma metaPath_suffix (s : PosixMetaStore) (p : string) :
  exists e, e <> "" /\ metaPath s p = p +:+ e.
Proof.
  unfold metaPath. destruct (String.eqb_spec (Ext s) "") as [He | He].
  - exists ".posixmeta". split; [discriminate | reflexivity].
  - exists (Ext s). split; [assumption | reflexivity].
Qed.

(** The specialized store never gives two tracked paths the same sidecar or
    the same temporary file, whatever the suffix; and the sidecar of a path
    is never the path itself, nor is the temporary file the sidecar or the
    path. *)
Theorem metaPath_injective (s : PosixMetaStore) (p q : string) :
  p <> q ->
  metaPath s p <> metaPath s q /\
  metaPath s p +:+ ".tmp" <> metaPath s q +:+ ".tmp" /\
  metaPath s p <> p /\
  metaPath s p +:+ ".tmp" <> metaPath s p /\
  metaPath s p +:+ ".tmp" <> p.
Proof.
  intros Hpq.
  assert (Hm : metaPath s p <> metaPath s q).
  { unfold metaPath. intros Heq. now apply append_inj_l in Heq. }
  destruct (metaPath_suffix s p) as (e & He & Hp).
  split; [exact Hm |].
  split; [intros Heq; now apply append_inj_l in Heq |].
  split; [rewrite Hp; now apply append_nonempty_neq |].
  split; [apply append_nonempty_neq; discriminate |].
  rewrite Hp, append_assoc. apply append_nonempty_neq.
  destruct e; [congruence | discriminate].
Qed.

(** The recursion guard looks at the configured suffix alone. With an empty
    suffix the sidecars are still named ".posixmeta", but no path is taken
    for a sidecar path, the sidecar of a path included: [Load] of a sidecar
    path is then not answered at once but reads, on any VFS, the sidecar of
    the sidecar. With the default suffix configured, the temporary file that
    [Save] writes next to a sidecar is not taken for a sidecar path either. *)
Theorem guard_misses `{GoLib} (p : string) :
  IsSidecarPath {| Ext := "" |} (metaPath {| Ext := "" |} p) = false /\
  (forall St (h : handler VfsE St) (st : St),
     exists x st',
       head (exec h (Load {| Ext := "" |} (metaPath {| Ext := "" |} p)) st).2 =
       Some (Entry (VfsReadFile ((p +:+ ".posixmeta") +:+ ".posixmeta")) x st')) /\
  IsSidecarPath {| Ext := ".posixmeta" |}
    (metaPath {| Ext := ".posixmeta" |} p +:+ ".tmp") = false.
Proof.
  split; [reflexivity |]. split.
  { intros St h st. unfold Load.
    change (IsSidecarPath {| Ext := "" |} (metaPath {| Ext := "" |} p)) with false.
    change (metaPath {| Ext := "" |} (metaPath {| Ext := "" |} p))
      with ((p +:+ ".posixmeta") +:+ ".posixmeta").
    cbn [exec mbind Prog_bind bind call].
    destruct (h _ (VfsReadFile ((p +:+ ".posixmeta") +:+ ".posixmeta")) st)
      as [x st'].
    match goal with
    | |- context [exec h ?q st'] => destruct (exec h q st') as [[a st2] log]
    end.
    exists x, st'. reflexivity. }
  unfold IsSidecarPath, metaPath. cbn [Ext String.eqb Ascii.eqb].
  change (String.eqb ".posixmeta" "") with false. cbn iota.
  unfold strings.HasSuffix.
  replace ((p +:+ ".posixmeta") +:+ ".tmp") with ((p +:+ ".pos") +:+ "ixmeta.tmp")
    by (rewrite !append_assoc; reflexivity).
  rewrite length_append.
  replace (String.length (p +:+ ".pos") + String.length "ixmeta.tmp"
           - String.length ".posixmeta")%nat
    with (String.length (p +:+ ".pos")) by (cbn; lia).
  rewrite substring_skip. cbn. apply andb_false_r.
Qed.

End NamingMore.

Lemma metaPath_injective_witness :
  "dir/a" <> "dir/b" /\
  vfs.metaPath sample.store "dir/a" <> vfs.metaPath sample.store "dir/b".
Proof.
  assert (Hne : "dir/a" <> "dir/b") by discriminate.
  split; [exact Hne |].
  exact (proj1 (metaPath_injective sample.store "dir/a" "dir/b" Hne)).
Defined.

(** ** Further properties: the codecs of mode and owner *)

Section CodecMore.
Import vfs overlay.
Context `{GoLib}.

#[local] Arguments strconv.FormatUint : simpl never.
#[local] Arguments strconv.ParseUint : simpl never.
#[local] Arguments uint32 : simpl never.
#[local] Arguments uint64 : simpl never.
#[local] Arguments IsSidecarPath : simpl never.
#[local] Arguments ParsePosixMode : simpl never.
#[local] Arguments ParsePosixTime : simpl never.

Lemma digitVal_digitChar_any (d : Z) :
  0 <= d < 36 -> strconv.digitVal (strconv.digitChar d) = Some d.
Proof.
  intros Hd. rewrite <- (Z2Nat.id d) by lia.
  assert (Hn : (Z.to_nat d < 36)%nat) by lia.
  revert Hn. generalize (Z.to_nat d). intros n Hn.
  do 36 (destruct n as [|n]; [reflexivity |]). lia.
Qed.

(** A digit below eight is one of the characters '0' to '7'. *)
Lemma digitVal_octal (c : ascii) (d : Z) :
  strconv.digitVal c = Some d -> d < 8 -> (48 <= nat_of_ascii c <= 55)%nat.
Proof.
  unfold strconv.digitVal. set (n := Z.of_nat (nat_of_ascii c)).
  assert (Hn : n = Z.of_nat (nat_of_ascii c)) by reflexivity. clearbody n.
  destruct (Z.leb_spec 48 n), (Z.leb_spec n 57); cbn [andb];
    try (intros [= <-]; lia).
  all: destruct (Z.leb_spec 97 n), (Z.leb_spec n 122); cbn [andb];
    try (intros [= <-]; lia).
  all: destruct (Z.leb_spec 65 n), (Z.leb_spec n 90); cbn [andb];
    try (intros [= <-]; lia); discriminate.
Qed.

Lemma parseDigits_octal (s : string) :
  forall a n, strconv.parseDigits s 8 a = Some n ->
    Forall (fun c => (48 <= nat_of_ascii c <= 55)%nat) (list_ascii_of_string s).
Proof.
  induction s as [|c s IH]; intros a n; cbn [strconv.parseDigits list_ascii_of_string].
  - intros _. constructor.
  - destruct (strconv.digitVal c) as [d|] eqn:Hd; [| discriminate].
    destruct (Z.ltb_spec d 8) as [Hlt | _]; [| discriminate].
    intros Hp. constructor; [now apply (digitVal_octal c d) | exact (IH _ n Hp)].
Qed.

(** Reading back, in any base, the digits that [formatBits] wrote in front of
    [acc]. *)
Lemma parse_formatBits_base (b : Z) (fuel : nat) :
  2 <= b <= 36 ->
  forall (n : Z) (acc : string),
    0 <= n < b ^ Z.of_nat fuel ->
    exists k, 0 <= k /\
      forall a, strconv.parseDigits (strconv.formatBits fuel n b acc) b a =
                strconv.parseDigits acc b (a * b ^ k + n).
Proof.
  intros Hb. induction fuel as [|fuel IH]; intros n acc Hn.
  - exists 0. split; [lia |]. intros a. cbn in *.
    replace n with 0 by lia. f_equal. lia.
  - assert (Hmod : 0 <= n mod b < b) by (apply Z.mod_pos_bound; lia).
    assert (Hstep : forall a,
        strconv.parseDigits (String (strconv.digitChar (n mod b)) acc) b a =
        strconv.parseDigits acc b (a * b + n mod b)).
    { intros a. cbn [strconv.parseDigits].
      rewrite digitVal_digitChar_any by lia.
      destruct (Z.ltb_spec (n mod b) b) as [_ | Hge]; [reflexivity | lia]. }
    cbn [strconv.formatBits].
    pose proof (Z.div_mod n b ltac:(lia)) as Hdm.
    destruct (Z.eqb_spec (n / b) 0) as [Hz | Hnz].
    + exists 1. split; [lia |]. intros a. rewrite Hstep. f_equal.
      rewrite Z.pow_1_r. rewrite Hz in Hdm. lia.
    + assert (Hq : 0 <= n / b < b ^ Z.of_nat fuel).
      { split; [apply Z.div_pos; lia |].
        apply Z.div_lt_upper_bound; [lia |].
        replace (b * b ^ Z.of_nat fuel) with (b ^ Z.of_nat (S fuel)); [lia |].
        rewrite Nat2Z.inj_succ, Z.pow_succ_r by lia. reflexivity. }
      destruct (IH (n / b) (String (strconv.digitChar (n mod b)) acc) Hq)
        as (k & Hk & Hparse).
      exists (k + 1). split; [lia |]. intros a.
      rewrite Hparse, Hstep. f_equal.
      rewrite Z.pow_add_r, Z.pow_1_r by lia.
      rewrite Hdm at 3. ring.
Qed.

Lemma formatBits_nonempty_base (b : Z) (fuel : nat) (n : Z) (acc : string) :
  (fuel <> O \/ acc <> "") -> strconv.formatBits fuel n b acc <> "".
Proof.
  revert n acc. induction fuel as [|fuel IH]; intros n acc Hne.
  - cbn. destruct Hne; [congruence | assumption].
  - cbn [strconv.formatBits]. destruct (n / b =? 0); [discriminate |].
    apply IH. right. discriminate.
Qed.

(** [ParseUint] reads what [FormatUint] wrote, in the same base, and accepts
    it exactly when the number fits the bit size. *)
Lemma ParseUint_FormatUint_base (b bits n : Z) :
  2 <= b <= 36 -> 0 <= n < 2 ^ 64 ->
  strconv.ParseUint (strconv.FormatUint n b) b bits =
  if n <? 2 ^ bits then Some n else None.
Proof.
  intros Hb Hn. unfold strconv.ParseUint, strconv.FormatUint.
  assert (Hfuel : (64 <> 0)%nat) by discriminate.
  assert (Hbound : 0 <= n < b ^ Z.of_nat 64).
  { split; [lia |]. eapply Z.lt_le_trans; [apply Hn |].
    change (2 ^ 64) with (2 ^ Z.of_nat 64). apply Z.pow_le_mono_l. lia. }
  revert Hfuel Hbound. generalize 64%nat. intros fuel Hfuel Hbound.
  pose proof (formatBits_nonempty_base b fuel n "" (or_introl Hfuel)) as Hne.
  destruct (parse_formatBits_base b fuel Hb n "" Hbound) as (k & _ & Hparse).
  destruct (strconv.formatBits fuel n b "") as [|c rest] eqn:Hf; [congruence |].
  rewrite Hparse. cbn [strconv.parseDigits]. rewrite Z.mul_0_l, Z.add_0_l.
  reflexivity.
Qed.

(** [ParsePosixMode] on every string: the result is a 32-bit value; it is 0
    for the empty string; a result other than 0 comes only from a string that
    is not empty and holds octal digits alone; and a leading zero, as in the
    form 040755 of the comment of [FormatPosixMode], does not change the
    value. *)
Theorem ParsePosixMode_accepts_octal_only (s : string) :
  0 <= ParsePosixMode s < 2 ^ 32 /\
  ParsePosixMode "" = 0 /\
  (ParsePosixMode s <> 0 ->
     s <> "" /\
     Forall (fun c => (48 <= nat_of_ascii c <= 55)%nat) (list_ascii_of_string s)) /\
  (s <> "" -> ParsePosixMode (String "0" s) = ParsePosixMode s).
Proof.
  split; [| split; [reflexivity | split]].
  - unfold ParsePosixMode. destruct (strconv.ParseUint s 8 32) as [u|]; [| lia].
    unfold uint32. apply Z.mod_pos_bound. lia.
  - unfold ParsePosixMode, strconv.ParseUint. intros Hnz.
    destruct s as [|c s]; [congruence |]. split; [discriminate |].
    destruct (strconv.parseDigits (String c s) 8 0) as [n|] eqn:Hp; [| congruence].
    now apply (parseDigits_octal _ 0 n).
  - intros Hne. unfold ParsePosixMode, strconv.ParseUint.
    destruct s as [|c s]; [congruence |]. reflexivity.
Qed.

(** The owner that an overlay reads from the record that [Chown] (of the
    share) and [Setattr] (of the mount) write for a uid and a gid: the decimal
    digits of the number as a [uint64]. A uid or gid from 0 to 2^32 - 1 is
    read back as itself; any other one, a negative one in particular (it
    wraps around to a number of twenty digits), is refused by the overlay,
    which then reports the default owner of the VFS. *)
Theorem owner_round_trip (m : PosixMeta) (uid gid : Z) :
  let m' := setGID (setUID m (strconv.FormatUint (uint64 uid) 10))
                   (strconv.FormatUint (uint64 gid) 10) in
  (forall a : mount.FuseAttr,
     mount.aUid (mount.overlayAttr a m') =
       (if uint64 uid <? 2 ^ 32 then uint64 uid else mount.aUid a) /\
     mount.aGid (mount.overlayAttr a m') =
       (if uint64 gid <? 2 ^ 32 then uint64 gid else mount.aGid a)) /\
  (forall St (h : handler AdE St) (st : St) (fi : FileInfo),
     vfscommon.PersistMetadata (nodeOpt fi) = true ->
     IsSidecarPath (storeOf (nodeOpt fi)) (nodePath fi) = false ->
     (h _ (StoreLoad (storeOf (nodeOpt fi)) (nodePath fi)) st).1 = (m', None) ->
     nodeSys (exec h (nfs.setSys fi) st).1.1 =
       Some {| Nlink := 1;
               sysUID := if uint64 uid <? 2 ^ 32 then uint64 uid
                         else vfscommon.UID (nodeOpt fi);
               sysGID := if uint64 gid <? 2 ^ 32 then uint64 gid
                         else vfscommon.GID (nodeOpt fi);
               Fileid := nodeInode fi |}) /\
  (0 <= uid < 2 ^ 32 -> uint64 uid = uid /\ (uint64 uid <? 2 ^ 32) = true) /\
  (- 2 ^ 63 <= uid < 0 -> (uint64 uid <? 2 ^ 32) = false).
Proof.
  intros m'.
  assert (Hrange : forall z, 0 <= uint64 z < 2 ^ 64)
    by (intros z; unfold uint64; apply Z.mod_pos_bound; lia).
  assert (Hparse : forall z,
    strconv.ParseUint (strconv.FormatUint (uint64 z) 10) 10 32 =
    if uint64 z <? 2 ^ 32 then Some (uint64 z) else None)
    by (intros z; apply ParseUint_FormatUint_base; [lia | apply Hrange]).
  assert (Hsmall : forall z, uint64 z < 2 ^ 32 -> uint32 (uint64 z) = uint64 z).
  { intros z Hz. unfold uint32. apply Z.mod_small. split; [apply Hrange | exact Hz]. }
  split; [| split; [| split]].
  - intros a. unfold mount.overlayAttr. subst m'.
    cbn [UID GID setUID setGID mount.aUid mount.aGid].
    rewrite !Hparse.
    destruct (Z.ltb_spec (uint64 uid) (2 ^ 32)), (Z.ltb_spec (uint64 gid) (2 ^ 32));
      rewrite ?Hsmall by assumption; split; reflexivity.
  - intros St h st fi Hp Hs Hl. unfold nfs.setSys. rewrite Hp, Hs. cbn.
    destruct (h _ (StoreLoad (storeOf (nodeOpt fi)) (nodePath fi)) st) as [[m0 e0] st1].
    cbn in Hl. injection Hl as -> ->. cbn. subst m'. cbn [UID GID setUID setGID].
    rewrite !Hparse.
    destruct (Z.ltb_spec (uint64 uid) (2 ^ 32)), (Z.ltb_spec (uint64 gid) (2 ^ 32));
      cbn; rewrite ?Hsmall by assumption; reflexivity.
  - intros Hu. assert (Heq : uint64 uid = uid).
    { unfold uint64. apply Z.mod_small. lia. }
    rewrite Heq. split; [reflexivity |]. apply Z.ltb_lt. lia.
  - intros Hu. apply Z.ltb_ge. unfold uint64.
    replace (uid mod 2 ^ 64) with (uid + 2 ^ 64); [lia |].
    rewrite <- (Z.mod_small (uid + 2 ^ 64) (2 ^ 64)) by lia.
    rewrite <- Z.add_mod_idemp_r, Z.mod_same, Z.add_0_r by lia. reflexivity.
Qed.

End CodecMore.

(** ** Further properties: the specialized store *)

Section RunsMore.
Context {E : Type -> Type} {St : Type} (h : handler E St).

(** What holds of the state a run starts from and of the state after each
    of its calls holds of the state it ends in. *)
Lemma final_of_log {A} (p : Prog E A) (st : St) (P : St -> Prop) :
  P st -> Forall (fun en => P (afterOf en)) (exec h p st).2 -> P (exec h p st).1.2.
Proof.
  revert st. induction p as [a | X e k IH]; intros st Hst Hlog; [exact Hst |].
  cbn [exec] in *. destruct (h X e st) as [x st1].
  specialize (IH x st1).
  destruct (exec h (k x) st1) as [[a st2] log]. cbn in *.
  apply Forall_cons in Hlog as [H1 Hlog]. now apply IH.
Qed.

End RunsMore.

Section PosixStoreMore.
Import vfs vfsmodel.
Context `{GoLib}.

#[local] Arguments commit : simpl never.

Ltac map_step :=
  first [ rewrite lookup_insert_eq | rewrite lookup_delete_eq
        | rewrite lookup_insert_ne by congruence
        | rewrite lookup_delete_ne by congruence ].

Ltac run_model := cbn; repeat (progress (repeat map_step; cbn)).

Lemma merge_record (cur m : PosixMeta) :
  merge cur m =
  {| Mode := if Mode m is Some _ then Mode m else Mode cur;
     UID := if UID m is Some _ then UID m else UID cur;
     GID := if GID m is Some _ then GID m else GID cur;
     Mtime := if Mtime m is Some _ then Mtime m else Mtime cur;
     Atime := if Atime m is Some _ then Atime m else Atime cur;
     Btime := if Btime m is Some _ then Btime m else Btime cur |}.
Proof. destruct m as [[?|] [?|] [?|] [?|] [?|] [?|]], cur; reflexivity. Qed.

Lemma merge_assoc (a b c : PosixMeta) :
  merge (merge a b) c = merge a (merge b c).
Proof.
  rewrite !merge_record. cbn [Mode UID GID Mtime Atime Btime].
  f_equal;
    match goal with
    | |- context [match ?f c with _ => _ end] =>
        destruct (f c); [reflexivity |];
        match goal with
        | |- context [match ?g b with _ => _ end] => destruct (g b); reflexivity
        end
    end.
Qed.

(** The merge of [Save] as an operation on records: the empty record is
    neutral on both sides, merging is associative and merging the same
    record again changes nothing, so saving [a] and then [b] persists what
    saving the merge of [a] and [b] persists. A merge sets fields and
    replaces them but never clears one: a record with a field set keeps
    that field set under every merge. *)
Theorem merge_laws (a b c : PosixMeta) :
  merge a emptyMeta = a /\
  merge emptyMeta a = a /\
  merge (merge a b) c = merge a (merge b c) /\
  merge (merge a b) b = merge a b /\
  (PosixAnyFieldSet a = false <-> a = emptyMeta) /\
  PosixAnyFieldSet (merge a b) = PosixAnyFieldSet a || PosixAnyFieldSet b /\
  (notNil (Mode a) = true -> notNil (Mode (merge a b)) = true) /\
  (notNil (UID a) = true -> notNil (UID (merge a b)) = true) /\
  (notNil (GID a) = true -> notNil (GID (merge a b)) = true) /\
  (notNil (Mtime a) = true -> notNil (Mtime (merge a b)) = true) /\
  (notNil (Atime a) = true -> notNil (Atime (merge a b)) = true) /\
  (notNil (Btime a) = true -> notNil (Btime (merge a b)) = true).
Proof.
  split; [destruct a; reflexivity |].
  split; [apply merge_empty |].
  split; [apply merge_assoc |].
  split.
  { rewrite !merge_record. cbn [Mode UID GID Mtime Atime Btime].
    f_equal;
      match goal with
      | |- context [match ?g b with _ => _ end] => destruct (g b); reflexivity
      end. }
  split.
  { split.
    - destruct a as [[?|] [?|] [?|] [?|] [?|] [?|]]; cbn;
        first [discriminate | reflexivity].
    - intros ->. reflexivity. }
  rewrite merge_record. unfold PosixAnyFieldSet. cbn [Mode UID GID Mtime Atime Btime].
  split.
  { destruct (Mode b), (UID b), (GID b), (Mtime b), (Atime b), (Btime b); cbn;
      rewrite ?orb_true_r, ?orb_false_r; reflexivity. }
  repeat split;
    match goal with
    | |- _ -> notNil (match ?x with _ => _ end) = true =>
        destruct x; [reflexivity | tauto]
    end.
Qed.

(** What [Save] leaves on a VFS without failures. *)
Lemma Save_healthy (s : PosixMetaStore) (path : string) (m : PosixMeta)
    (fs : gmap string bytes) (enc : bytes) :
  IsSidecarPath s path = false ->
  jsonMarshal (merge (exec run (Load s path) (healthy fs)).1.1.1 m) = (enc, None) ->
  (exec run (Save s path m) (healthy fs)).1 =
  (None, healthy (<[metaPath s path := enc]>
                    (delete (metaPath s path +:+ ".tmp") fs))).
Proof.
  intros Hn Henc. rewrite Save_steps by assumption. rewrite exec_bind.
  rewrite Load_healthy in * by assumption. cbn in Henc.
  set (r := match fs !! metaPath s path with Some b => _ | None => _ end) in *.
  destruct r as [cur e0]. cbn in Henc.
  pose proof (commit_healthy s path (merge cur m) fs enc Henc) as HC. cbn in HC.
  destruct (exec run (commit s path (merge cur m)) (healthy fs)) as [[err st'] log].
  cbn in HC. injection HC as -> ->. cbn. f_equal. f_equal.
  assert (Hne : metaPath s path +:+ ".tmp" <> metaPath s path)
    by (apply append_nonempty_neq; discriminate).
  apply map_eq. intros k.
  destruct (decide (k = metaPath s path)) as [-> | Hk];
    [repeat map_step; reflexivity |].
  destruct (decide (k = metaPath s path +:+ ".tmp")) as [-> | Hk'];
    repeat map_step; reflexivity.
Qed.

(** Two [Save]s in a row, on a VFS without failures and with records that
    the codec carries faithfully: both succeed, and they leave the very files
    that the one [Save] of the merge of the two records leaves, the sidecar
    holding the encoding of current, first and second record merged in that
    order. *)
Theorem Save_composes (s : PosixMetaStore) (path : string) (a b : PosixMeta)
    (fs : gmap string bytes) (enc1 enc2 : bytes) :
  IsSidecarPath s path = false ->
  let cur := (exec run (Load s path) (healthy fs)).1.1.1 in
  jsonMarshal (merge cur a) = (enc1, None) ->
  enc1 <> [] ->
  jsonUnmarshal enc1 = (merge cur a, None) ->
  jsonMarshal (merge (merge cur a) b) = (enc2, None) ->
  let '(e1, st1, _) := exec run (Save s path a) (healthy fs) in
  let '(e2, st2, _) := exec run (Save s path b) st1 in
  let '(e3, st3, _) := exec run (Save s path (merge a b)) (healthy fs) in
  e1 = None /\ e2 = None /\ e3 = None /\
  files st2 !! metaPath s path = Some enc2 /\
  st2 = st3.
Proof.
  intros Hn cur H1 Hne1 Hdec H2.
  assert (Htmp : metaPath s path +:+ ".tmp" <> metaPath s path)
    by (apply append_nonempty_neq; discriminate).
  pose proof (Save_healthy s path a fs enc1 Hn H1) as Ha.
  destruct (exec run (Save s path a) (healthy fs)) as [[e1 st1] log1].
  cbn in Ha. injection Ha as -> ->.
  set (fs1 := <[metaPath s path := enc1]> (delete (metaPath s path +:+ ".tmp") fs)).
  assert (Hcur1 : (exec run (Load s path) (healthy fs1)).1.1.1 = merge cur a).
  { rewrite Load_healthy by assumption. cbn. unfold fs1. rewrite lookup_insert_eq.
    destruct enc1; [congruence |]. cbn. now rewrite Hdec. }
  assert (H2' : jsonMarshal (merge (exec run (Load s path) (healthy fs1)).1.1.1 b)
                = (enc2, None)) by (now rewrite Hcur1).
  pose proof (Save_healthy s path b fs1 enc2 Hn H2') as Hb.
  destruct (exec run (Save s path b) (healthy fs1)) as [[e2 st2] log2].
  cbn in Hb. injection Hb as -> ->.
  assert (H3 : jsonMarshal (merge (exec run (Load s path) (healthy fs)).1.1.1
                              (merge a b)) = (enc2, None)).
  { fold cur. now rewrite <- merge_assoc. }
  pose proof (Save_healthy s path (merge a b) fs enc2 Hn H3) as Hc.
  destruct (exec run (Save s path (merge a b)) (healthy fs)) as [[e3 st3] log3].
  cbn in Hc. injection Hc as -> ->.
  repeat split; [cbn; now rewrite lookup_insert_eq |].
  unfold healthy. f_equal. unfold fs1.
  apply map_eq. intros k.
  destruct (decide (k = metaPath s path)) as [-> | Hk];
    [repeat map_step; reflexivity |].
  destruct (decide (k = metaPath s path +:+ ".tmp")) as [-> | Hk'];
    repeat map_step; reflexivity.
Qed.

(** The steps of [Save] after the merge change, at any moment and under any
    failures, no file but the sidecar and the temporary file. *)
Lemma commit_frame (s : PosixMetaStore) (path : string) (cur : PosixMeta)
    (st : state) (q : string) :
  q <> metaPath s path -> q <> metaPath s path +:+ ".tmp" ->
  Forall (fun en => files (afterOf en) !! q = files st !! q)
         (exec run (commit s path cur) st).2.
Proof.
  intros Hp Ht. unfold commit.
  assert (Hne : metaPath s path +:+ ".tmp" <> metaPath s path)
    by (apply append_nonempty_neq; discriminate).
  set (p := metaPath s path) in *. set (tmp := p +:+ ".tmp") in *.
  clearbody tmp. clearbody p.
  destruct st as [fs pl].
  destruct (jsonMarshal cur) as [enc [e|]].
  all: destruct pl as [|[f1|] [|[f2|] [|[f3|] [|[f4|] [|[f5|] pl]]]]]; run_model.
  all: repeat (apply List.Forall_cons; [run_model; reflexivity |]).
  all: apply List.Forall_nil.
Qed.

(** The store works on sidecars only. Whatever the VFS holds and whichever
    calls fail: [Load] changes no file at all; [Save] changes, at no moment
    of its run, a file other than the sidecar of its path and the temporary
    file next to it; [Delete] changes no file other than the sidecar; and
    [Rename] none other than the sidecars of its two paths. The object a
    sidecar belongs to is never touched. *)
Theorem store_touches_only_sidecars (s : PosixMetaStore) (path newPath : string)
    (m : PosixMeta) (st : state) (q : string) :
  files (exec run (Load s path) st).1.2 = files st /\
  (q <> metaPath s path -> q <> metaPath s path +:+ ".tmp" ->
   Forall (fun en => files (afterOf en) !! q = files st !! q)
          (exec run (Save s path m) st).2 /\
   files (exec run (Save s path m) st).1.2 !! q = files st !! q) /\
  (q <> metaPath s path ->
   files (exec run (Delete s path) st).1.2 !! q = files st !! q) /\
  (q <> metaPath s path -> q <> metaPath s newPath ->
   files (exec run (Rename s path newPath) st).1.2 !! q = files st !! q) /\
  metaPath s path <> path.
Proof.
  split; [| split; [| split; [| split]]].
  - pose proof (Load_model s path st) as HL.
    destruct (exec run (Load s path) st) as [[r st1] log]. apply HL.
  - intros Hp Ht.
    assert (Hall : Forall (fun en => files (afterOf en) !! q = files st !! q)
                          (exec run (Save s path m) st).2).
    { destruct (IsSidecarPath s path) eqn:Hn.
      { unfold Save. rewrite Hn. constructor. }
      rewrite Save_steps by assumption. rewrite exec_bind.
      pose proof (Load_model s path st) as HL.
      destruct (exec run (Load s path) st) as [[[cur e0] st1] log1].
      destruct HL as (Hfiles & _ & _ & Hlog1).
      pose proof (commit_frame s path (merge cur m) st1 q Hp Ht) as HF.
      destruct (exec run (commit s path (merge cur m)) st1) as [[err st2] log2].
      cbn in HF |- *. rewrite Hfiles in HF.
      apply Forall_app_2; [| exact HF].
      eapply Forall_impl; [exact Hlog1 |]. intros en Hen. now rewrite Hen. }
    split; [exact Hall |].
    apply (final_of_log run (Save s path m) st
             (fun st' => files st' !! q = files st !! q) eq_refl Hall).
  - intros Hp. unfold Delete. destruct (IsSidecarPath s path); [reflexivity |].
    destruct st as [fs [|[f|] pl]]; cbn; try reflexivity.
    all: destruct (fs !! metaPath s path); cbn; [| reflexivity].
    all: now rewrite lookup_delete_ne by congruence.
  - intros Hp Hq. unfold Rename.
    destruct (IsSidecarPath s path || IsSidecarPath s newPath); [reflexivity |].
    destruct st as [fs [|[f1|] [|[f2|] pl]]]; cbn; try reflexivity.
    all: destruct (fs !! metaPath s path) as [b|] eqn:Hb; cbn; rewrite ?Hb; cbn;
      try reflexivity.
    all: repeat map_step; reflexivity.
  - destruct (metaPath_suffix s path) as (e & He & ->).
    now apply append_nonempty_neq.
Qed.

(** [Delete] of a sidecar that exists, on a VFS without failures: it
    returns [nil] and removes the sidecar file and nothing else; [Load] then
    finds nothing, and a second [Delete] fails with the "no such file" error
    of the VFS. *)
Theorem Delete_then_Load (s : PosixMetaStore) (path : string)
    (fs : gmap string bytes) (b : bytes) :
  IsSidecarPath s path = false ->
  fs !! metaPath s path = Some b ->
  let '(e1, st1, _) := exec run (Delete s path) (healthy fs) in
  e1 = None /\
  st1 = healthy (delete (metaPath s path) fs) /\
  (exec run (Load s path) st1).1.1 = (emptyMeta, Some ENOENT) /\
  (exec run (Delete s path) st1).1 = (Some ENOENT, st1).
Proof.
  intros Hn Hb.
  assert (H1 : exec run (Delete s path) (healthy fs) =
               (None, healthy (delete (metaPath s path) fs),
                [Entry (VfsRemove (metaPath s path)) None
                   (healthy (delete (metaPath s path) fs))])).
  { rewrite Delete_is_Remove by assumption. cbn. rewrite Hb. reflexivity. }
  rewrite H1. cbv beta iota.
  split; [reflexivity |]. split; [reflexivity |].
  rewrite Load_healthy by assumption.
  rewrite Delete_missing by (first [assumption | apply lookup_delete_eq]).
  rewrite lookup_delete_eq. split; reflexivity.
Qed.

(** [Rename] under failures. Whatever the VFS holds and whichever calls
    fail, [Rename] either leaves every file as it was or moves the whole
    sidecar and returns [nil]; an error means that nothing has changed. When
    it is the [Stat] of the old sidecar that fails, for whatever reason,
    [Rename] returns [nil] and moves nothing, even if the sidecar exists:
    the record then stays behind under the old name. *)
Theorem Rename_under_failures (s : PosixMetaStore) (oldPath newPath : string)
    (st : state) :
  let oldM := metaPath s oldPath in
  let newM := metaPath s newPath in
  let '(err, st', _) := exec run (Rename s oldPath newPath) st in
  (files st' = files st \/
   exists b, files st !! oldM = Some b /\ err = None /\
             files st' = <[newM := b]> (delete oldM (files st))) /\
  (err <> None -> files st' = files st) /\
  (forall f pl, plan st = Some f :: pl -> err = None /\ files st' = files st).
Proof.
  intros oldM newM. unfold Rename. fold oldM. fold newM.
  destruct (IsSidecarPath s oldPath || IsSidecarPath s newPath).
  { cbn. split; [now left |]. split; [congruence | intros; split; reflexivity]. }
  destruct st as [fs [|[f1|] [|[f2|] pl]]]; cbn.
  all: destruct (fs !! oldM) as [b|] eqn:Hb; cbn; rewrite ?Hb; cbn.
  all: split; [first [now left | right; exists b; repeat split; reflexivity] |].
  all: split; [first [reflexivity | congruence] |].
  all: intros f pl' Hpl; first [discriminate Hpl | split; reflexivity].
Qed.

End PosixStoreMore.

Lemma Save_composes_witness :
  let enc1 := bytes_of_string (golib.json "{'mode':'100644','uid':'1000'}") in
  let enc2 := bytes_of_string (golib.json "{'mode':'100600','uid':'1000'}") in
  let b := {| vfs.Mode := Some "100600"; vfs.UID := None; vfs.GID := None;
              vfs.Mtime := None; vfs.Atime := None; vfs.Btime := None |} in
  let '(_, st1, _) :=
    exec vfsmodel.run (vfs.Save sample.store "file" sample.uid1000)
         (vfsmodel.healthy sample.tracked) in
  let '(e2, st2, _) := exec vfsmodel.run (vfs.Save sample.store "file" b) st1 in
  enc1 <> [] /\ e2 = None /\
  vfsmodel.files st2 !! "file.posixmeta" = Some enc2.
Proof.
  intros enc1 enc2 b.
  assert (Hne : enc1 <> []) by discriminate.
  pose proof (Save_composes (H := golib.lib) sample.store "file" sample.uid1000 b
                sample.tracked enc1 enc2 eq_refl eq_refl Hne eq_refl eq_refl) as Hthm.
  destruct (exec vfsmodel.run (vfs.Save sample.store "file" sample.uid1000)
              (vfsmodel.healthy sample.tracked)) as [[e1 st1] log1].
  destruct (exec vfsmodel.run (vfs.Save sample.store "file" b) st1) as [[e2 st2] log2].
  destruct (exec vfsmodel.run
              (vfs.Save sample.store "file" (vfs.merge sample.uid1000 b))
              (vfsmodel.healthy sample.tracked)) as [[e3 st3] log3].
  destruct Hthm as (_ & He2 & _ & Hf & _).
  split; [exact Hne |]. split; [exact He2 | exact Hf].
Defined.

Lemma Delete_then_Load_witness :
  vfs.IsSidecarPath sample.store "file" = false /\
  sample.tracked !! vfs.metaPath sample.store "file" =
    Some (bytes_of_string (golib.json "{'mode':'100644'}")) /\
  let '(e1, st1, _) :=
    exec vfsmodel.run (vfs.Delete sample.store "file")
         (vfsmodel.healthy sample.tracked) in
  e1 = None /\
  (exec vfsmodel.run (vfs.Load (H := golib.lib) sample.store "file") st1).1.1 =
    (vfs.emptyMeta, Some ENOENT).
Proof.
  split; [reflexivity |]. split; [reflexivity |].
  pose proof (Delete_then_Load (H := golib.lib) sample.store "file" sample.tracked _
                eq_refl eq_refl) as Hthm.
  destruct (exec vfsmodel.run (vfs.Delete sample.store "file")
              (vfsmodel.healthy sample.tracked)) as [[e1 st1] log1].
  destruct Hthm as (He & _ & Hl & _).
  split; [exact He | exact Hl].
Defined.

(** ** Further properties: the generic store *)

Section GenericStore.
Import vfs vfsmodel.
Variable Meta : Type.
Variable zero : Meta.
Variable jsonMarshal : Meta -> bytes * option error.
Variable jsonUnmarshal : bytes -> Meta * option error.

(** The generic store round-trips, on a VFS without failures and for a
    record that the codec carries faithfully: [Save] succeeds and leaves the
    encoded record as the whole content of the sidecar, whatever the sidecar
    held before (there is no merge) and without touching another file;
    [Load] then returns the record, also when the path is given in another
    form that has the same sidecar name (a directory with and without its
    trailing separator) and whatever the directory flags say. *)
Theorem generic_round_trip (s : sidecarStore) (p p' : string) (isDir isDir' : bool)
    (m : Meta) (fs : gmap string bytes) (enc : bytes) :
  name s p' = name s p ->
  jsonMarshal m = (enc, None) ->
  jsonUnmarshal enc = (m, None) ->
  let '(e1, st1, _) :=
    exec sidecar.run (sidecar.Save Meta jsonMarshal s p isDir m) (healthy fs) in
  e1 = None /\
  st1 = healthy (<[name s p := enc]> fs) /\
  (exec sidecar.run (sidecar.Load Meta zero jsonUnmarshal s p' isDir') st1).1.1 =
    (m, None).
Proof.
  intros Hname Henc Hdec. unfold sidecar.Save, sidecar.Load.
  rewrite Henc, Hname. cbn. rewrite lookup_insert_eq. cbn. rewrite Hdec. cbn.
  repeat split.
Qed.

(** The generic store is strict and has no guard. On a VFS without
    failures: with no sidecar, [Load], [Delete] and [Rename] all return the
    "no such file" error of the VFS and change nothing ([Rename] too, where
    the specialized store returns [nil]); a sidecar that does not decode, an
    empty one included, makes [Load] return the decoder's error with the zero
    record; a record that does not encode makes [Save] return the encoder's
    error without any call to the VFS. *)
Theorem generic_store_is_strict (s : sidecarStore) (p q : string) (isDir : bool)
    (fs : gmap string bytes) :
  (fs !! name s p = None ->
     (exec sidecar.run (sidecar.Load Meta zero jsonUnmarshal s p isDir)
           (healthy fs)).1 = ((zero, Some ENOENT), healthy fs) /\
     (exec sidecar.run (sidecar.Delete s p isDir) (healthy fs)).1 =
       (Some ENOENT, healthy fs) /\
     (exec sidecar.run (sidecar.Rename s p q isDir) (healthy fs)).1 =
       (Some ENOENT, healthy fs)) /\
  (forall b z e, fs !! name s p = Some b -> jsonUnmarshal b = (z, Some e) ->
     (exec sidecar.run (sidecar.Load Meta zero jsonUnmarshal s p isDir)
           (healthy fs)).1 = ((zero, Some e), healthy fs)) /\
  (forall m b e, jsonMarshal m = (b, Some e) ->
     sidecar.Save Meta jsonMarshal s p isDir m = Ret (Some e)).
Proof.
  split; [| split].
  - intros Hm. unfold sidecar.Load, sidecar.Delete, sidecar.Rename. cbn.
    rewrite Hm. cbn. repeat split.
  - intros b z e Hb Hu. unfold sidecar.Load. cbn. rewrite Hb. cbn. rewrite Hu.
    reflexivity.
  - intros m b e Hm. unfold sidecar.Save. rewrite Hm. reflexivity.
Qed.

End GenericStore.

(** The directory "dir", saved under the name "dir/" and loaded under the
    name "dir". *)
Lemma generic_round_trip_witness :
  let s := vfs.newSidecarStore ".meta" in
  let enc := bytes_of_string (golib.json "{'mode':'100600'}") in
  let m := {| vfs.Mode := Some "100600"; vfs.UID := None; vfs.GID := None;
              vfs.Mtime := None; vfs.Atime := None; vfs.Btime := None |} in
  vfs.name s "dir" = vfs.name s "dir/" /\
  let '(e1, st1, _) :=
    exec sidecar.run (sidecar.Save vfs.PosixMeta golib.Marshal s "dir/" true m)
         (vfsmodel.healthy ∅) in
  e1 = None /\
  (exec sidecar.run
     (sidecar.Load vfs.PosixMeta vfs.emptyMeta golib.Unmarshal s "dir" false) st1).1.1 =
  (m, None).
Proof.
  intros s enc m. split; [reflexivity |].
  pose proof (generic_round_trip vfs.PosixMeta vfs.emptyMeta golib.Marshal
                golib.Unmarshal s "dir/" "dir" true false m ∅ enc
                eq_refl eq_refl eq_refl) as Hthm.
  destruct (exec sidecar.run (sidecar.Save vfs.PosixMeta golib.Marshal s "dir/" true m)
              (vfsmodel.healthy ∅)) as [[e1 st1] log1].
  destruct Hthm as (He & _ & Hl). split; [exact He | exact Hl].
Defined.

(** ** Further properties: the adapters on any VFS *)

Section AdaptersMore.
Import vfs overlay overlaylog.
Context `{GoLib} {St : Type} (h : handler AdE St).

#[local] Arguments FormatPosixMode : simpl never.
#[local] Arguments ParsePosixMode : simpl never.
#[local] Arguments ParsePosixTime : simpl never.
#[local] Arguments strconv.FormatUint : simpl never.
#[local] Arguments strconv.ParseUint : simpl never.
#[local] Arguments uint32 : simpl never.
#[local] Arguments uint64 : simpl never.
#[local] Arguments int64 : simpl never.
#[local] Arguments IsSidecarPath : simpl never.
#[local] Arguments PosixAnyFieldSet : simpl never.
#[local] Arguments Z.ldiff : simpl never.
#[local] Arguments Z.div : simpl never.
#[local] Arguments Z.add : simpl never.
#[local] Arguments isNil !e.
#[local] Arguments notNil {A} !p.

Ltac run_case :=
  match goal with
  | |- context [h ?X ?e ?s] =>
      let r := fresh "r" in
      let s' := fresh "st" in
      destruct (h X e s) as [r s']; cbn
  | |- context [isNil ?o] => is_var o; destruct o; cbn
  | |- context [vfscommon.PersistMetadata ?o] =>
      destruct (vfscommon.PersistMetadata o); cbn
  | |- context [vfscommon.NoModTime ?o] =>
      destruct (vfscommon.NoModTime o); cbn
  | |- context [IsSidecarPath ?s ?p] => destruct (IsSidecarPath s p); cbn
  | |- context [PosixAnyFieldSet ?m] => destruct (PosixAnyFieldSet m); cbn
  | |- context [decide (?a = ?b)] => destruct (decide (a = b)); cbn
  | |- context [exec h (match ?r with _ => _ end)] => destruct r; cbn
  | |- context [mbind _ (match ?r with _ => _ end)] => destruct r; cbn
  | |- context [bind (match ?r with _ => _ end) _] => destruct r; cbn
  end.

(** Only the object decides the outcome of a change. On any VFS, the error
    that [Chmod], [Chown] and [Chtimes] of the share return is the first
    failure of a live operation of the run ([ENOSYS] from the live chmod not
    being one), [nil] if there is none; [Setattr] of the mount returns the
    translation of the first failure among its truncate and its set of the
    modification time. No answer of the store, of the close of the file, of
    the log or of the attribute cache changes what is returned: a [Save]
    that fails never fails the operation. *)
Theorem primary_error_only (st : St) :
  (forall (f : nfs.FS) (name : string) (mode : Z),
     let '(err, _, log) := exec h (nfs.Chmod f name mode) st in
     err = firstFailure log) /\
  (forall (f : nfs.FS) (name : string) (uid gid : Z),
     let '(err, _, log) := exec h (nfs.Chown f name uid gid) st in
     err = firstFailure log) /\
  (forall (f : nfs.FS) (name : string) (atime mtime : Time),
     let '(err, _, log) := exec h (nfs.Chtimes f name atime mtime) st in
     err = firstFailure log) /\
  (forall (tr : option error -> option error) (f : mount.File)
          (req : mount.SetattrRequest),
     let '(err, _, log) := exec h (mount.Setattr tr f req) st in
     err = tr (firstFailure log)).
Proof.
  split; [| split; [| split]].
  - intros f name mode. unfold nfs.Chmod, when, logIfError, firstFailure. cbn.
    repeat run_case; first [reflexivity | contradiction | congruence].
  - intros f name uid gid. unfold nfs.Chown, when, logIfError, firstFailure. cbn.
    repeat run_case; reflexivity.
  - intros f name atime mtime. unfold nfs.Chtimes, when, firstFailure. cbn.
    repeat run_case; reflexivity.
  - intros tr f req. unfold mount.Setattr, when, logIfError, firstFailure,
      mount.firstError.
    destruct (mount.validSize req), (mount.validMtime req), (mount.validMtimeNow req),
      (mount.validAtime req), (mount.validAtimeNow req); cbn.
    all: repeat run_case.
    all: repeat match goal with
                | |- context [match ?r with Some _ => _ | None => _ end] =>
                    is_var r; destruct r; cbn
                end; reflexivity.
Qed.

(** [Setattr] drops the cached attributes of the node after every [Save] it
    attempts, whether that [Save] succeeded or failed, and at no other time.
    On any VFS, when persistence is enabled, the path is not a sidecar path
    and the request marks one of mode, uid, gid, access time and
    modification time valid, the run calls [Save] on the path of the file
    and then [InvalidateNodeAttr] for the same path, in this order, once
    each, and the invalidation is the last call of the run; otherwise it
    calls neither. So the calls of [InvalidateNodeAttr] are as many as the
    calls of [Save], at most one of each, and a run without persistence, or
    on a sidecar path, has none. [Setattr] never calls [Load] itself: the
    merge with the stored record is left to [Save]. *)
Theorem Setattr_invalidates_after_every_Save (st : St)
    (tr : option error -> option error) (f : mount.File) (req : mount.SetattrRequest) :
  let '(_, _, log) := exec h (mount.Setattr tr f req) st in
  persistCalls log =
    (if vfscommon.PersistMetadata (mount.Opt f) &&
        negb (IsSidecarPath (storeOf (mount.Opt f)) (mount.Path f)) &&
        (mount.validMode req || mount.validUid req || mount.validGid req ||
         mount.validAtime req || mount.validAtimeNow req ||
         mount.validMtime req || mount.validMtimeNow req)
     then [SaveCall (storeOf (mount.Opt f)) (mount.Path f);
           InvalidateCall (mount.Path f)]
     else []) /\
  (persistCalls log <> [] ->
   exists en, last log = Some en /\
     persistCallOf en = Some (InvalidateCall (mount.Path f))) /\
  length (selected (@isInvalidate) log) = length (selected (@isSave) log) /\
  (length (selected (@isSave) log) <= 1)%nat /\
  (vfscommon.PersistMetadata (mount.Opt f) &&
   negb (IsSidecarPath (storeOf (mount.Opt f)) (mount.Path f)) = false ->
   selected (@isSave) log = []) /\
  selected (@isLoad) log = [].
Proof.
  unfold mount.Setattr, when, logIfError, selected, persistCalls.
  destruct (mount.validSize req), (mount.validMtime req), (mount.validMtimeNow req),
    (mount.validAtime req), (mount.validAtimeNow req), (mount.validMode req),
    (mount.validUid req), (mount.validGid req); cbn.
  all: repeat first [ progress (unfold PosixAnyFieldSet; cbn) | run_case ].
  all: repeat split;
    first [ reflexivity | discriminate | cbn; lia
          | intros Hne; first [ now contradiction Hne
                              | eexists; split; reflexivity ] ].
Qed.

(** What the sidecar cannot change in the attributes of the mount. On any
    VFS and whatever the sidecar holds, [Attr] returns [nil] after at most
    one call, a [Load]; the size, the block count, the validity and the
    change time are those of the live file, the change time being its
    modification time (the birth time of the record is never used). The
    block count is the size in blocks of 512 bytes, rounded up, for every
    size from 0 to 2^63 - 1; a negative size wraps around to a size of
    nearly 2^64 bytes, and down to -511 to a block count of 0. *)
Theorem Attr_keeps_size_and_change_time (st : St) (f : mount.File) :
  let '(r, _, log) := exec h (mount.Attr f) st in
  r.2 = None /\
  (length log <= 1)%nat /\ selected (@isLoad) log = log /\
  mount.aCtime r.1 = mount.ModTime f /\
  mount.Valid r.1 = mount.AttrTimeout f /\
  mount.aSize r.1 = uint64 (mount.Size f) /\
  mount.aBlocks r.1 = uint64 (uint64 (mount.Size f) + 511) / 512 /\
  (0 <= mount.Size f < 2 ^ 63 ->
     mount.aSize r.1 = mount.Size f /\
     512 * (mount.aBlocks r.1 - 1) < mount.Size f <= 512 * mount.aBlocks r.1) /\
  (- 511 <= mount.Size f < 0 ->
     mount.aSize r.1 = mount.Size f + 2 ^ 64 /\ mount.aBlocks r.1 = 0).
Proof.
  assert (Hpos : 0 <= mount.Size f < 2 ^ 63 ->
    uint64 (mount.Size f) = mount.Size f /\
    512 * (uint64 (uint64 (mount.Size f) + 511) / 512 - 1) < mount.Size f
      <= 512 * (uint64 (uint64 (mount.Size f) + 511) / 512)).
  { intros Hs. unfold uint64. rewrite (Z.mod_small (mount.Size f)) by lia.
    rewrite Z.mod_small by lia. split; [reflexivity |].
    pose proof (Z.div_mod (mount.Size f + 511) 512 ltac:(lia)) as Hdm.
    pose proof (Z.mod_pos_bound (mount.Size f + 511) 512 ltac:(lia)) as Hm.
    lia. }
  assert (Hneg : - 511 <= mount.Size f < 0 ->
    uint64 (mount.Size f) = mount.Size f + 2 ^ 64 /\
    uint64 (uint64 (mount.Size f) + 511) / 512 = 0).
  { intros Hs.
    assert (Hw : uint64 (mount.Size f) = mount.Size f + 2 ^ 64).
    { unfold uint64. rewrite <- (Z.mod_small (mount.Size f + 2 ^ 64) (2 ^ 64)) by lia.
      rewrite <- Z.add_mod_idemp_r, Z.mod_same, Z.add_0_r by lia. reflexivity. }
    split; [exact Hw |]. rewrite Hw. unfold uint64.
    replace (mount.Size f + 2 ^ 64 + 511) with (mount.Size f + 511 + 1 * 2 ^ 64) by lia.
    rewrite Z.mod_add by lia. rewrite Z.mod_small by lia.
    apply Z.div_small. lia. }
  unfold mount.Attr, selected.
  destruct (vfscommon.PersistMetadata (mount.Opt f)); cbn;
    [| repeat split; first [reflexivity | lia | apply Hpos; assumption
                           | apply Hneg; assumption]].
  destruct (IsSidecarPath (storeOf (mount.Opt f)) (mount.Path f)); cbn;
    [repeat split; first [reflexivity | lia | apply Hpos; assumption
                         | apply Hneg; assumption] |].
  destruct (h _ (StoreLoad (storeOf (mount.Opt f)) (mount.Path f)) st)
    as [[m [e|]] st1]; cbn.
  all: repeat split; first [reflexivity | lia | apply Hpos; assumption
                           | apply Hneg; assumption].
Qed.

(** The two adapters read mode and modification time from a record in the
    same way. The mode shown is the parsed mode string whenever the record
    has one, and so 0 for a mode string that does not parse: a corrupt mode
    is not skipped in favour of the live mode. The modification time shown
    is the parsed time of the record unless that is missing or does not
    parse, the live one then. The share only overlays these two, and keeps
    the owner that [setSys] stored. *)
Theorem overlay_of_mode_and_mtime (fi : FileInfo) (a : mount.FuseAttr) (m : PosixMeta) :
  let mode live := if Mode m is Some v then ParsePosixMode v else live in
  let mtime live :=
    match Mtime m with
    | Some v => if IsZero (ParsePosixTime v) then live else ParsePosixTime v
    | None => live
    end in
  nfs.infoMode (nfs.withOverlayFileInfo fi m) = mode (nodeMode fi) /\
  nfs.infoModTime (nfs.withOverlayFileInfo fi m) = mtime (nodeModTime fi) /\
  nfs.infoSys (nfs.withOverlayFileInfo fi m) = nodeSys fi /\
  mount.aMode (mount.overlayAttr a m) = mode (mount.aMode a) /\
  mount.aMtime (mount.overlayAttr a m) = mtime (mount.aMtime a) /\
  (forall v, Mode m = Some v -> strconv.ParseUint v 8 32 = None ->
     nfs.infoMode (nfs.withOverlayFileInfo fi m) = 0 /\
     mount.aMode (mount.overlayAttr a m) = 0) /\
  (PosixAnyFieldSet m = false -> nfs.withOverlayFileInfo fi m = nfs.Plain fi).
Proof.
  intros mode mtime. unfold nfs.withOverlayFileInfo, mount.overlayAttr.
  subst mode mtime.
  cbn [mount.aMode mount.aMtime].
  repeat match goal with |- _ /\ _ => split end.
  1-3: destruct (Mode m) as [v|]; destruct (Mtime m) as [t|]; cbn;
       try destruct (IsZero (ParsePosixTime t)); reflexivity.
  1-2: destruct (Mode m) as [v|]; destruct (Mtime m) as [t|]; cbn;
       try destruct (IsZero (ParsePosixTime t)); reflexivity.
  - intros v Hv Hp. rewrite Hv.
    assert (Hz : ParsePosixMode v = 0) by (unfold ParsePosixMode; now rewrite Hp).
    destruct (Mtime m) as [t|]; cbn; try destruct (IsZero (ParsePosixTime t)); cbn;
      rewrite Hz; split; reflexivity.
  - unfold PosixAnyFieldSet. destruct (Mode m), (Mtime m); cbn;
      rewrite ?orb_true_r; first [discriminate | reflexivity].
Qed.

(** The switch and the guard, for the queries. On any VFS, with
    persistence disabled or on a sidecar path, [Attr] of the mount issues no
    call at all, and [Stat] and [Lstat] of the share (the nodes of the VFS
    carrying its options and the path they were looked up by) never call
    [Load]: the result of [Stat] is then the live node with the default
    owner. No sidecar of a sidecar is ever read for a query. *)
Theorem queries_respect_the_switch_and_the_guard (st : St) :
  (forall f : mount.File,
     vfscommon.PersistMetadata (mount.Opt f) = false \/
     IsSidecarPath (storeOf (mount.Opt f)) (mount.Path f) = true ->
     (exec h (mount.Attr f) st).2 = []) /\
  (forall (f : nfs.FS) (filename : string),
     (forall fi, (h _ (LiveStat filename) st).1 = inl fi ->
        nodeOpt fi = nfs.Opt f /\ nodePath fi = filename) ->
     vfscommon.PersistMetadata (nfs.Opt f) = false \/
     IsSidecarPath (storeOf (nfs.Opt f)) filename = true ->
     selected (@isLoad) (exec h (nfs.Stat f filename) st).2 = [] /\
     selected (@isLoad) (exec h (nfsops.Lstat f filename) st).2 = [] /\
     (forall fi, (h _ (LiveStat filename) st).1 = inl fi ->
        (exec h (nfs.Stat f filename) st).1.1 =
        (Some (nfs.Plain (nfs.SetSys fi
           {| Nlink := 1;
              sysUID := vfscommon.UID (nfs.Opt f);
              sysGID := vfscommon.GID (nfs.Opt f);
              Fileid := nodeInode fi |})), None))).
Proof.
  split.
  - intros f Hoff. unfold mount.Attr.
    destruct (vfscommon.PersistMetadata (mount.Opt f)); [| reflexivity].
    destruct Hoff as [Hp | Hs]; [discriminate | now rewrite Hs].
  - intros f filename Hnode Hoff.
    unfold nfs.Stat, nfsops.Lstat, nfs.setSys, selected. cbn.
    destruct (h _ (LiveStat filename) st) as [[fi|e] st1]; cbn;
      [| repeat split; intros fi' [=]].
    destruct (Hnode fi eq_refl) as [-> ->].
    destruct (vfscommon.PersistMetadata (nfs.Opt f)); cbn;
      [| repeat split; intros fi' [= <-]; reflexivity].
    destruct Hoff as [Hp | Hs]; [discriminate |]. rewrite Hs. cbn.
    repeat split. intros fi' [= <-]. reflexivity.
Qed.

(** [Lstat] is [Stat] without the overlay of mode and time. On any VFS both
    fail exactly when the live stat fails, with its error; otherwise [Lstat]
    returns the live node with the [Sys] that [setSys] stored, and [Stat]
    returns the same node (inside its overlay, if any) with the same [Sys]:
    owner and group agree, while mode and modification time of [Lstat] are
    always the live ones, whatever the sidecar holds. *)
Theorem Lstat_is_Stat_without_overlay (st : St) (f : nfs.FS) (filename : string) :
  let '(r, _, log) := exec h (nfsops.Lstat f filename) st in
  let '(r', _, _) := exec h (nfs.Stat f filename) st in
  r.2 = r'.2 /\
  (length (selected (@isLoad) log) <= 1)%nat /\
  match (h _ (LiveStat filename) st).1 with
  | inr e => r = (None, Some e) /\ r' = (None, Some e)
  | inl fi =>
      exists fi' i,
        r = (Some fi', None) /\ r' = (Some i, None) /\
        nodeMode fi' = nodeMode fi /\ nodeModTime fi' = nodeModTime fi /\
        nodeSize fi' = nodeSize fi /\ nodePath fi' = nodePath fi /\
        nodeSys fi' <> None /\
        nfs.infoSys i = nodeSys fi' /\
        (i = nfs.Plain fi' \/ exists om mt, i = nfs.Overlaid fi' om mt)
  end.
Proof.
  unfold nfsops.Lstat, nfs.Stat, selected. cbn.
  destruct (h _ (LiveStat filename) st) as [[fi|e] st1]; cbn;
    [| repeat split; lia].
  rewrite !exec_bind.
  destruct (exec h (nfs.setSys fi) st1) as [[fi' st2] log1] eqn:Hs. cbn.
  assert (Hfi : nodeMode fi' = nodeMode fi /\ nodeModTime fi' = nodeModTime fi /\
                nodeSize fi' = nodeSize fi /\ nodePath fi' = nodePath fi /\
                nodeSys fi' <> None /\
                (length (List.filter
                   (fun en : entry AdE St => match en with Entry e _ _ => isLoad e end)
                   log1) <= 1)%nat).
  { revert Hs. unfold nfs.setSys. cbn.
    repeat run_case; intros [= <- <- <-]; cbn; repeat split;
      first [discriminate | lia]. }
  destruct Hfi as (Hm & Ht & Hz & Hp & Hy & Hl).
  assert (Hstat : forall (r' : option nfs.Info * option error) st' log',
    exec h (if vfscommon.PersistMetadata (nfs.Opt f)
            then
              if negb (IsSidecarPath (storeOf (nfs.Opt f)) filename)
              then
                '(m, err2) ← call (StoreLoad (storeOf (nfs.Opt f)) filename);
                if isNil err2 then mret (Some (nfs.withOverlayFileInfo fi' m), None)
                else mret (Some (nfs.Plain fi'), None)
              else mret (Some (nfs.Plain fi'), None)
            else mret (Some (nfs.Plain fi'), None)) st2 = (r', st', log') ->
    exists i, r' = (Some i, None) /\ nfs.infoSys i = nodeSys fi' /\
              (i = nfs.Plain fi' \/ exists om mt, i = nfs.Overlaid fi' om mt)).
  { intros r' st' log'.
    repeat run_case; intros [= <- <- <-];
      try (eexists; split; [reflexivity |]; split; [reflexivity |]; now left).
    match goal with
    | |- context [nfs.withOverlayFileInfo _ ?m] =>
        unfold nfs.withOverlayFileInfo;
        destruct (Mode m) as [v|]; destruct (Mtime m) as [t|]; cbn;
        try destruct (IsZero (ParsePosixTime t)); cbn
    end.
    all: (eexists; split; [reflexivity |]; split; [reflexivity |]);
      first [now left | right; eexists _, _; reflexivity]. }
  match goal with
  | |- context [exec h ?p st2] =>
      destruct (exec h p st2) as [[r' st'] log'] eqn:Hr
  end.
  destruct (Hstat _ _ _ Hr) as (i & -> & Hsys & Hshape). cbn.
  rewrite app_nil_r.
  split; [reflexivity |]. split; [cbn; lia |].
  exists fi', i. repeat split; assumption.
Qed.

End AdaptersMore.

(** ** Further properties: the share's operations on names *)

Section SplitJoin.

Lemma Split_nonempty (s : string) (sep : ascii) : gostrings.Split s sep <> [].
Proof.
  induction s as [|c s IH]; cbn; [discriminate |].
  destruct (Ascii.eqb c sep); [discriminate |].
  destruct (gostrings.Split s sep); discriminate.
Qed.

(** Joining the pieces of a split with the separator gives the string back. *)
Lemma Join_Split (s : string) (sep : ascii) :
  gostrings.Join (gostrings.Split s sep) (String sep "") = s.
Proof.
  unfold gostrings.Join. induction s as [|c s IH]; [reflexivity |].
  cbn [gostrings.Split]. destruct (Ascii.eqb_spec c sep) as [-> | Hne].
  - pose proof (Split_nonempty s sep) as Hn.
    destruct (gostrings.Split s sep) as [|x xs] eqn:Hs; [congruence |].
    change (String.concat (String sep "") ("" :: x :: xs))
      with (String sep (String.concat (String sep "") (x :: xs))).
    now rewrite IH.
  - pose proof (Split_nonempty s sep) as Hn.
    destruct (gostrings.Split s sep) as [|x xs] eqn:Hs; [congruence |].
    destruct xs as [|y ys].
    + cbn in IH |- *. now rewrite IH.
    + change (String.concat (String sep "") (String c x :: y :: ys))
        with (String c (String.concat (String sep "") (x :: y :: ys))).
      now rewrite IH.
Qed.

(** Joining the first pieces gives a prefix of the join of all of them. *)
Lemma Join_take (parts : list string) (sep : string) (i : nat) :
  exists rest,
    gostrings.Join parts sep = gostrings.Join (take (i + 1) parts) sep +:+ rest.
Proof.
  unfold gostrings.Join. revert i. induction parts as [|x xs IH]; intros i.
  - exists "". now rewrite take_nil.
  - replace (i + 1)%nat with (S i) by lia. cbn [take].
    destruct xs as [|y ys].
    + exists "". rewrite take_nil. cbn. now rewrite append_empty_r.
    + destruct i as [|i].
      * rewrite take_0. exists (sep +:+ String.concat sep (y :: ys)). reflexivity.
      * destruct (IH i) as (rest & Hrest).
        replace (i + 1)%nat with (S i) in Hrest by lia. cbn [take] in Hrest |- *.
        exists rest.
        change (String.concat sep (x :: y :: ys))
          with (x +:+ sep +:+ String.concat sep (y :: ys)).
        change (String.concat sep (x :: y :: take i ys))
          with (x +:+ sep +:+ String.concat sep (y :: take i ys)).
        rewrite Hrest, !append_assoc. reflexivity.
Qed.

End SplitJoin.

Section SetSysFacts.
Import vfs overlay overlaylog.
Context `{GoLib} {St : Type} (g : handler AdE St).

#[local] Arguments strconv.ParseUint : simpl never.
#[local] Arguments uint32 : simpl never.
#[local] Arguments IsSidecarPath : simpl never.
#[local] Arguments ParsePosixMode : simpl never.
#[local] Arguments ParsePosixTime : simpl never.
#[local] Arguments isNil !e.

Ltac run_case :=
  match goal with
  | |- context [g ?X ?e ?s] =>
      let r := fresh "r" in
      let s' := fresh "st" in
      destruct (g X e s) as [r s']; cbn
  | |- context [isNil ?o] => is_var o; destruct o; cbn
  | |- context [vfscommon.PersistMetadata ?o] =>
      destruct (vfscommon.PersistMetadata o); cbn
  | |- context [IsSidecarPath ?s ?p] => destruct (IsSidecarPath s p); cbn
  | |- context [decide (?a = ?b)] => destruct (decide (a = b)); cbn
  | |- context [exec g (match ?r with _ => _ end)] => destruct r; cbn
  | |- context [mbind _ (match ?r with _ => _ end)] => destruct r; cbn
  | |- context [bind (match ?r with _ => _ end) _] => destruct r; cbn
  end.

(** [setSys] after at most one call, a [Load]. *)
Lemma setSys_spec (fi : FileInfo) (st : St) :
  let '(fi', _, log) := exec g (nfs.setSys fi) st in
  nfsops.sysSet fi fi' /\ (length log <= 1)%nat /\ selected (@isLoad) log = log.
Proof.
  unfold nfs.setSys, nfsops.sysSet, selected. cbn.
  repeat run_case.
  all: repeat match goal with
              | |- context [match ?x with Some _ => _ | None => _ end] =>
                  destruct x; cbn
              end.
  all: repeat split; try lia; eexists; repeat split.
Qed.

Lemma setSysAll_spec (dir : list FileInfo) (st : St) :
  let '(dir', _, log) := exec g (nfsops.setSysAll dir) st in
  Forall2 nfsops.sysSet dir dir' /\ (length log <= length dir)%nat /\
  selected (@isLoad) log = log.
Proof.
  revert st. induction dir as [|fi dir IH]; intros st.
  - cbn. repeat split; [constructor | lia].
  - cbn [nfsops.setSysAll]. rewrite exec_bind.
    pose proof (setSys_spec fi st) as H1.
    destruct (exec g (nfs.setSys fi) st) as [[fi' st1] log1].
    destruct H1 as (Hfi & Hlen1 & Hsel1).
    rewrite exec_bind. specialize (IH st1).
    destruct (exec g (nfsops.setSysAll dir) st1) as [[dir' st2] log2].
    destruct IH as (Hdir & Hlen2 & Hsel2). cbn.
    rewrite app_nil_r. split; [now constructor |].
    split; [rewrite length_app; lia |].
    unfold selected in *. now rewrite List.filter_app, Hsel1, Hsel2.
Qed.

(** [Stat] looks the name up once, with the live stat, and reports
    [ENOENT] exactly when that lookup did. *)
Lemma Stat_lookup (f : nfs.FS) (filename : string) (st : St) :
  let '(r, _, log) := exec g (nfs.Stat f filename) st in
  nfsops.stats (map nfsops.liftEntry log) =
    [(filename, bool_decide (r.2 = Some ENOENT))] /\
  nfsops.mkdirs (map nfsops.liftEntry log) = [].
Proof.
  unfold nfs.Stat, nfs.setSys, nfsops.stats, nfsops.mkdirs. cbn.
  destruct (g _ (LiveStat filename) st) as [[fi|e] st1]; cbn.
  - repeat run_case; split; reflexivity.
  - split; [| reflexivity]. f_equal. f_equal.
    destruct (decide (e = ENOENT)) as [-> | Hne]; [reflexivity |].
    rewrite !bool_decide_eq_false_2; [reflexivity | congruence | assumption].
Qed.

End SetSysFacts.

Section NamesOnAnyVFS.
Import vfs overlay overlaylog nfsops.
Context `{GoLib} {St : Type} (h : handler FsE St).

#[local] Arguments IsSidecarPath : simpl never.
#[local] Arguments isNil !e.

Lemma exec_lift {A} (p : Prog AdE A) (st : St) :
  exec h (lift p) st =
  let '(a, st', log) := exec (below h) p st in (a, st', map liftEntry log).
Proof.
  revert st. induction p as [a | X e k IH]; intros st; [reflexivity |].
  cbn [lift exec]. unfold below at 1.
  destruct (h X (Ad e) st) as [x st1]. rewrite IH.
  now destruct (exec (below h) (k x) st1) as [[a st2] log].
Qed.

(** The sidecar follows the object. On any VFS, [Rename] and [Remove] of
    the share return what the live rename or remove returned, whatever the
    store answers; they call the store's [Rename] or [Delete] once, with the
    same paths, exactly when the live operation succeeded, persistence is
    enabled and no path involved is a sidecar path, and not at all
    otherwise. *)
Theorem Rename_and_Remove_take_the_sidecar_along (st : St) (f : nfs.FS) :
  (forall oldpath newpath : string,
     let '(err, _, log) := exec h (Rename f oldpath newpath) st in
     err = (h _ (LiveRename oldpath newpath) st).1 /\
     (length log <= 2)%nat /\
     storeCalls log =
       if isNil err && vfscommon.PersistMetadata (nfs.Opt f) &&
          negb (IsSidecarPath (storeOf (nfs.Opt f)) oldpath ||
                IsSidecarPath (storeOf (nfs.Opt f)) newpath)
       then [RenameCall (storeOf (nfs.Opt f)) oldpath newpath]
       else []) /\
  (forall filename : string,
     let '(err, _, log) := exec h (Remove f filename) st in
     err = (h _ (LiveRemove filename) st).1 /\
     (length log <= 2)%nat /\
     storeCalls log =
       if isNil err && vfscommon.PersistMetadata (nfs.Opt f) &&
          negb (IsSidecarPath (storeOf (nfs.Opt f)) filename)
       then [DeleteCall (storeOf (nfs.Opt f)) filename]
       else []).
Proof.
  split.
  - intros oldpath newpath. unfold Rename, when, storeCalls. cbn.
    destruct (h _ (LiveRename oldpath newpath) st) as [[e|] st1]; cbn;
      [repeat split; lia |].
    destruct (vfscommon.PersistMetadata (nfs.Opt f)); cbn; [| repeat split; lia].
    destruct (IsSidecarPath (storeOf (nfs.Opt f)) oldpath),
      (IsSidecarPath (storeOf (nfs.Opt f)) newpath); cbn; try (repeat split; lia).
    destruct (h _ (StoreRename (storeOf (nfs.Opt f)) oldpath newpath) st1); cbn.
    repeat split; lia.
  - intros filename. unfold Remove, when, storeCalls. cbn.
    destruct (h _ (LiveRemove filename) st) as [[e|] st1]; cbn;
      [repeat split; lia |].
    destruct (vfscommon.PersistMetadata (nfs.Opt f)); cbn; [| repeat split; lia].
    destruct (IsSidecarPath (storeOf (nfs.Opt f)) filename); cbn;
      [repeat split; lia |].
    destruct (h _ (StoreDelete (storeOf (nfs.Opt f)) filename) st1); cbn.
    repeat split; lia.
Qed.

(** A listing shows owners but neither persisted modes nor times. On any
    VFS, [ReadDir] fails exactly when the live listing fails, with its error
    and no entry; otherwise it returns as many entries as the live listing,
    in the same order, each the live node with a [Sys] stored (one link, the
    inode of the node) and with the live size, mode and modification time,
    whatever the sidecars hold. It issues at most one call per entry beside
    the listing, each a [Load]. *)
Theorem ReadDir_sets_the_owner_only (st : St) (f : nfs.FS) (path : string) :
  let '(r, _, log) := exec h (ReadDir f path) st in
  match (h _ (LiveReadDir path) st).1 with
  | (dir, Some e) => r = ([], Some e) /\ length log = 1%nat
  | (dir, None) =>
      r.2 = None /\
      Forall2 (fun fi fi' =>
        nodePath fi' = nodePath fi /\ nodeSize fi' = nodeSize fi /\
        nodeMode fi' = nodeMode fi /\ nodeModTime fi' = nodeModTime fi /\
        nodeInode fi' = nodeInode fi /\ nodeOpt fi' = nodeOpt fi /\
        exists sys, nodeSys fi' = Some sys /\ Nlink sys = 1 /\
                    Fileid sys = nodeInode fi) dir r.1 /\
      length r.1 = length dir /\
      (length log <= 1 + length dir)%nat
  end.
Proof.
  unfold ReadDir. cbn.
  destruct (h _ (LiveReadDir path) st) as [[dir [e|]] st1]; cbn;
    [split; reflexivity |].
  rewrite exec_bind, exec_lift.
  pose proof (setSysAll_spec (below h) dir st1) as Hall.
  destruct (exec (below h) (setSysAll dir) st1) as [[dir' st2] log].
  destruct Hall as (Hdir & Hlen & _). cbn.
  split; [reflexivity |]. split; [exact Hdir |].
  split; [symmetry; now apply Forall2_length in Hdir |].
  rewrite app_nil_r, length_map. lia.
Qed.

(** The loop of [MkdirAll], for any list of indices. *)
Lemma mkdirEach_spec (f : nfs.FS) (parts : list string) (perm : Z)
    (indices : list nat) (st : St) :
  let cur i := gostrings.Join (take (i + 1) parts) "/" in
  let '(err, _, log) := exec h (mkdirEach f parts perm indices) st in
  (exists k, (stats log).*1 = map cur (take k indices) /\
             (err = None -> take k indices = indices)) /\
  Forall (fun x => (x.1.1, true) ∈ stats log /\ x.1.2 = perm) (mkdirs log) /\
  (exists ms n, Forall (fun x => x.2 = None) ms /\
     mkdirs log = (ms ++ match err with
                         | Some e => [(n, perm, Some e)]
                         | None => []
                         end)%list).
Proof.
  intros cur. revert st. induction indices as [|i rest IH]; intros st.
  - cbn. split; [exists 0%nat; split; reflexivity |].
    split; [constructor |]. exists [], "". split; [constructor | reflexivity].
  - cbn [mkdirEach]. fold (cur i). rewrite exec_bind, exec_lift.
    pose proof (Stat_lookup (below h) f (cur i) st) as HS.
    destruct (exec (below h) (nfs.Stat f (cur i)) st) as [[[x err0] st1] log1].
    destruct HS as (Hstats & Hmk). cbn [snd] in Hstats.
    assert (Hcons : forall (b : bool) (err : option error)
                           (logR : list (entry FsE St)),
      (exists k, (stats logR).*1 = map cur (take k rest) /\
                 (err = None -> take k rest = rest)) ->
      exists k, ((cur i, b) :: stats logR).*1 = map cur (take k (i :: rest)) /\
                (err = None -> take k (i :: rest) = i :: rest)).
    { intros b err logR (k & Hk & Hfull). exists (S k). cbn.
      split; [now rewrite Hk | intros He; now rewrite (Hfull He)]. }
    destruct (decide (err0 = Some ENOENT)) as [-> | Hne].
    + rewrite bool_decide_eq_true_2 in Hstats by reflexivity.
      rewrite exec_bind, exec_call.
      destruct (h _ (LiveMkdir (cur i) perm) st1) as [[e|] st2]; cbn [isNil negb].
      * cbn. unfold stats, mkdirs in *. rewrite !omap_app, Hstats, Hmk. cbn.
        split; [exists 1%nat; split; [reflexivity | discriminate] |].
        split; [constructor; [| constructor];
                split; [apply list_elem_of_here | reflexivity] |].
        exists [], (cur i). split; [constructor | reflexivity].
      * specialize (IH st2).
        destruct (exec h (mkdirEach f parts perm rest) st2) as [[err st3] logR].
        destruct IH as (Hk & Hall & ms & n & Hms & Hmks).
        cbn. unfold stats, mkdirs in *. rewrite !omap_app, Hstats, Hmk. cbn.
        split; [now apply (Hcons true err logR) |].
        split.
        { constructor; [split; [apply list_elem_of_here | reflexivity] |].
          eapply Forall_impl; [exact Hall |]. intros y [Hy1 Hy2].
          split; [now apply list_elem_of_further | exact Hy2]. }
        exists ((cur i, perm, None) :: ms), n.
        split; [now constructor | now rewrite Hmks].
    + rewrite bool_decide_eq_false_2 in Hstats by assumption.
      specialize (IH st1).
      destruct (exec h (mkdirEach f parts perm rest) st1) as [[err st3] logR].
      destruct IH as (Hk & Hall & ms & n & Hms & Hmks).
      cbn. unfold stats, mkdirs in *. rewrite !omap_app, Hstats, Hmk. cbn.
      split; [now apply (Hcons false err logR) |].
      split.
      { eapply Forall_impl; [exact Hall |]. intros y [Hy1 Hy2].
        split; [now apply list_elem_of_further | exact Hy2]. }
      exists ms, n. split; assumption.
Qed.

(** [MkdirAll] on any VFS. It looks up prefixes of the path, the path
    itself last, one per piece of the path between separators, and stops
    early only on a failure. It makes a directory only for a name whose
    lookup answered [ENOENT], with the permissions it was given. The error
    it returns is the error of the last directory it tried to make, every
    earlier one having succeeded, so a failure of a lookup, other than
    [ENOENT], is never returned: when no lookup answers [ENOENT], because
    everything exists or because every lookup fails in another way,
    [MkdirAll] makes nothing and returns [nil]. *)
Theorem MkdirAll_on_any_VFS (st : St) (f : nfs.FS) (filename : string) (perm : Z) :
  let '(err, _, log) := exec h (MkdirAll f filename perm) st in
  Forall (fun x => exists rest, filename = x.1 +:+ rest) (stats log) /\
  (length (stats log) <= length (gostrings.Split filename "/"))%nat /\
  (err = None ->
     length (stats log) = length (gostrings.Split filename "/") /\
     last (stats log).*1 = Some filename) /\
  Forall (fun x => (x.1.1, true) ∈ stats log /\ x.1.2 = perm) (mkdirs log) /\
  (exists ms n, Forall (fun x => x.2 = None) ms /\
     mkdirs log = (ms ++ match err with
                         | Some e => [(n, perm, Some e)]
                         | None => []
                         end)%list) /\
  (Forall (fun x => x.2 = false) (stats log) -> err = None /\ mkdirs log = []).
Proof.
  unfold MkdirAll.
  pose proof (mkdirEach_spec f (gostrings.Split filename "/") perm
                (seq 0 (length (gostrings.Split filename "/"))) st) as HS.
  cbv zeta in HS.
  pose proof (Join_Split filename "/") as HJ.
  pose proof (Split_nonempty filename "/") as Hne.
  set (parts := gostrings.Split filename "/") in *.
  destruct (exec h (mkdirEach f parts perm (seq 0 (length parts))) st)
    as [[err st'] log].
  destruct HS as ((k & Hk & Hfull) & Hall & ms & n & Hms & Hmks).
  assert (Hnames : Forall (fun c => exists rest, filename = c +:+ rest) (stats log).*1).
  { rewrite Hk. apply Forall_map, Forall_forall. intros i _.
    destruct (Join_take parts "/" i) as (rest & Hrest).
    exists rest. now rewrite <- HJ. }
  split.
  { apply Forall_forall. intros x Hx. rewrite Forall_forall in Hnames.
    apply (Hnames x.1). now apply list_elem_of_fmap_2. }
  assert (Hlen : length (stats log) = length (take k (seq 0 (length parts)))).
  { rewrite <- (length_fmap fst (stats log)), Hk. apply length_map. }
  split; [rewrite Hlen, length_take, length_seq; lia |].
  split.
  { intros He. rewrite (Hfull He) in Hlen, Hk. rewrite length_seq in Hlen.
    split; [exact Hlen |]. rewrite Hk.
    destruct (length parts) as [|m] eqn:Hm;
      [destruct parts; [congruence | discriminate] |].
    rewrite seq_S, map_app. cbn [map]. rewrite last_snoc. f_equal.
    replace (0 + m + 1)%nat with (length parts) by lia.
    now rewrite firstn_all. }
  split; [exact Hall |].
  split; [exists ms, n; split; assumption |].
  intros Hno.
  assert (Hmk : mkdirs log = []).
  { destruct (mkdirs log) as [|y ys]; [reflexivity |].
    apply Forall_cons in Hall as [[Hy _] _].
    rewrite Forall_forall in Hno. apply Hno in Hy. discriminate. }
  split; [| exact Hmk].
  rewrite Hmk in Hmks. destruct err as [e|]; [| reflexivity].
  destruct ms; discriminate.
Qed.

End NamesOnAnyVFS.

(** ** Further properties: a change made through one adapter, seen through both *)

Section OnTheModel.
Import vfs overlay.
Context `{GoLib}.

#[local] Arguments Save : simpl never.
#[local] Arguments Load : simpl never.
#[local] Arguments overlaymodel.run : simpl never.
#[local] Arguments FormatPosixMode : simpl never.
#[local] Arguments ParsePosixMode : simpl never.
#[local] Arguments ParsePosixTime : simpl never.
#[local] Arguments strconv.FormatUint : simpl never.
#[local] Arguments strconv.ParseUint : simpl never.
#[local] Arguments uint32 : simpl never.
#[local] Arguments uint64 : simpl never.
#[local] Arguments int64 : simpl never.
#[local] Arguments IsSidecarPath : simpl never.
#[local] Arguments metaPath : simpl never.
#[local] Arguments merge : simpl never.
#[local] Arguments Z.ldiff : simpl never.
#[local] Arguments Z.lor : simpl never.
#[local] Arguments Z.div : simpl never.
#[local] Arguments Z.add : simpl never.

#[local] Arguments steady.world : simpl never.

Lemma healthy_options (fs : gmap string bytes) c o :
  overlaymodel.options (steady.world fs c o) = o.
Proof. reflexivity. Qed.

Lemma healthy_clock (fs : gmap string bytes) c o :
  overlaymodel.clock (steady.world fs c o) = c.
Proof. reflexivity. Qed.

Lemma run_StoreSave (fs : gmap string bytes) c o (s : PosixMetaStore) (p : string)
    (m : PosixMeta) (enc : bytes) :
  IsSidecarPath s p = false ->
  jsonMarshal (merge (exec vfsmodel.run (Load s p) (vfsmodel.healthy fs)).1.1.1 m)
    = (enc, None) ->
  overlaymodel.run _ (StoreSave s p m) (steady.world fs c o) =
  (None,
   steady.world (<[metaPath s p := enc]> (delete (metaPath s p +:+ ".tmp") fs)) c o).
Proof.
  intros Hn Henc. unfold overlaymodel.run, steady.world. cbn [overlaymodel.disk].
  pose proof (Save_healthy s p m fs enc Hn Henc) as HS.
  destruct (exec vfsmodel.run (Save s p m) (vfsmodel.healthy fs)) as [[r d] l].
  cbn in HS. injection HS as -> ->. reflexivity.
Qed.

Lemma run_StoreLoad (fs : gmap string bytes) c o (s : PosixMetaStore) (p : string)
    (m : PosixMeta) (enc : bytes) :
  IsSidecarPath s p = false ->
  fs !! metaPath s p = Some enc -> enc <> [] -> jsonUnmarshal enc = (m, None) ->
  overlaymodel.run _ (StoreLoad s p) (steady.world fs c o) =
  ((m, None), steady.world fs c o).
Proof.
  intros Hn Hf Hne Hdec. unfold overlaymodel.run, steady.world. cbn [overlaymodel.disk].
  rewrite Load_healthy by assumption. rewrite Hf.
  destruct enc as [|x enc]; [congruence |]. cbn. rewrite Hdec. reflexivity.
Qed.

Lemma run_LiveStat (fs : gmap string bytes) c o (name : string) (b : bytes) :
  fs !! name = Some b ->
  overlaymodel.run _ (LiveStat name) (steady.world fs c o) =
  (inl (overlaymodel.nodeOf (steady.world fs c o) name b), steady.world fs c o).
Proof. intros Hb. unfold overlaymodel.run, steady.world. cbn. now rewrite Hb. Qed.

Lemma run_LiveOpen (fs : gmap string bytes) c o (name : string) (b : bytes) :
  fs !! name = Some b ->
  overlaymodel.run _ (LiveOpen name) (steady.world fs c o) =
  (({| hname := name |}, None), steady.world fs c o).
Proof. intros Hb. unfold overlaymodel.run, steady.world. cbn. now rewrite Hb. Qed.

(** The sidecar of a path, and the temporary file next to it, are other
    files than the path. *)
Lemma sidecar_is_another_file (s : PosixMetaStore) (p : string) :
  metaPath s p <> p /\ metaPath s p +:+ ".tmp" <> p /\
  metaPath s p +:+ ".tmp" <> metaPath s p.
Proof.
  destruct (metaPath_suffix s p) as (e & He & Hp).
  split; [rewrite Hp; now apply append_nonempty_neq |].
  split; [| apply append_nonempty_neq; discriminate].
  rewrite Hp, append_assoc. apply append_nonempty_neq.
  destruct e; [congruence | discriminate].
Qed.

(** After the sidecar was written, the object is still there and the
    sidecar holds the encoding. *)
Lemma saved_files (s : PosixMetaStore) (p : string) (fs : gmap string bytes)
    (b enc : bytes) :
  fs !! p = Some b ->
  (<[metaPath s p := enc]> (delete (metaPath s p +:+ ".tmp") fs)) !! p = Some b /\
  (<[metaPath s p := enc]> (delete (metaPath s p +:+ ".tmp") fs)) !! metaPath s p
    = Some enc.
Proof.
  intros Hb. destruct (sidecar_is_another_file s p) as (H1 & H2 & H3).
  split; [| apply lookup_insert_eq].
  rewrite lookup_insert_ne, lookup_delete_ne by congruence. exact Hb.
Qed.

(** What the mode string of [FormatPosixMode] parses to. *)
Lemma FormatPosixMode_parses (m : Z) (isDir : bool) :
  strconv.ParseUint (FormatPosixMode m isDir) 8 32 =
  Some (Z.lor (Z.ldiff (uint32 m) 0xF000) (if isDir then 0x4000 else 0x8000)).
Proof.
  unfold FormatPosixMode.
  set (t := if isDir then 0x4000 else 0x8000).
  assert (Ht : t = 0x4000 \/ t = 0x8000) by (subst t; destruct isDir; auto).
  pose proof (typed_mode_range m t Ht) as Hr.
  replace (if isDir then Z.lor (Z.ldiff (uint32 m) 0xF000) 0x4000
           else Z.lor (Z.ldiff (uint32 m) 0xF000) 0x8000)
    with (Z.lor (Z.ldiff (uint32 m) 0xF000) t) by (subst t; now destruct isDir).
  set (x := Z.lor (Z.ldiff (uint32 m) 0xF000) t) in *.
  assert (H64 : uint64 x = x).
  { unfold uint64. apply Z.mod_small. split; [lia |].
    eapply Z.lt_trans; [apply Hr | reflexivity]. }
  rewrite H64. now apply ParseUint_FormatUint.
Qed.

(** [Stat] of the share and [Attr] of the mount over an object whose
    sidecar holds the record [m], on a VFS without failures. *)
Lemma Stat_over_record (f : nfs.FS) (name : string) (fs : gmap string bytes) c
    (b enc : bytes)
    (m : PosixMeta) :
  vfscommon.PersistMetadata (nfs.Opt f) = true ->
  IsSidecarPath (storeOf (nfs.Opt f)) name = false ->
  fs !! name = Some b ->
  fs !! metaPath (storeOf (nfs.Opt f)) name = Some enc ->
  enc <> [] -> jsonUnmarshal enc = (m, None) ->
  exists fi',
    (exec overlaymodel.run (nfs.Stat f name) (steady.world fs c (nfs.Opt f))).1 =
      ((Some (nfs.withOverlayFileInfo fi' m), None), steady.world fs c (nfs.Opt f)) /\
    nodeMode fi' = 420 /\ nodeModTime fi' = c /\
    nodeSys fi' =
      Some {| Nlink := 1;
              sysUID := match UID m with
                        | Some u => if strconv.ParseUint u 10 32 is Some v
                                    then uint32 v else vfscommon.UID (nfs.Opt f)
                        | None => vfscommon.UID (nfs.Opt f)
                        end;
              sysGID := match GID m with
                        | Some u => if strconv.ParseUint u 10 32 is Some v
                                    then uint32 v else vfscommon.GID (nfs.Opt f)
                        | None => vfscommon.GID (nfs.Opt f)
                        end;
              Fileid := 1 |}.
Proof.
  intros Hp Hn Hb Hs Hne Hdec.
  unfold nfs.Stat, nfs.setSys. cbn.
  rewrite (run_LiveStat fs c _ name b Hb). cbn.
  rewrite !healthy_options, Hp, Hn. cbn.
  rewrite (run_StoreLoad fs c _ _ name m enc Hn Hs Hne Hdec). cbn.
  rewrite (run_StoreLoad fs c _ _ name m enc Hn Hs Hne Hdec). cbn.
  eexists. split; [reflexivity |]. split; [reflexivity |].
  split; [cbn; apply healthy_clock |].
  cbn. rewrite ?healthy_options. destruct (UID m) as [u|], (GID m) as [g|]; cbn;
    repeat match goal with
           | |- context [strconv.ParseUint ?x 10 32] =>
               destruct (strconv.ParseUint x 10 32); cbn
           end; reflexivity.
Qed.

Lemma Attr_over_record (file : mount.File) (fs : gmap string bytes) c (enc : bytes)
    (m : PosixMeta) :
  vfscommon.PersistMetadata (mount.Opt file) = true ->
  IsSidecarPath (storeOf (mount.Opt file)) (mount.Path file) = false ->
  fs !! metaPath (storeOf (mount.Opt file)) (mount.Path file) = Some enc ->
  enc <> [] -> jsonUnmarshal enc = (m, None) ->
  exists a,
    (exec overlaymodel.run (mount.Attr file) (steady.world fs c (mount.Opt file))).1.1 =
      (a, None) /\
    mount.aMode a = (if Mode m is Some v then ParsePosixMode v
                     else Z.ldiff (mount.FileMode file) mount.ModeAppend) /\
    mount.aUid a = match UID m with
                   | Some u => if strconv.ParseUint u 10 32 is Some v
                               then uint32 v else vfscommon.UID (mount.Opt file)
                   | None => vfscommon.UID (mount.Opt file)
                   end /\
    mount.aGid a = match GID m with
                   | Some u => if strconv.ParseUint u 10 32 is Some v
                               then uint32 v else vfscommon.GID (mount.Opt file)
                   | None => vfscommon.GID (mount.Opt file)
                   end /\
    mount.aMtime a = match Mtime m with
                     | Some v => if negb (IsZero (ParsePosixTime v))
                                 then ParsePosixTime v else mount.ModTime file
                     | None => mount.ModTime file
                     end /\
    mount.aAtime a = match Atime m with
                     | Some v => if negb (IsZero (ParsePosixTime v))
                                 then ParsePosixTime v else mount.ModTime file
                     | None => mount.ModTime file
                     end /\
    mount.aCtime a = mount.ModTime file.
Proof.
  intros Hp Hn Hs Hne Hdec. unfold mount.Attr. rewrite Hp, Hn. cbn.
  rewrite (run_StoreLoad fs c _ _ _ m enc Hn Hs Hne Hdec). cbn.
  eexists. split; [reflexivity |]. cbn. repeat split.
Qed.

(** A mode set with [Chmod] of the share is the mode that both the share
    and the mount show afterwards. On a VFS without failures that holds the
    object, with persistence enabled, and for a record that the codec
    carries faithfully: [Chmod] returns [nil] and leaves the object as it
    was; [Stat] of the share and [Attr] of the mount then both report the
    mode that was set, as a 32-bit value whose file-type nibble is that of a
    regular file, whatever the object is. *)
Theorem Chmod_is_seen_by_Stat_and_Attr (f : nfs.FS) (file : mount.File)
    (name : string) (mode : Z) (fs : gmap string bytes) (c : Time) (b enc : bytes) :
  vfscommon.PersistMetadata (nfs.Opt f) = true ->
  IsSidecarPath (storeOf (nfs.Opt f)) name = false ->
  fs !! name = Some b ->
  mount.Path file = name -> mount.Opt file = nfs.Opt f ->
  let cur := (exec vfsmodel.run (Load (storeOf (nfs.Opt f)) name)
                (vfsmodel.healthy fs)).1.1.1 in
  let new := merge cur (setMode emptyMeta (FormatPosixMode mode false)) in
  jsonMarshal new = (enc, None) -> enc <> [] -> jsonUnmarshal enc = (new, None) ->
  let '(err, st1, _) :=
    exec overlaymodel.run (nfs.Chmod f name mode) (steady.world fs c (nfs.Opt f)) in
  err = None /\
  vfsmodel.files (overlaymodel.disk st1) !! name = Some b /\
  (exists i,
     (exec overlaymodel.run (nfs.Stat f name) st1).1.1 = (Some i, None) /\
     nfs.infoMode i = Z.lor (Z.ldiff (uint32 mode) 0xF000) 0x8000) /\
  (exists a,
     (exec overlaymodel.run (mount.Attr file) st1).1.1 = (a, None) /\
     mount.aMode a = Z.lor (Z.ldiff (uint32 mode) 0xF000) 0x8000).
Proof.
  intros Hp Hn Hb Hpath Hopt cur new Henc Hne Hdec.
  set (fs' := <[metaPath (storeOf (nfs.Opt f)) name := enc]>
                (delete (metaPath (storeOf (nfs.Opt f)) name +:+ ".tmp") fs)).
  assert (Hrun : exec overlaymodel.run (nfs.Chmod f name mode)
                   (steady.world fs c (nfs.Opt f))
                 = (None, steady.world fs' c (nfs.Opt f),
                    (exec overlaymodel.run (nfs.Chmod f name mode)
                       (steady.world fs c (nfs.Opt f))).2)).
  { unfold nfs.Chmod, when, logIfError. cbn.
    rewrite (run_LiveOpen fs c _ name b Hb). cbn.
    change (overlaymodel.run _ (LiveChmod {| hname := name |} mode)
              (steady.world fs c (nfs.Opt f)))
      with (@None error, steady.world fs c (nfs.Opt f)).
    cbn. destruct (decide (@None error = Some ENOSYS)) as [Hd | _];
      [discriminate Hd |].
    cbn. rewrite Hp, Hn. cbn.
    rewrite (run_StoreSave fs c _ _ name _ enc Hn Henc). cbn.
    change (overlaymodel.run _ (LiveClose {| hname := name |})
              (steady.world fs' c (nfs.Opt f)))
      with (@None error, steady.world fs' c (nfs.Opt f)).
    cbn. reflexivity. }
  rewrite Hrun. cbv beta iota.
  destruct (saved_files (storeOf (nfs.Opt f)) name fs b enc Hb) as (Hb' & Hs').
  fold fs' in Hb', Hs'.
  assert (Hmode : Mode new = Some (FormatPosixMode mode false)).
  { unfold new. now rewrite merge_record. }
  assert (Hparse : ParsePosixMode (FormatPosixMode mode false) =
                   Z.lor (Z.ldiff (uint32 mode) 0xF000) 0x8000).
  { unfold ParsePosixMode. rewrite FormatPosixMode_parses.
    unfold uint32 at 1. apply Z.mod_small. apply typed_mode_range. now right. }
  split; [reflexivity |]. split; [exact Hb' |]. split.
  - destruct (Stat_over_record f name fs' c b enc new Hp Hn Hb' Hs' Hne Hdec)
      as (fi' & Hstat & _).
    exists (nfs.withOverlayFileInfo fi' new). rewrite Hstat.
    split; [reflexivity |].
    unfold nfs.withOverlayFileInfo. rewrite Hmode, Hparse.
    destruct (Mtime new) as [t|]; [destruct (negb (IsZero (ParsePosixTime t))) |];
      reflexivity.
  - rewrite <- Hopt in Hp, Hn, Hs' |- *. rewrite <- Hpath in Hn, Hs'.
    destruct (Attr_over_record file fs' c enc new Hp Hn Hs' Hne Hdec)
      as (a & Hattr & Ha & _).
    exists a. rewrite Hattr. split; [reflexivity |].
    now rewrite Ha, Hmode, Hparse.
Qed.

(** Times set with [Chtimes] of the share, under the same conditions and
    for times that the RFC 3339 codec carries faithfully and that are not the
    zero time: [Chtimes] returns [nil]; [Stat] of the share then reports the
    modification time that was set in place of the live one; [Attr] of the
    mount reports the modification time and the access time that were set,
    and as change time still the live modification time. *)
Theorem Chtimes_is_seen_by_Stat_and_Attr (f : nfs.FS) (file : mount.File)
    (name : string) (atime mtime : Time) (fs : gmap string bytes) (c : Time)
    (b enc : bytes) :
  vfscommon.PersistMetadata (nfs.Opt f) = true ->
  IsSidecarPath (storeOf (nfs.Opt f)) name = false ->
  fs !! name = Some b ->
  mount.Path file = name -> mount.Opt file = nfs.Opt f ->
  (forall t, t = atime \/ t = mtime ->
     t <> zeroTime /\ timeFormatRFC3339 t <> "" /\
     timeParseRFC3339 (timeFormatRFC3339 t) = (t, None)) ->
  let cur := (exec vfsmodel.run (Load (storeOf (nfs.Opt f)) name)
                (vfsmodel.healthy fs)).1.1.1 in
  let new := merge cur (setMtime (setAtime emptyMeta (timeFormatRFC3339 atime))
                                 (timeFormatRFC3339 mtime)) in
  jsonMarshal new = (enc, None) -> enc <> [] -> jsonUnmarshal enc = (new, None) ->
  let '(err, st1, _) :=
    exec overlaymodel.run (nfs.Chtimes f name atime mtime)
         (steady.world fs c (nfs.Opt f)) in
  err = None /\
  (exists i,
     (exec overlaymodel.run (nfs.Stat f name) st1).1.1 = (Some i, None) /\
     nfs.infoModTime i = mtime) /\
  (exists a,
     (exec overlaymodel.run (mount.Attr file) st1).1.1 = (a, None) /\
     mount.aMtime a = mtime /\ mount.aAtime a = atime /\
     mount.aCtime a = mount.ModTime file).
Proof.
  intros Hp Hn Hb Hpath Hopt Htime cur new Henc Hne Hdec.
  set (fs' := <[metaPath (storeOf (nfs.Opt f)) name := enc]>
                (delete (metaPath (storeOf (nfs.Opt f)) name +:+ ".tmp") fs)).
  assert (Hrun : exec overlaymodel.run (nfs.Chtimes f name atime mtime)
                   (steady.world fs c (nfs.Opt f))
                 = (None, steady.world fs' c (nfs.Opt f),
                    (exec overlaymodel.run (nfs.Chtimes f name atime mtime)
                       (steady.world fs c (nfs.Opt f))).2)).
  { unfold nfs.Chtimes, when. cbn.
    change (overlaymodel.run _ (LiveChtimes name atime mtime)
              (steady.world fs c (nfs.Opt f)))
      with (@None error, steady.world fs c (nfs.Opt f)).
    cbn. rewrite Hp, Hn. cbn.
    rewrite (run_StoreSave fs c _ _ name _ enc Hn Henc). cbn. reflexivity. }
  rewrite Hrun. cbv beta iota.
  destruct (saved_files (storeOf (nfs.Opt f)) name fs b enc Hb) as (Hb' & Hs').
  fold fs' in Hb', Hs'.
  assert (Hrec : Mtime new = Some (timeFormatRFC3339 mtime) /\
                 Atime new = Some (timeFormatRFC3339 atime)).
  { unfold new. now rewrite merge_record. }
  destruct Hrec as [Hmt Hat].
  assert (Hparse : forall t, t = atime \/ t = mtime ->
    ParsePosixTime (timeFormatRFC3339 t) = t /\ IsZero t = false).
  { intros t Ht. destruct (Htime t Ht) as (Hz & He & Hpt).
    split; [| now apply Z.eqb_neq].
    unfold ParsePosixTime. destruct (String.eqb_spec (timeFormatRFC3339 t) "");
      [contradiction |]. now rewrite Hpt. }
  destruct (Hparse mtime (or_intror eq_refl)) as [Hpm Hzm].
  destruct (Hparse atime (or_introl eq_refl)) as [Hpa Hza].
  split; [reflexivity |]. split.
  - destruct (Stat_over_record f name fs' c b enc new Hp Hn Hb' Hs' Hne Hdec)
      as (fi' & Hstat & _).
    exists (nfs.withOverlayFileInfo fi' new). rewrite Hstat.
    split; [reflexivity |].
    unfold nfs.withOverlayFileInfo. rewrite Hmt, Hpm, Hzm. cbn.
    destruct (Mode new); reflexivity.
  - rewrite <- Hopt in Hp, Hn, Hs' |- *. rewrite <- Hpath in Hn, Hs'.
    destruct (Attr_over_record file fs' c enc new Hp Hn Hs' Hne Hdec)
      as (a & Hattr & _ & _ & _ & Ha1 & Ha2 & Ha3).
    exists a. rewrite Hattr. split; [reflexivity |].
    rewrite Ha1, Ha2, Ha3, Hmt, Hat, Hpm, Hpa, Hzm, Hza. repeat split.
Qed.

(** [Chown] of the share hands on the error of the live chown as it is,
    [ENOSYS] included, which [Chmod] takes for success. On the VFS model
    holding the object, when the handle answers the chown with an error,
    whichever it is: [Chown] returns that error, calls no [Save] and leaves
    every file as it was, so that no owner is persisted and the queries
    afterwards answer as before. When the handle answers the chmod with
    [ENOSYS], persistence being enabled and the path not a sidecar path:
    [Chmod] returns [nil] and calls [Save] once, with the record that holds
    the mode alone. *)
Theorem Chown_fails_where_Chmod_goes_on (f : nfs.FS) (name : string)
    (uid gid mode : Z) (fs : gmap string bytes) (c : Time) (b : bytes)
    (ft : vfsmodel.fault) :
  fs !! name = Some b ->
  let st := {| overlaymodel.disk :=
                 {| vfsmodel.files := fs; vfsmodel.plan := [None; Some ft] |};
               overlaymodel.clock := c; overlaymodel.options := nfs.Opt f |} in
  (let '(err, st1, log) := exec overlaymodel.run (nfs.Chown f name uid gid) st in
   err = Some (vfsmodel.ferr ft) /\ saves log = [] /\
   st1 = steady.world fs c (nfs.Opt f)) /\
  (vfsmodel.ferr ft = ENOSYS ->
   vfscommon.PersistMetadata (nfs.Opt f) = true ->
   IsSidecarPath (storeOf (nfs.Opt f)) name = false ->
   let '(err, _, log) := exec overlaymodel.run (nfs.Chmod f name mode) st in
   err = None /\
   saves log = [(storeOf (nfs.Opt f), name,
                 setMode emptyMeta (FormatPosixMode mode false))]).
Proof.
  intros Hb st. subst st. split.
  - unfold nfs.Chown, when, logIfError, overlaymodel.run. cbn. rewrite Hb. cbn.
    repeat split.
  - intros Hft Hp Hn.
    unfold nfs.Chmod, when, logIfError, overlaymodel.run. cbn. rewrite Hb. cbn.
    rewrite Hft. cbn.
    destruct (decide (Some ENOSYS = Some ENOSYS)) as [_ | Hd]; [| congruence].
    cbn. rewrite Hp, Hn. cbn.
    destruct (exec vfsmodel.run _ _) as [[r d] l]. cbn.
    destruct (vfsmodel.next d) as [x d']. cbn.
    destruct (overlaymodel.failure x); cbn; split; reflexivity.
Qed.

End OnTheModel.

Lemma Chmod_is_seen_by_Stat_and_Attr_witness :
  let f := {| nfs.Opt := sample.options |} in
  let '(err, st1, _) :=
    exec overlaymodel.run (nfs.Chmod f "file" 493)
         (steady.world sample.untracked 1709294400 (nfs.Opt f)) in
  err = None /\
  (exists i,
     (exec overlaymodel.run (nfs.Stat f "file") st1).1.1 = (Some i, None) /\
     nfs.infoMode i = 33261) /\
  (exists a,
     (exec overlaymodel.run (mount.Attr sample.file) st1).1.1 = (a, None) /\
     mount.aMode a = 33261).
Proof.
  intros f.
  assert (Hne : bytes_of_string (golib.json "{'mode':'100755'}") <> [])
    by discriminate.
  pose proof (Chmod_is_seen_by_Stat_and_Attr (H := golib.lib) f sample.file "file" 493
                sample.untracked 1709294400 (bytes_of_string "data")
                (bytes_of_string (golib.json "{'mode':'100755'}"))
                eq_refl eq_refl eq_refl eq_refl eq_refl eq_refl Hne eq_refl) as Hthm.
  destruct (exec overlaymodel.run (nfs.Chmod f "file" 493)
              (steady.world sample.untracked 1709294400 (nfs.Opt f)))
    as [[err st1] log].
  destruct Hthm as (He & _ & Hs & Ha).
  split; [exact He |]. split; [exact Hs | exact Ha].
Defined.

Lemma Chtimes_is_seen_by_Stat_and_Attr_witness :
  let f := {| nfs.Opt := sample.options |} in
  let '(err, st1, _) :=
    exec overlaymodel.run (nfs.Chtimes f "file" 1709294400 1700000000)
         (steady.world sample.untracked 1709294400 (nfs.Opt f)) in
  golib.Format 1700000000 = "2023-11-14T22:13:20Z" /\
  err = None /\
  (exists i,
     (exec overlaymodel.run (nfs.Stat f "file") st1).1.1 = (Some i, None) /\
     nfs.infoModTime i = 1700000000).
Proof.
  intros f.
  set (enc := bytes_of_string
     (golib.json "{'mtime':'2023-11-14T22:13:20Z','atime':'2024-03-01T12:00:00Z'}")).
  assert (Hne : enc <> []) by discriminate.
  assert (Htime : forall t, t = 1709294400 \/ t = 1700000000 ->
            t <> zeroTime /\ golib.Format t <> "" /\
            golib.Parse (golib.Format t) = (t, None)).
  { intros t [-> | ->]; repeat split; discriminate. }
  pose proof (Chtimes_is_seen_by_Stat_and_Attr (H := golib.lib) f sample.file "file"
                1709294400 1700000000 sample.untracked 1709294400
                (bytes_of_string "data") enc
                eq_refl eq_refl eq_refl eq_refl eq_refl Htime eq_refl Hne eq_refl)
    as Hthm.
  destruct (exec overlaymodel.run (nfs.Chtimes f "file" 1709294400 1700000000)
              (steady.world sample.untracked 1709294400 (nfs.Opt f)))
    as [[err st1] log].
  destruct Hthm as (He & Hs & _).
  split; [reflexivity |]. split; [exact He | exact Hs].
Defined.

(** A VFS whose handles do not implement the chown: the owner is not
    changed and nothing is persisted. *)
Lemma Chown_fails_where_Chmod_goes_on_witness :
  let f := {| nfs.Opt := sample.options |} in
  let ft := {| vfsmodel.ferr := ENOSYS; vfsmodel.fdone := 0 |} in
  let st := {| overlaymodel.disk :=
                 {| vfsmodel.files := sample.untracked;
                    vfsmodel.plan := [None; Some ft] |};
               overlaymodel.clock := 1709294400;
               overlaymodel.options := nfs.Opt f |} in
  sample.untracked !! "file" = Some (bytes_of_string "data") /\
  let '(err, st1, log) := exec overlaymodel.run (nfs.Chown f "file" 1001 100) st in
  err = Some ENOSYS /\ overlay.saves log = [] /\
  vfsmodel.files (overlaymodel.disk st1) !! "file.posixmeta" = None.
Proof.
  intros f ft st. split; [reflexivity |].
  pose proof (Chown_fails_where_Chmod_goes_on (H := golib.lib) f "file"
                1001 100 493 sample.untracked 1709294400
                (bytes_of_string "data") ft eq_refl) as Hthm.
  cbv zeta in Hthm. destruct Hthm as [Hthm _]. fold st in Hthm.
  destruct (exec overlaymodel.run (nfs.Chown f "file" 1001 100) st)
    as [[err st1] log].
  destruct Hthm as (He & Hs & Hst).
  split; [exact He |]. split; [exact Hs |]. rewrite Hst. reflexivity.
Defined.
